(** * Shuffle player: staging, playback loop and shutdown

    A shallow embedding of the two player scripts
    [ffplay-music-player.py] and [music-shuffle-player-termux.py], and
    the properties of their staging step, playback loop and shutdown.

    - Python [str] values are [string]s holding the bytes of the name
      (the names handled here are ASCII, so [encode('utf-8')] is the
      identity and [lower()] only touches [A-Z]); file contents are
      [list ascii].
    - [os.path] (posix), [hashlib.md5] and the scanner are functions.
    - The file system is a finite map from paths to entries.  The [world]
      also keeps every file system state reached (what an observer could
      have seen), the events sent to the outside, the child processes and
      the global and local variables the scripts share between calls.
    - Python exceptions are an inductive type; statements run in a
      state-and-exception monad over the [world].  What the environment
      decides (the random scratch name, a full disk, the exit status of the
      player, Ctrl+C, another process removing a file) is an explicit
      argument of the call it affects.  [while True] runs over a finite
      script of passes and is [Pending] when the script ends. *)

From Stdlib Require Import ZArith Ascii String List Lia Bool.
From stdpp Require Import base option gmap strings list fin_maps pretty.

Local Open Scope string_scope.
Local Open Scope Z_scope.
Import ListNotations.

(* ================================================================== *)
(** ** Strings and [os.path] (posix flavour) *)
(* ================================================================== *)

Module Path.

(** [s[i:]] and [s[:i]] for an index [0 <= i]. *)
Fixpoint drop (n : nat) (s : string) : string :=
  match n, s with
  | O, _ => s
  | S _, EmptyString => EmptyString
  | S n', String _ s' => drop n' s'
  end.

Fixpoint take (n : nat) (s : string) : string :=
  match n, s with
  | O, _ => EmptyString
  | S _, EmptyString => EmptyString
  | S n', String a s' => String a (take n' s')
  end.

Definition slice_from (i : Z) (s : string) : string := drop (Z.to_nat i) s.
Definition slice_to (i : Z) (s : string) : string := take (Z.to_nat i) s.

(** [s[i:i+1]]: a string of length one, or empty past the end. *)
Definition slice1 (i : Z) (s : string) : string := take 1 (slice_from i s).

(** [str.rfind(c)]: the highest index of [c], or [-1]. *)
Fixpoint rfind_from (c : ascii) (s : string) (i last : Z) : Z :=
  match s with
  | EmptyString => last
  | String a s' => rfind_from c s' (i + 1) (if Ascii.eqb a c then i else last)
  end.

Definition rfind (c : ascii) (s : string) : Z := rfind_from c s 0 (-1).

Definition startswith (c : ascii) (s : string) : bool :=
  match s with
  | String a _ => Ascii.eqb a c
  | EmptyString => false
  end.

Fixpoint endswith (c : ascii) (s : string) : bool :=
  match s with
  | EmptyString => false
  | String a EmptyString => Ascii.eqb a c
  | String _ s' => endswith c s'
  end.

(** [str.lower()] on ASCII. *)
Definition lower_char (a : ascii) : ascii :=
  let n := nat_of_ascii a in
  if (65 <=? n)%nat && (n <=? 90)%nat then ascii_of_nat (n + 32) else a.

Fixpoint lower (s : string) : string :=
  match s with
  | EmptyString => EmptyString
  | String a s' => String (lower_char a) (lower s')
  end.

Definition sep : ascii := "/"%char.
Definition extsep : ascii := "."%char.

(** [posixpath.basename]. *)
Definition basename (p : string) : string :=
  let i := rfind sep p + 1 in
  slice_from i p.

(** The [while filenameIndex < dotIndex] loop of [genericpath._splitext];
    the fuel is the number of indices left to visit. *)
Fixpoint skip_leading_dots (p : string) (dotIndex filenameIndex : Z)
         (fuel : nat) : string * string :=
  match fuel with
  | O => (p, EmptyString)
  | S fuel' =>
      if filenameIndex <? dotIndex then
        if negb (String.eqb (slice1 filenameIndex p) (String extsep EmptyString))
        then (slice_to dotIndex p, slice_from dotIndex p)
        else skip_leading_dots p dotIndex (filenameIndex + 1) fuel'
      else (p, EmptyString)
  end.

(** [posixpath.splitext]. *)
Definition splitext (p : string) : string * string :=
  let sepIndex := rfind sep p in
  let dotIndex := rfind extsep p in
  if dotIndex >? sepIndex then
    let filenameIndex := sepIndex + 1 in
    skip_leading_dots p dotIndex filenameIndex
                      (Z.to_nat (dotIndex - filenameIndex))
  else (p, EmptyString).

(** [posixpath.join(a, b)]. *)
Definition join (a b : string) : string :=
  if startswith sep b then b
  else if String.eqb a EmptyString || endswith sep a then a ++ b
  else a ++ String sep b.

(** No occurrence of a character. *)
Fixpoint lacks (c : ascii) (s : string) : bool :=
  match s with
  | EmptyString => true
  | String a s' => negb (Ascii.eqb a c) && lacks c s'
  end.

End Path.

(* ================================================================== *)
(** ** The library scanner *)
(* ================================================================== *)

Definition MUSIC_EXTS : list string :=
  [".mp3"; ".flac"; ".wav"; ".m4a"; ".ogg"; ".aac";
   ".opus"; ".wma"; ".ape"; ".aiff"; ".dsf"].

Definition mem_string (x : string) (l : list string) : bool :=
  existsb (String.eqb x) l.

(** [os.path.splitext(name)[1].lower() in MUSIC_EXTS]. *)
Definition is_music (name : string) : bool :=
  let ext := Path.lower (snd (Path.splitext name)) in
  mem_string ext MUSIC_EXTS.

(** One item of [os.walk(folder)]: [(root, dirnames, filenames)]. *)
Definition walk_item : Type := string * list string * list string.

(** [gather_music_files], over the items that [os.walk(folder)] yields. *)
Fixpoint gather_names (root : string) (filenames : list string) (files : list string)
  : list string :=
  match filenames with
  | [] => files
  | name :: rest =>
      let ext := Path.lower (snd (Path.splitext name)) in
      if mem_string ext MUSIC_EXTS
      then gather_names root rest (files ++ [Path.join root name])
      else gather_names root rest files
  end.

Fixpoint gather_walk (walk : list walk_item) (files : list string) : list string :=
  match walk with
  | [] => files
  | (root, _, filenames) :: rest => gather_walk rest (gather_names root filenames files)
  end.

Definition gather_music_files (walk : list walk_item) : list string :=
  gather_walk walk [].

(* ================================================================== *)
(** ** [hashlib.md5(...).hexdigest()] *)
(* ================================================================== *)

Module MD5.

Definition mask32 : Z := 0xFFFFFFFF.
Definition add32 (a b : Z) : Z := Z.land (a + b) mask32.
Definition not32 (x : Z) : Z := Z.lxor x mask32.
Definition rotl32 (x c : Z) : Z :=
  Z.lor (Z.land (Z.shiftl x c) mask32) (Z.shiftr x (32 - c)).

Definition K : list Z :=
  [0xd76aa478; 0xe8c7b756; 0x242070db; 0xc1bdceee;
   0xf57c0faf; 0x4787c62a; 0xa8304613; 0xfd469501;
   0x698098d8; 0x8b44f7af; 0xffff5bb1; 0x895cd7be;
   0x6b901122; 0xfd987193; 0xa679438e; 0x49b40821;
   0xf61e2562; 0xc040b340; 0x265e5a51; 0xe9b6c7aa;
   0xd62f105d; 0x02441453; 0xd8a1e681; 0xe7d3fbc8;
   0x21e1cde6; 0xc33707d6; 0xf4d50d87; 0x455a14ed;
   0xa9e3e905; 0xfcefa3f8; 0x676f02d9; 0x8d2a4c8a;
   0xfffa3942; 0x8771f681; 0x6d9d6122; 0xfde5380c;
   0xa4beea44; 0x4bdecfa9; 0xf6bb4b60; 0xbebfbc70;
   0x289b7ec6; 0xeaa127fa; 0xd4ef3085; 0x04881d05;
   0xd9d4d039; 0xe6db99e5; 0x1fa27cf8; 0xc4ac5665;
   0xf4292244; 0x432aff97; 0xab9423a7; 0xfc93a039;
   0x655b59c3; 0x8f0ccc92; 0xffeff47d; 0x85845dd1;
   0x6fa87e4f; 0xfe2ce6e0; 0xa3014314; 0x4e0811a1;
   0xf7537e82; 0xbd3af235; 0x2ad7d2bb; 0xeb86d391].

Definition R : list Z :=
  [7; 12; 17; 22; 7; 12; 17; 22; 7; 12; 17; 22; 7; 12; 17; 22;
   5; 9; 14; 20; 5; 9; 14; 20; 5; 9; 14; 20; 5; 9; 14; 20;
   4; 11; 16; 23; 4; 11; 16; 23; 4; 11; 16; 23; 4; 11; 16; 23;
   6; 10; 15; 21; 6; 10; 15; 21; 6; 10; 15; 21; 6; 10; 15; 21].

Definition state : Type := Z * Z * Z * Z.

Definition init : state := (0x67452301, 0xefcdab89, 0x98badcfe, 0x10325476).

(** Little-endian bytes of a number. *)
Fixpoint le_bytes (n : nat) (x : Z) : list Z :=
  match n with
  | O => []
  | S n' => Z.land x 0xFF :: le_bytes n' (Z.shiftr x 8)
  end.

(** Message, then [0x80], zeros up to 56 modulo 64, then the bit length. *)
Definition pad (msg : list Z) : list Z :=
  let len := Z.of_nat (length msg) in
  msg ++ [0x80] ++ repeat 0 (Z.to_nat ((55 - len) mod 64))
      ++ le_bytes 8 (Z.land (len * 8) 0xFFFFFFFFFFFFFFFF).

Fixpoint words (bs : list Z) : list Z :=
  match bs with
  | b0 :: b1 :: b2 :: b3 :: rest =>
      (b0 + Z.shiftl b1 8 + Z.shiftl b2 16 + Z.shiftl b3 24) :: words rest
  | _ => []
  end.

Definition round (M : list Z) (st : state) (i : nat) : state :=
  let '(a, b, c, d) := st in
  let iz := Z.of_nat i in
  let '(f, g) :=
    if iz <? 16 then (Z.lor (Z.land b c) (Z.land (not32 b) d), iz)
    else if iz <? 32 then (Z.lor (Z.land d b) (Z.land (not32 d) c), (5 * iz + 1) mod 16)
    else if iz <? 48 then (Z.lxor (Z.lxor b c) d, (3 * iz + 5) mod 16)
    else (Z.lxor c (Z.lor b (not32 d)), (7 * iz) mod 16) in
  let f' := add32 (add32 (add32 f a) (nth i K 0)) (nth (Z.to_nat g) M 0) in
  (d, add32 b (rotl32 f' (nth i R 0)), b, c).

Definition block (st : state) (M : list Z) : state :=
  let '(a0, b0, c0, d0) := st in
  let '(a, b, c, d) := fold_left (round M) (seq 0 64) st in
  (add32 a0 a, add32 b0 b, add32 c0 c, add32 d0 d).

Fixpoint blocks (fuel : nat) (ws : list Z) (st : state) : state :=
  match fuel, ws with
  | S fuel', _ :: _ => blocks fuel' (skipn 16 ws) (block st (firstn 16 ws))
  | _, _ => st
  end.

Definition digest (msg : list Z) : state :=
  let ws := words (pad msg) in
  blocks (length ws) ws init.

Definition hex_digit (n : Z) : ascii :=
  nth (Z.to_nat n)
      ["0"; "1"; "2"; "3"; "4"; "5"; "6"; "7";
       "8"; "9"; "a"; "b"; "c"; "d"; "e"; "f"]%char "0"%char.

Definition hex_byte (b : Z) (k : string) : string :=
  String (hex_digit (Z.shiftr b 4)) (String (hex_digit (Z.land b 0xF)) k).

Definition hex_word (w : Z) (k : string) : string :=
  hex_byte (Z.land w 0xFF)
    (hex_byte (Z.land (Z.shiftr w 8) 0xFF)
       (hex_byte (Z.land (Z.shiftr w 16) 0xFF)
          (hex_byte (Z.land (Z.shiftr w 24) 0xFF) k))).

Definition hex_state (st : state) : string :=
  let '(a, b, c, d) := st in
  hex_word a (hex_word b (hex_word c (hex_word d EmptyString))).

(** The bytes of a string. *)
Fixpoint encode (s : string) : list Z :=
  match s with
  | EmptyString => []
  | String a s' => Z.of_nat (nat_of_ascii a) :: encode s'
  end.

(** [hashlib.md5(s.encode('utf-8')).hexdigest()]. *)
Definition hexdigest (s : string) : string := hex_state (digest (encode s)).

End MD5.

(** The staged file's name: [hash_md5 + ext] in [copy_to_temp_md5]. *)
Definition desired_name (original_path : string) : string :=
  let basename := Path.basename original_path in
  let '(name_without_ext, ext) := Path.splitext basename in
  let hash_md5 := MD5.hexdigest name_without_ext in
  hash_md5 ++ ext.

(* ================================================================== *)
(** ** The world: file system, processes, output *)
(* ================================================================== *)

Inductive entry : Type :=
| File (data : list ascii)
| Dir.

Inductive exn : Type :=
| KeyboardInterrupt
| SystemExit (code : Z)
| FileNotFoundError
| FileExistsError
| IsADirectoryError
| OSError                      (* any other [OSError]: no space, no permission *)
| CalledProcessError (returncode : Z)
| TimeoutExpired
| UnboundLocalError.

(** [isinstance(e, Exception)]: everything but the two [BaseException]s. *)
Definition is_Exception (e : exn) : bool :=
  match e with
  | KeyboardInterrupt | SystemExit _ => false
  | _ => true
  end.

Definition is_OSError (e : exn) : bool :=
  match e with
  | FileNotFoundError | FileExistsError | IsADirectoryError | OSError => true
  | _ => false
  end.

(** A child process: running, or gone with a return code. *)
Inductive pstate : Type :=
| Running
| Exited (returncode : Z).

(** What the program does to the outside, in order. *)
Inductive event : Type :=
| Print (text : string)            (* [print(text)]: a line on standard output *)
| PrintErr (text : string)         (* [print(text, file=sys.stderr)] *)
| Spawn (cmd : list string)
| Terminate (pid : nat)
| WaitTimeout (pid : nat) (seconds : Z)
| Kill (pid : nat)
| Run (cmd : list string)
| Sleep (seconds : Z).

Inductive handler : Type :=
| cleanup_ffplay_handler
| stop_music_handler.

Record world : Type := mkWorld {
  fs : gmap string entry;            (* the file system *)
  hist : list (gmap string entry);   (* the file system after each change, oldest first *)
  trace : list event;                (* oldest first *)
  tempdir : string;                  (* [tempfile.gettempdir()] *)
  procs : list pstate;               (* child processes, by pid *)
  ffplay_process : option nat;       (* the global of the ffplay script *)
  tmp_path : option string;          (* the local of [copy_to_temp_md5], [None] while unbound *)
  atexit : list handler              (* registered handlers, oldest first *)
}.

Definition with_fs (f : gmap string entry) (w : world) : world :=
  mkWorld f (hist w ++ [f]) (trace w) (tempdir w) (procs w) (ffplay_process w)
          (tmp_path w) (atexit w).
Definition with_event (e : event) (w : world) : world :=
  mkWorld (fs w) (hist w) (trace w ++ [e]) (tempdir w) (procs w) (ffplay_process w)
          (tmp_path w) (atexit w).
Definition with_procs (ps : list pstate) (w : world) : world :=
  mkWorld (fs w) (hist w) (trace w) (tempdir w) ps (ffplay_process w)
          (tmp_path w) (atexit w).
Definition with_ffplay_process (h : option nat) (w : world) : world :=
  mkWorld (fs w) (hist w) (trace w) (tempdir w) (procs w) h
          (tmp_path w) (atexit w).
Definition with_tmp_path (t : option string) (w : world) : world :=
  mkWorld (fs w) (hist w) (trace w) (tempdir w) (procs w) (ffplay_process w)
          t (atexit w).
Definition with_atexit (hs : list handler) (w : world) : world :=
  mkWorld (fs w) (hist w) (trace w) (tempdir w) (procs w) (ffplay_process w)
          (tmp_path w) hs.

(** A fresh process state: nothing staged, nothing running. *)
Definition boot (files : gmap string entry) (tmp : string) : world :=
  mkWorld files [] [] tmp [] None None [].

(* ================================================================== *)
(** ** Statements: state, exceptions, and a script that may run out *)
(* ================================================================== *)

(** [Pending]: the modelled environment has nothing more to say while
    the program is still blocked or looping; no [finally] runs. *)
Inductive res (A : Type) : Type :=
| Ret (a : A)
| Raise (e : exn)
| Pending.
Arguments Ret {A} a.
Arguments Raise {A} e.
Arguments Pending {A}.

Definition M (A : Type) : Type := world -> res A * world.

Definition ret {A} (a : A) : M A := fun w => (Ret a, w).
Definition raise {A} (e : exn) : M A := fun w => (Raise e, w).
Definition pending {A} : M A := fun w => (Pending, w).

Definition bind {A B} (m : M A) (k : A -> M B) : M B :=
  fun w =>
    match m w with
    | (Ret a, w') => k a w'
    | (Raise e, w') => (Raise e, w')
    | (Pending, w') => (Pending, w')
    end.

Declare Scope py_scope.
Delimit Scope py_scope with py.
Notation "x <- m ;; k" := (bind m (fun x => k))
  (at level 20, m at level 99, k at level 200, only parsing) : py_scope.
Notation "m ;; k" := (bind m (fun _ => k))
  (at level 100, k at level 200, only parsing, right associativity) : py_scope.
Local Open Scope py_scope.

(** [try: m  except <classes matched by h>: handler]. *)
Definition try_except {A} (m : M A) (h : exn -> option (M A)) : M A :=
  fun w =>
    match m w with
    | (Raise e, w') =>
        match h e with
        | Some k => k w'
        | None => (Raise e, w')
        end
    | r => r
    end.

(** [try: m  finally: f].  An exception of [f] replaces the outcome of [m]. *)
Definition try_finally {A} (m : M A) (f : M unit) : M A :=
  fun w =>
    match m w with
    | (Pending, w') => (Pending, w')
    | (r, w') =>
        match f w' with
        | (Ret _, w'') => (r, w'')
        | (Raise e, w'') => (Raise e, w'')
        | (Pending, w'') => (Pending, w'')
        end
    end.

Definition when (b : bool) (m : M unit) : M unit := if b then m else ret tt.

Definition get {A} (f : world -> A) : M A := fun w => (Ret (f w), w).
Definition modify (f : world -> world) : M unit := fun w => (Ret tt, f w).

(** [print(text)] and [print(text, file=sys.stderr)]; the text is the
    argument, without the line end that [print] adds. *)
Definition print (text : string) : M unit := modify (with_event (Print text)).
Definition eprint (text : string) : M unit := modify (with_event (PrintErr text)).

(** ["\n"], where the scripts write one inside a text. *)
Definition nl : string := String "010"%char EmptyString.
Definition sys_exit {A} (code : Z) : M A := raise (SystemExit code).

(* ------------------------------------------------------------------ *)
(** *** File system calls *)

Definition os_path_exists (p : string) : M bool :=
  get (fun w => match fs w !! p with Some _ => true | None => false end).

Definition os_path_isdir (p : string) : M bool :=
  get (fun w => match fs w !! p with Some Dir => true | _ => false end).

Definition os_remove (p : string) : M unit :=
  fun w =>
    match fs w !! p with
    | Some (File _) => (Ret tt, with_fs (delete p (fs w)) w)
    | Some Dir => (Raise IsADirectoryError, w)
    | None => (Raise FileNotFoundError, w)
    end.

Definition os_rename (src dst : string) : M unit :=
  fun w =>
    match fs w !! src with
    | None => (Raise FileNotFoundError, w)
    | Some e =>
        match fs w !! dst with
        | Some Dir => (Raise IsADirectoryError, w)
        | _ => (Ret tt, with_fs (<[dst := e]> (delete src (fs w))) w)
        end
    end.

(** [open(p, 'rb')]: the bytes still to be read. *)
Definition open_rb (p : string) : M (list ascii) :=
  fun w =>
    match fs w !! p with
    | Some (File data) => (Ret data, w)
    | Some Dir => (Raise IsADirectoryError, w)
    | None => (Raise FileNotFoundError, w)
    end.

(** What the environment decides during one call of [copy_to_temp_md5]. *)
Record stage_env : Type := mkStageEnv {
  rnd : option string;       (* the random part of the scratch name; [None]: it cannot be created *)
  bufsize : nat;             (* [shutil.COPY_BUFSIZE] *)
  write_fail : option nat    (* the write call (from 0) that raises, e.g. disk full:
                                a call that hands over a whole chunk of [bufsize]
                                bytes, more than the file object buffers, so that
                                it goes to the disk at once *)
}.

(** [tempfile.NamedTemporaryFile(dir=..., suffix=..., delete=False)]:
    creates an empty file with a name that was not there. *)
Definition NamedTemporaryFile (env : stage_env) (dir suffix : string) : M string :=
  match rnd env with
  | None => raise OSError
  | Some r =>
      let name := Path.join dir ("tmp" ++ r ++ suffix) in
      fun w =>
        match fs w !! name with
        | Some _ => (Raise FileExistsError, w)
        | None => (Ret name, with_fs (<[name := File []]> (fs w)) w)
        end
  end.

(** [f.write(buf)] on the file opened at [p]: the [k]-th write of the copy. *)
Definition file_write (env : stage_env) (p : string) (buf : list ascii) (k : nat) : M unit :=
  if bool_decide (write_fail env = Some k) then raise OSError
  else
    fun w =>
      match fs w !! p with
      | Some (File data) => (Ret tt, with_fs (<[p := File (data ++ buf)]> (fs w)) w)
      | _ => (Raise OSError, w)
      end.

(** [shutil.copyfileobj(fsrc, fdst)]:
    [while buf := fsrc.read(length): fdst.write(buf)]. *)
Fixpoint copy_loop (fuel : nat) (env : stage_env) (fsrc : list ascii) (fdst : string)
         (k : nat) : M unit :=
  match fuel with
  | O => pending
  | S fuel' =>
      let buf := firstn (bufsize env) fsrc in
      match buf with
      | [] => ret tt
      | _ :: _ =>
          file_write env fdst buf k ;;
          copy_loop fuel' env (skipn (bufsize env) fsrc) fdst (S k)
      end
  end.

Definition copyfileobj (env : stage_env) (fsrc : list ascii) (fdst : string) : M unit :=
  copy_loop (S (length fsrc)) env fsrc fdst 0.

(** Reading the local [tmp_path]. *)
Definition read_tmp_path : M string :=
  fun w =>
    match tmp_path w with
    | Some p => (Ret p, w)
    | None => (Raise UnboundLocalError, w)
    end.

(** The [try:] block of [copy_to_temp_md5], the same in both scripts.
    The scratch file object is its path: [tmp_file.name]. *)
Definition stage_attempt (env : stage_env) (original_path temp_dir ext dest_path : string)
  : M (option string) :=
  (* with tempfile.NamedTemporaryFile(...) as tmp_file: *)
  (tmp_file <- NamedTemporaryFile env temp_dir ext ;;
   (* with open(original_path, 'rb') as src: shutil.copyfileobj(src, tmp_file) *)
   src <- open_rb original_path ;;
   copyfileobj env src tmp_file ;;
   (* tmp_path = tmp_file.name *)
   modify (with_tmp_path (Some tmp_file))) ;;
  (* if os.path.exists(dest_path): os.remove(dest_path) *)
  e <- os_path_exists dest_path ;;
  when e (os_remove dest_path) ;;
  (* os.rename(tmp_path, dest_path); return dest_path *)
  tmp <- read_tmp_path ;;
  os_rename tmp dest_path ;;
  ret (Some dest_path).

Definition exn_text (e : exn) : string :=
  match e with
  | KeyboardInterrupt => "KeyboardInterrupt"
  | SystemExit _ => "SystemExit"
  | FileNotFoundError => "No such file or directory"
  | FileExistsError => "File exists"
  | IsADirectoryError => "Is a directory"
  | OSError => "OSError"
  | CalledProcessError _ => "Command returned non-zero exit status"
  | TimeoutExpired => "Command timed out"
  | UnboundLocalError => "cannot access local variable 'tmp_path'"
  end.

(** Another process removes [p] while the program is blocked in a call. *)
Definition meanwhile_unlink (happens : bool) (p : string) : M unit :=
  fun w =>
    if happens then
      match fs w !! p with
      | Some _ => (Ret tt, with_fs (delete p (fs w)) w)
      | None => (Ret tt, w)
      end
    else (Ret tt, w).

(** The innermost [try: os.remove(temp_path) except OSError: pass]. *)
Definition remove_ignoring_OSError (temp_path : string) : M unit :=
  try_except (os_remove temp_path)
             (fun e => if is_OSError e then Some (ret tt) else None).

(** The status a finished [main] leaves the interpreter with. *)
Definition exit_status (r : res unit) : option Z :=
  match r with
  | Ret _ => Some 0
  | Raise (SystemExit code) => Some code
  | Raise KeyboardInterrupt => Some 130
  | Raise _ => Some 1
  | Pending => None
  end.

(* ================================================================== *)
(** ** ffplay-music-player.py *)
(* ================================================================== *)

Module Ffplay.

(** What happens around one call of [play_file]. *)
Record play_env : Type := mkPlayEnv {
  spawn_error : option exn;    (* [Popen] raises this *)
  wait_result : option Z;      (* the return code; [None]: Ctrl+C arrives while waiting *)
  sigint_exit : option Z;      (* on Ctrl+C the player got the signal too and exited with this *)
  exits_in_grace : option bool;
                               (* after [terminate], does it exit within the timeout;
                                  [None]: Ctrl+C arrives again during that wait *)
  unlinked : bool              (* the staged file is removed by someone else meanwhile *)
}.

Definition set_proc (pid : nat) (st : pstate) : M unit :=
  modify (fun w => with_procs (<[pid := st]> (procs w)) w).

(** [subprocess.Popen(cmd, ...)]. *)
Definition Popen (env : play_env) (cmd : list string) : M nat :=
  match spawn_error env with
  | Some e => raise e
  | None =>
      fun w => (Ret (length (procs w)),
                with_event (Spawn cmd) (with_procs (procs w ++ [Running]) w))
  end.

(** [p.wait()] with no timeout. *)
Definition wait (env : play_env) (pid : nat) (filepath : string) : M Z :=
  meanwhile_unlink (unlinked env) filepath ;;
  match wait_result env with
  | Some returncode => set_proc pid (Exited returncode) ;; ret returncode
  | None =>
      match sigint_exit env with
      | Some returncode => set_proc pid (Exited returncode)
      | None => ret tt
      end ;;
      raise KeyboardInterrupt
  end.

(** [p.poll()]: [None] while it runs. *)
Definition poll (pid : nat) : M (option Z) :=
  get (fun w => match procs w !! pid with
                | Some (Exited rc) => Some rc
                | _ => None
                end).

Definition terminate (pid : nat) : M unit := modify (with_event (Terminate pid)).

Definition kill (pid : nat) : M unit :=
  modify (with_event (Kill pid)) ;; set_proc pid (Exited (-9)).

(** [p.wait(timeout=seconds)] after a [terminate]: the process exits in
    time, or the wait times out, or it is cut by Ctrl+C, which [wait]
    hands on. *)
Definition wait_timeout (pid : nat) (seconds : Z) (in_time : option bool) : M unit :=
  modify (with_event (WaitTimeout pid seconds)) ;;
  match in_time with
  | Some true => set_proc pid (Exited (-15))
  | Some false => raise TimeoutExpired
  | None => raise KeyboardInterrupt
  end.

Definition cleanup_ffplay (in_time : option bool) : M unit :=
  h <- get ffplay_process ;;
  match h with
  | None => ret tt
  | Some pid =>
      st <- poll pid ;;
      match st with
      | Some _ => ret tt
      | None =>
          terminate pid ;;
          try_except (wait_timeout pid 2 in_time)
                     (fun e => match e with
                               | TimeoutExpired => Some (kill pid)
                               | _ => None
                               end) ;;
          modify (with_ffplay_process None)
      end
  end.

Definition copy_to_temp_md5 (env : stage_env) (original_path : string)
  : M (option string) :=
  let basename := Path.basename original_path in
  let '(name_without_ext, ext) := Path.splitext basename in
  let hash_md5 := MD5.hexdigest name_without_ext in
  let desired_name := hash_md5 ++ ext in
  modify (with_tmp_path None) ;;
  temp_dir <- get tempdir ;;
  let dest_path := Path.join temp_dir desired_name in
  try_except
    (stage_attempt env original_path temp_dir ext dest_path)
    (fun e =>
       if is_Exception e then Some (
         eprint ("Error creating temporary copy for " ++ basename ++ ": " ++ exn_text e) ;;
         c <- (bound <- get (fun w => match tmp_path w with Some _ => true | None => false end) ;;
               if bound then (tmp <- read_tmp_path ;; os_path_exists tmp) else ret false) ;;
         when c (tmp <- read_tmp_path ;; os_remove tmp) ;;
         ret None)
       else None).

Definition play_file (env : play_env) (filepath : string) : M bool :=
  try_finally
    (try_except
       (let cmd := ["ffplay"; "-nodisp"; "-autoexit"; "-loglevel"; "quiet";
                    "-hide_banner"; "-i"; filepath] in
        pid <- Popen env cmd ;;
        modify (with_ffplay_process (Some pid)) ;;
        returncode <- wait env pid filepath ;;
        if negb (returncode =? 0) then
          eprint ("ffplay exited with code " ++ pretty returncode ++ " for "
                    ++ Path.basename filepath) ;;
          ret false
        else ret true)
       (fun e =>
          match e with
          | KeyboardInterrupt =>
              Some (cleanup_ffplay (exits_in_grace env) ;; raise KeyboardInterrupt)
          | _ =>
              if is_Exception e then Some (
                eprint ("Error playing " ++ Path.basename filepath ++ ": " ++ exn_text e) ;;
                ret false)
              else None
          end))
    (modify (with_ffplay_process None)).

(** What [main] learns before the loop. *)
Record startup_env : Type := mkStartupEnv {
  system : string;              (* [platform.system().lower()] *)
  on_path : list string;        (* the executables [shutil.which] finds *)
  walk : list walk_item         (* what [os.walk(folder)] yields *)
}.

Definition which (env : startup_env) (cmd : string) : bool :=
  mem_string cmd (on_path env).

Definition check_ffplay (env : startup_env) : M unit :=
  if which env "ffplay" then ret tt
  else
    eprint "Error: ffplay executable not found in PATH." ;;
    let system := system env in
    let suggestions :=
      if String.eqb system "linux" then
        if which env "apt" then ["sudo apt install ffmpeg"]
        else if which env "dnf" then ["sudo dnf install ffmpeg"]
        else if which env "yum" then ["sudo yum install ffmpeg"]
        else if which env "pacman" then ["sudo pacman -S ffmpeg"]
        else if which env "zypper" then ["sudo zypper install ffmpeg"]
        else if which env "emerge" then ["sudo emerge --ask media-video/ffmpeg"]
        else if which env "pkg" then ["pkg install ffmpeg"]
        else []
      else if String.eqb system "darwin" then
        if which env "brew" then ["brew install ffmpeg"]
        else if which env "port" then ["sudo port install ffmpeg"]
        else []
      else if String.eqb system "windows" then
        if which env "choco" then ["choco install ffmpeg"]
        else if which env "winget" then ["winget install ffmpeg"]
        else ["Download ffmpeg from https://ffmpeg.org/ and add it to PATH"]
      else [] in
    match suggestions with
    | _ :: _ =>
        eprint "Please install ffmpeg (which provides ffplay) using one of these commands:" ;;
        fold_right (fun cmd k => eprint ("  " ++ cmd) ;; k) (ret tt) suggestions
    | [] => eprint "Please ensure ffplay executable is in PATH"
    end ;;
    sys_exit 1.

(** One track of the [for song in songs] loop. *)
Record iter_env : Type := mkIterEnv {
  stage : stage_env;
  play : play_env
}.

(** The [try: ... finally: ...] statement around [play_file]. *)
Definition play_and_cleanup (env : play_env) (temp_path : string) : M unit :=
  try_finally
    (success <- play_file env temp_path ;;
     if success then print ("Finished." ++ nl)
     else print ("Playback failed, skipping." ++ nl))
    (remove_ignoring_OSError temp_path).

Definition iteration (env : iter_env) (song : string) : M unit :=
  print ("Now playing: " ++ Path.basename song) ;;
  temp_path <- copy_to_temp_md5 (stage env) song ;;
  match temp_path with
  | None => print ("Skipping due to copy error." ++ nl)      (* continue *)
  | Some temp_path => play_and_cleanup (play env) temp_path
  end.

Fixpoint for_songs (songs : list string) (envs : list iter_env) : M unit :=
  match songs with
  | [] => ret tt
  | song :: rest =>
      match envs with
      | [] => pending
      | env :: envs' => iteration env song ;; for_songs rest envs'
      end
  end.

(** One pass of [while True]: the shuffle and what happens to each track. *)
Record pass_env : Type := mkPassEnv {
  shuffle : list string -> list string;
  tracks : list iter_env
}.

Fixpoint while_True (songs : list string) (passes : list pass_env) : M unit :=
  match passes with
  | [] => pending
  | p :: rest =>
      let songs := shuffle p songs in
      for_songs songs (tracks p) ;;
      while_True songs rest
  end.

(** [main] up to the loop: the checks, and the songs found. *)
Definition startup (argv : list string) (env : startup_env) : M (list string) :=
  when (negb (length argv =? 2)%nat)
       (print ("Usage: " ++ nth 0 argv "" ++ " <folder_path>") ;; sys_exit 1) ;;
  let folder := nth 1 argv "" in
  isdir <- os_path_isdir folder ;;
  when (negb isdir)
       (eprint ("Error: '" ++ folder ++ "' is not a valid directory.") ;; sys_exit 1) ;;
  check_ffplay env ;;
  modify (fun w => with_atexit (atexit w ++ [cleanup_ffplay_handler]) w) ;;
  let songs := gather_music_files (walk env) in
  when (match songs with [] => true | _ => false end)
       (eprint ("No supported music files found in '" ++ folder ++ "'.") ;; sys_exit 1) ;;
  print ("Found " ++ pretty (length songs)
           ++ " music file(s). Starting shuffled playback with ffplay...") ;;
  print ("Press Ctrl+C to stop." ++ nl) ;;
  ret songs.

(** The [try: while True: ... except KeyboardInterrupt: ...] of [main]. *)
Definition playback (songs : list string) (passes : list pass_env) : M unit :=
  try_except
    (while_True songs passes)
    (fun e =>
       match e with
       | KeyboardInterrupt =>
           Some (print (nl ++ "KeyboardInterrupt received. Stopping playback...") ;;
                 cleanup_ffplay (Some true) ;;
                 sys_exit 0)
       | _ => None
       end).

Definition main (argv : list string) (env : startup_env) (passes : list pass_env)
  : M unit :=
  songs <- startup argv env ;;
  playback songs passes.

(** The interpreter around [main]: at exit the registered handlers run,
    newest first; what they raise is reported and dropped. *)
Definition run_handler (h : handler) : M unit :=
  match h with
  | cleanup_ffplay_handler =>
      try_except (cleanup_ffplay (Some true)) (fun _ => Some (ret tt))
  | stop_music_handler => ret tt
  end.

Definition program (argv : list string) (env : startup_env) (passes : list pass_env)
           (w : world) : option Z * world :=
  match main argv env passes w with
  | (Pending, w') => (None, w')
  | (r, w') =>
      (exit_status r,
       snd (fold_right (fun h k => run_handler h ;; k) (ret tt) (rev (atexit w')) w'))
  end.

End Ffplay.

(* ================================================================== *)
(** ** music-shuffle-player-termux.py *)
(* ================================================================== *)

Module Termux.

(** How one [termux-media-player] command ends. *)
Inductive run_outcome : Type :=
| Returns (returncode : Z) (output : string)
| NotFound                       (* the executable is missing *)
| Interrupted.                   (* Ctrl+C arrives while it runs *)

(** [needle in hay]. *)
Fixpoint contains (needle hay : string) : bool :=
  String.prefix needle hay
  || match hay with
     | EmptyString => false
     | String _ hay' => contains needle hay'
     end.

(** [subprocess.run(cmd, check=..., capture_output=True)] and
    [subprocess.check_output(cmd)]: the captured output. *)
Definition subprocess_run (cmd : list string) (check : bool) (o : run_outcome)
  : M string :=
  match o with
  | NotFound => raise FileNotFoundError
  | Interrupted => modify (with_event (Run cmd)) ;; raise KeyboardInterrupt
  | Returns returncode output =>
      modify (with_event (Run cmd)) ;;
      if check && negb (returncode =? 0) then raise (CalledProcessError returncode)
      else ret output
  end.

Definition stop_music (o : run_outcome) : M unit :=
  try_except
    (subprocess_run ["termux-media-player"; "stop"] false o ;; ret tt)
    (fun e =>
       if is_Exception e then Some (print ("Error while stopping music: " ++ exn_text e))
       else None).

Definition is_playing (o : run_outcome) : M bool :=
  try_except
    (output <- subprocess_run ["termux-media-player"; "info"] true o ;;
     ret (negb (contains "No track currently" output)))
    (fun e =>
       match e with
       | CalledProcessError _ => Some (ret false)
       | FileNotFoundError =>
           Some (print (nl ++ "Error: termux-media-player not found.") ;;
                 print "Please install Termux:API and its Termux package." ;;
                 sys_exit 1)
       | _ => None
       end).

Definition copy_to_temp_md5 (env : stage_env) (original_path : string)
  : M (option string) :=
  let basename := Path.basename original_path in
  let '(name_without_ext, ext) := Path.splitext basename in
  let hash_md5 := MD5.hexdigest name_without_ext in
  let desired_name := hash_md5 ++ ext in
  modify (with_tmp_path None) ;;
  temp_dir <- get tempdir ;;
  let dest_path := Path.join temp_dir desired_name in
  try_except
    (stage_attempt env original_path temp_dir ext dest_path)
    (fun e =>
       if is_Exception e then Some (
         print ("Error creating temporary copy for " ++ basename ++ ": " ++ exn_text e) ;;
         tmp <- read_tmp_path ;;
         c <- os_path_exists tmp ;;
         when c (tmp <- read_tmp_path ;; os_remove tmp) ;;
         ret None)
       else None).

(** What happens around one call of [play_file]. *)
Record play_env : Type := mkPlayEnv {
  play_run : run_outcome;
  unlinked : bool              (* the staged file is removed by someone else meanwhile *)
}.

Definition play_file (env : play_env) (filepath : string) : M bool :=
  try_except
    (meanwhile_unlink (unlinked env) filepath ;;
     subprocess_run ["termux-media-player"; "play"; filepath] true (play_run env) ;;
     ret true)
    (fun e =>
       match e with
       | CalledProcessError _ =>
           Some (print ("Failed to play: " ++ Path.basename filepath) ;; ret false)
       | _ => None
       end).

(** [time.sleep(seconds)], possibly cut short by Ctrl+C. *)
Definition time_sleep (seconds : Z) (interrupted : bool) : M unit :=
  modify (with_event (Sleep seconds)) ;;
  if interrupted then raise KeyboardInterrupt else ret tt.

(** [while is_playing(): time.sleep(1)], one entry per round:
    how the [info] command ends and whether the sleep is interrupted. *)
Fixpoint wait_until_finished (polls : list (run_outcome * bool)) : M unit :=
  match polls with
  | [] => pending
  | (o, interrupted) :: rest =>
      playing <- is_playing o ;;
      if playing then time_sleep 1 interrupted ;; wait_until_finished rest
      else ret tt
  end.

Record iter_env : Type := mkIterEnv {
  stage : stage_env;
  play : play_env;
  polls : list (run_outcome * bool)
}.

(** The [try: ... finally: ...] statement around [play_file]. *)
Definition play_and_cleanup (env : iter_env) (temp_path : string) : M unit :=
  try_finally
    (ok <- play_file (play env) temp_path ;;
     if negb ok then os_remove temp_path          (* continue *)
     else
       wait_until_finished (polls env) ;;
       print ("Finished." ++ nl))
    (remove_ignoring_OSError temp_path).

Definition iteration (env : iter_env) (song : string) : M unit :=
  print ("Now playing: " ++ Path.basename song) ;;
  temp_path <- copy_to_temp_md5 (stage env) song ;;
  match temp_path with
  | None => print "Skipping due to copy error."      (* continue *)
  | Some temp_path => play_and_cleanup env temp_path
  end.

Fixpoint for_songs (songs : list string) (envs : list iter_env) : M unit :=
  match songs with
  | [] => ret tt
  | song :: rest =>
      match envs with
      | [] => pending
      | env :: envs' => iteration env song ;; for_songs rest envs'
      end
  end.

Record pass_env : Type := mkPassEnv {
  shuffle : list string -> list string;
  tracks : list iter_env
}.

Fixpoint while_True (songs : list string) (passes : list pass_env) : M unit :=
  match passes with
  | [] => pending
  | p :: rest =>
      let songs := shuffle p songs in
      for_songs songs (tracks p) ;;
      while_True songs rest
  end.

Record startup_env : Type := mkStartupEnv {
  walk : list walk_item;        (* what [os.walk(folder)] yields *)
  stop_on_interrupt : run_outcome;   (* the [stop] command of the interrupt handler *)
  stop_at_exit : run_outcome         (* the [stop] command of the exit handler *)
}.

(** [main] up to the loop: the checks, and the songs found. *)
Definition startup (argv : list string) (env : startup_env) : M (list string) :=
  when (negb (length argv =? 2)%nat)
       (print ("Usage: " ++ nth 0 argv "" ++ " <folder_path>") ;; sys_exit 1) ;;
  let folder := nth 1 argv "" in
  isdir <- os_path_isdir folder ;;
  when (negb isdir)
       (print ("Error: '" ++ folder ++ "' is not a valid directory.") ;; sys_exit 1) ;;
  modify (fun w => with_atexit (atexit w ++ [stop_music_handler]) w) ;;
  let songs := gather_music_files (walk env) in
  when (match songs with [] => true | _ => false end)
       (print ("No supported music files found in '" ++ folder ++ "'.") ;; sys_exit 1) ;;
  print ("Found " ++ pretty (length songs)
           ++ " music file(s). Starting shuffled playback...") ;;
  print ("Press Ctrl+C to stop." ++ nl) ;;
  ret songs.

(** The [try: while True: ... except KeyboardInterrupt: ...] of [main]. *)
Definition playback (env : startup_env) (songs : list string) (passes : list pass_env)
  : M unit :=
  try_except
    (while_True songs passes)
    (fun e =>
       match e with
       | KeyboardInterrupt =>
           Some (print (nl ++ "KeyboardInterrupt received. Stopping playback...") ;;
                 stop_music (stop_on_interrupt env) ;;
                 sys_exit 0)
       | _ => None
       end).

Definition main (argv : list string) (env : startup_env) (passes : list pass_env)
  : M unit :=
  songs <- startup argv env ;;
  playback env songs passes.

Definition run_handler (env : startup_env) (h : handler) : M unit :=
  match h with
  | stop_music_handler =>
      try_except (stop_music (stop_at_exit env)) (fun _ => Some (ret tt))
  | cleanup_ffplay_handler => ret tt
  end.

Definition program (argv : list string) (env : startup_env) (passes : list pass_env)
           (w : world) : option Z * world :=
  match main argv env passes w with
  | (Pending, w') => (None, w')
  | (r, w') =>
      (exit_status r,
       snd (fold_right (fun h k => run_handler env h ;; k) (ret tt) (rev (atexit w')) w'))
  end.

End Termux.

(* ================================================================== *)
(** ** Vocabulary of the statements *)
(* ================================================================== *)

Inductive script : Type :=
| ffplay
| termux.

(** [copy_to_temp_md5] of either script. *)
Definition copy_to_temp_md5 (s : script) : stage_env -> string -> M (option string) :=
  match s with
  | ffplay => Ffplay.copy_to_temp_md5
  | termux => Termux.copy_to_temp_md5
  end.

(** A string made of dots only (the empty one included). *)
Fixpoint all_dots (s : string) : bool :=
  match s with
  | EmptyString => true
  | String a s' => Ascii.eqb a Path.extsep && all_dots s'
  end.

(** [dest_path] and the scratch file's path inside [copy_to_temp_md5]. *)
Definition dest_path (w : world) (original_path : string) : string :=
  Path.join (tempdir w) (desired_name original_path).

Definition scratch_path (w : world) (r : string) (original_path : string) : string :=
  Path.join (tempdir w)
            ("tmp" ++ r ++ snd (Path.splitext (Path.basename original_path))).

(** The walk with every file called [name] taken out. *)
Definition without_name (name : string) (walk : list walk_item) : list walk_item :=
  map (fun item : walk_item =>
         let '(root, dirnames, filenames) := item in
         (root, dirnames, List.filter (fun n => negb (String.eqb n name)) filenames))
      walk.

(** The reading of the staged name with a lower-cased extension. *)
Definition staged_name_lowercased (original_path : string) : Prop :=
  let name := Path.basename original_path in
  is_music name = true ->
  desired_name original_path
  = MD5.hexdigest (fst (Path.splitext name)) ++ Path.lower (snd (Path.splitext name)).

(** The test suite of RFC 1321 (appendix A.5): messages and their MD5
    digests in hexadecimal. *)
Definition rfc1321_test_suite : list (string * string) :=
  [("", "d41d8cd98f00b204e9800998ecf8427e");
   ("a", "0cc175b9c0f1b6a831c399e269772661");
   ("abc", "900150983cd24fb0d6963f7d28e17f72");
   ("message digest", "f96b697d7cb7938d525a2f31aaf161d0");
   ("abcdefghijklmnopqrstuvwxyz", "c3fcd3d76192e4007dfb496cca67e13b");
   ("ABCDEFGHIJKLMNOPQRSTUVWXYZabcdefghijklmnopqrstuvwxyz0123456789",
    "d174ab98d277d9f5a5611c2c9f419d9f");
   ("12345678901234567890123456789012345678901234567890123456789012345678901234567890",
    "57edf4a22be3c955ac49da2e2107b67a")].

(** Only the file system, its history and the local [tmp_path] may differ. *)
Definition same_process (w w' : world) : Prop :=
  trace w' = trace w /\ tempdir w' = tempdir w /\ procs w' = procs w
  /\ ffplay_process w' = ffplay_process w
  /\ atexit w' = atexit w.



(** A small library, and a temp directory that still holds the staged
    copy of [songA.mp3] left by a run that was killed. *)
Definition library : gmap string entry :=
  list_to_map [("/music", Dir);
               ("/music/songA.mp3", File (list_ascii_of_string "ID3-songA-bytes"));
               ("/music/songB.flac", File (list_ascii_of_string "fLaC-songB"));
               ("/tmp", Dir)].

Definition library_stale : gmap string entry :=
  <["/tmp/8fb0aec765227888a14d5426bd526a97.mp3" := File (list_ascii_of_string "ID3-old")]>
    library.

Definition stage_fine : stage_env := mkStageEnv (Some "k3x9_q2a") 4 None.
Definition stage_disk_full : stage_env := mkStageEnv (Some "k3x9_q2a") 4 (Some 1%nat).

(** No Ctrl+C during this play: either the player could not be started
    (with an ordinary exception) or it ran and exited by itself. *)
Definition no_interrupt (env : Ffplay.play_env) : bool :=
  match Ffplay.spawn_error env with
  | Some e => is_Exception e
  | None => match Ffplay.wait_result env with Some _ => true | None => false end
  end.

(** Starting a player on a file. *)
Definition is_play_event (e : event) : bool :=
  match e with
  | Spawn _ => true
  | Run ("termux-media-player" :: "play" :: _) => true
  | _ => false
  end.

Definition nothing_staged_or_played (w : world) : Prop :=
  hist w = [] /\ forallb (fun e => negb (is_play_event e)) (trace w) = true.

(** The world after some lines were printed, on standard output or on
    standard error. *)
Definition with_prints (lines : list string) (w : world) : world :=
  fold_left (fun v line => with_event (Print line) v) lines w.

Definition with_eprints (lines : list string) (w : world) : world :=
  fold_left (fun v line => with_event (PrintErr line) v) lines w.

(** No song in what the walk yields: no filename passes the allow-list. *)
Definition no_music (walk : list walk_item) : Prop :=
  forall root dirnames filenames name,
    In (root, dirnames, filenames) walk -> In name filenames -> is_music name = false.

(** Start-up environments for the examples. *)
Definition walk_music : list walk_item :=
  [("/music", [], ["songA.mp3"; "songB.flac"; "notes.txt"])].

Definition walk_no_music : list walk_item :=
  [("/music", ["covers"], ["notes.txt"; ".mp3"]); ("/music/covers", [], ["front.jpg"])].

Definition ffplay_installed : Ffplay.startup_env :=
  Ffplay.mkStartupEnv "linux" ["ffplay"; "apt"] walk_music.

Definition ffplay_absent : Ffplay.startup_env :=
  Ffplay.mkStartupEnv "linux" ["apt"] walk_music.

Definition termux_installed : Termux.startup_env :=
  Termux.mkStartupEnv walk_music (Termux.Returns 0 "") (Termux.Returns 0 "").

(** No [termux-media-player] on the device: every command is not found. *)
Definition termux_absent : Termux.startup_env :=
  Termux.mkStartupEnv walk_music Termux.NotFound Termux.NotFound.

Definition termux_empty_library : Termux.startup_env :=
  Termux.mkStartupEnv walk_no_music (Termux.Returns 0 "") (Termux.Returns 0 "").

(** Asking a child process to stop, waiting for it, killing it. *)
Definition is_kill_event (e : event) : bool :=
  match e with
  | Terminate _ | WaitTimeout _ _ | Kill _ => true
  | _ => false
  end.

Definition ffplay_cmd (filepath : string) : list string :=
  ["ffplay"; "-nodisp"; "-autoexit"; "-loglevel"; "quiet"; "-hide_banner"; "-i"; filepath].

(** The commands of the termux script. *)
Definition stop_cmd : list string := ["termux-media-player"; "stop"].
Definition info_cmd : list string := ["termux-media-player"; "info"].

(** What one call of [stop_music] sends out: the [stop] command, or,
    when the executable is missing, the line its handler prints. *)
Definition stop_attempt (o : Termux.run_outcome) : event :=
  match o with
  | Termux.NotFound => Print ("Error while stopping music: " ++ exn_text FileNotFoundError)
  | _ => Run stop_cmd
  end.

(** The commands sent to [termux-media-player], in order. *)
Definition commands_sent (w : world) : list (list string) :=
  flat_map (fun e => match e with Run cmd => [cmd] | _ => [] end) (trace w).

(** A name of ASCII characters only: [encode('utf-8')] and [print]
    accept it. *)
Fixpoint ascii_name (s : string) : bool :=
  match s with
  | EmptyString => true
  | String a s' => (nat_of_ascii a <? 128)%nat && ascii_name s'
  end.

(** The songs are ASCII names and every pass shuffles them: it reorders
    the list and nothing else. *)
Definition ascii_names (songs : list string) : Prop :=
  Forall (fun song => ascii_name song = true) songs.

Definition ffplay_shuffles (passes : list Ffplay.pass_env) : Prop :=
  Forall (fun p => forall songs, Ffplay.shuffle p songs ≡ₚ songs) passes.

Definition termux_shuffles (passes : list Termux.pass_env) : Prop :=
  Forall (fun p => forall songs, Termux.shuffle p songs ≡ₚ songs) passes.

(** No Ctrl+C in the whole script of passes. *)
Definition no_interrupts (passes : list Ffplay.pass_env) : Prop :=
  Forall (fun p => Forall (fun it => no_interrupt (Ffplay.play it) = true)
                          (Ffplay.tracks p)) passes.

(** The player plays the first track to its end; when the second is due
    the executable is gone. *)
Definition ffplay_player_disappears : list Ffplay.pass_env :=
  [Ffplay.mkPassEnv id
     [Ffplay.mkIterEnv stage_fine (Ffplay.mkPlayEnv None (Some 0) None (Some true) false);
      Ffplay.mkIterEnv stage_fine
        (Ffplay.mkPlayEnv (Some FileNotFoundError) None None (Some true) false)]].

(** Scripts of the environment for the examples. *)
Definition ffplay_interrupted_pass : list Ffplay.pass_env :=
  [Ffplay.mkPassEnv id
     [Ffplay.mkIterEnv stage_fine (Ffplay.mkPlayEnv None None None (Some false) false)]].

(** The first [info] shows a track; Ctrl+C arrives during the sleep. *)
Definition termux_interrupted_pass : list Termux.pass_env :=
  [Termux.mkPassEnv id
     [Termux.mkIterEnv stage_fine
        (Termux.mkPlayEnv (Termux.Returns 0 "") false)
        [(Termux.Returns 0 "Track: 8fb0aec765227888a14d5426bd526a97.mp3", true)]]].

(** The [stop] command fails both in the interrupt handler and at exit. *)
Definition termux_stop_fails : Termux.startup_env :=
  Termux.mkStartupEnv walk_music (Termux.Returns 1 "") (Termux.Returns 1 "").

(** The loop has announced this song. *)
Definition announced (name : string) (w : world) : bool :=
  existsb (fun e => match e with
                    | Print text => String.eqb text ("Now playing: " ++ name)
                    | _ => false
                    end) (trace w).

(** The player rejects the track (exit status 1) after the staged file
    was taken away; the second track would play normally. *)
Definition termux_rejected_and_unlinked : Termux.iter_env :=
  Termux.mkIterEnv stage_fine (Termux.mkPlayEnv (Termux.Returns 1 "") true) [].

Definition termux_rejected : Termux.iter_env :=
  Termux.mkIterEnv stage_fine (Termux.mkPlayEnv (Termux.Returns 1 "") false) [].

Definition termux_plays : Termux.iter_env :=
  Termux.mkIterEnv stage_fine (Termux.mkPlayEnv (Termux.Returns 0 "") false)
                   [(Termux.Returns 0 "No track currently!", false)].

Definition ffplay_rejected_and_unlinked : Ffplay.iter_env :=
  Ffplay.mkIterEnv stage_fine (Ffplay.mkPlayEnv None (Some 1) None (Some false) true).

(** The staged path of [songA.mp3] is taken by a directory. *)
Definition library_dest_is_dir : gmap string entry :=
  <["/tmp/8fb0aec765227888a14d5426bd526a97.mp3" := Dir]> library.

(** What [os.path.join] puts before every relative name. *)
Definition join_prefix (dir : string) : string :=
  if String.eqb dir "" || Path.endswith Path.sep dir then dir
  else dir ++ String Path.sep "".


(** At the staged path a file system shows what was there before ([old])
    or nothing. *)
Definition shows_old_or_nothing (dest : string) (old : option entry)
           (snap : gmap string entry) : Prop :=
  snap !! dest = old \/ snap !! dest = None.

(** From [w] to [w'] every new snapshot, and the file system reached,
    show the old entry or nothing at the staged path. *)
Definition quiet_run (dest : string) (old : option entry) (w w' : world) : Prop :=
  exists steps : list (gmap string entry),
    hist w' = (hist w ++ steps)%list
    /\ Forall (shows_old_or_nothing dest old) steps
    /\ shows_old_or_nothing dest old (fs w').

(** A statement that never publishes at the staged path. *)
Definition Quiet {A} (dest : string) (old : option entry) (m : M A) : Prop :=
  forall w : world,
    shows_old_or_nothing dest old (fs w) -> quiet_run dest old w (snd (m w)).

(* ================================================================== *)
(** ** Vocabulary of the further properties *)
(* ================================================================== *)

(** The songs one item of the walk gives: its allow-listed file names,
    each joined to the directory, in the order of the listing. *)
Definition songs_of (item : walk_item) : list string :=
  let '(root, _, filenames) := item in
  map (Path.join root) (List.filter is_music filenames).

(** File names as [os.walk] yields them: no slash inside. *)
Definition plain_names (walk : list walk_item) : Prop :=
  forall root dirnames filenames name,
    In (root, dirnames, filenames) walk -> In name filenames ->
    Path.lacks Path.sep name = true.

(** The line the loop prints before each track. *)
Definition is_announcement (e : event) : bool :=
  match e with
  | Print text => String.prefix "Now playing: " text
  | _ => false
  end.

Definition announcements (w : world) : list event :=
  List.filter is_announcement (trace w).

(** The temp directory is [td], and the local [tmp_path], when bound,
    names a path in [bound]. *)
Definition tmp_ok (td : string) (bound : string -> Prop) (w : world) : Prop :=
  tempdir w = td /\ forall t, tmp_path w = Some t -> bound t.

(** A statement that takes the world from [w] to some [w'] with [R w w'],
    however it ends. *)
Definition Stable {A} (td : string) (bound : string -> Prop)
           (R : world -> world -> Prop) (m : M A) : Prop :=
  forall w : world,
    tmp_ok td bound w -> tmp_ok td bound (snd (m w)) /\ R w (snd (m w)).

(** An event that starts a player names a file in [allowed]. *)
Definition plays_in (allowed : string -> Prop) (e : event) : Prop :=
  match e with
  | Spawn cmd => exists filepath, cmd = ffplay_cmd filepath /\ allowed filepath
  | Run ("termux-media-player" :: "play" :: args) =>
      exists filepath, args = [filepath] /\ allowed filepath
  | _ => True
  end.

(** A relation between worlds kept by every step that writes and plays
    inside [allowed] only and prints no announcement. *)
Record Respects (allowed : string -> Prop) (R : world -> world -> Prop) : Prop :=
  mkRespects {
    respects_refl : forall w, R w w;
    respects_trans : forall w1 w2 w3, R w1 w2 -> R w2 w3 -> R w1 w3;
    respects_fs : forall f w,
        (forall q, ~ allowed q -> f !! q = fs w !! q) -> R w (with_fs f w);
    respects_event : forall e w,
        is_announcement e = false -> plays_in allowed e -> R w (with_event e w);
    respects_tmp_path : forall t w, R w (with_tmp_path t w);
    respects_procs : forall ps w, R w (with_procs ps w);
    respects_ffplay_process : forall h w, R w (with_ffplay_process h w)
  }.

(** The relations used: the announcements made so far, every file
    outside [allowed], the registered exit handlers, the files the
    player was started on. *)
Definition same_announcements (w w' : world) : Prop :=
  announcements w' = announcements w.

Definition same_elsewhere (allowed : string -> Prop) (w w' : world) : Prop :=
  forall q, ~ allowed q -> fs w' !! q = fs w !! q.

Definition same_handlers (w w' : world) : Prop :=
  atexit w' = atexit w.

Definition still_plays_in (allowed : string -> Prop) (w w' : world) : Prop :=
  Forall (plays_in allowed) (trace w) -> Forall (plays_in allowed) (trace w').

(** Paths below the temp directory, as [os.path.join] builds them. *)
Definition in_tempdir (td : string) (q : string) : Prop :=
  String.prefix (join_prefix td) q = true.

(** No child process is referenced by the global or still runs. *)
Definition no_player (w : world) : Prop :=
  ffplay_process w = None /\ Forall (fun st => st <> Running) (procs w).

(** [Popen] fails, if it does, with an ordinary exception or with the
    interrupt, not with [SystemExit]. *)
Definition spawn_error_ordinary (env : Ffplay.play_env) : bool :=
  match Ffplay.spawn_error env with
  | Some (SystemExit _) => false
  | _ => true
  end.

(** A world in which the global holds a child that still runs. *)
Definition with_running_player (w : world) : world :=
  with_ffplay_process (Some (length (procs w))) (with_procs (procs w ++ [Running]) w).

(** One round of [while is_playing(): time.sleep(1)] that goes on: the
    [info] command succeeds and shows a track, the sleep is not cut. *)
Definition still_playing (poll : Termux.run_outcome * bool) : bool :=
  match poll with
  | (Termux.Returns returncode output, interrupted) =>
      (returncode =? 0) && negb (Termux.contains "No track currently" output)
      && negb interrupted
  | _ => false
  end.

(** An [info] command that ends the wait: it fails, or shows no track. *)
Definition reports_end (o : Termux.run_outcome) : bool :=
  match o with
  | Termux.Returns returncode output =>
      negb (returncode =? 0) || Termux.contains "No track currently" output
  | _ => false
  end.

(** Every exception a statement can end with satisfies [P]. *)
Definition Raises {A} (P : exn -> Prop) (m : M A) : Prop :=
  forall (w : world) (e : exn) (w' : world), m w = (Raise e, w') -> P e.

(** Anything but [sys.exit(0)]. *)
Definition not_exit_0 (e : exn) : Prop := e <> SystemExit 0.

(** Ctrl+C does not arrive a second time, while [cleanup_ffplay] waits
    for the player to exit. *)
Definition one_interrupt (env : Ffplay.play_env) : bool :=
  match Ffplay.exits_in_grace env with
  | Some _ => true
  | None => false
  end.

Definition single_interrupts (passes : list Ffplay.pass_env) : Prop :=
  Forall (fun p => Forall (fun it => one_interrupt (Ffplay.play it) = true)
                          (Ffplay.tracks p)) passes.

Definition spawn_errors_ordinary (passes : list Ffplay.pass_env) : Prop :=
  Forall (fun p => Forall (fun it => spawn_error_ordinary (Ffplay.play it) = true)
                          (Ffplay.tracks p)) passes.

(** No child process still runs. *)
Definition none_running (w : world) : Prop :=
  Forall (fun st => st <> Running) (procs w).


(* ================================================================== *)
(** ** Facts about strings and paths *)
(* ================================================================== *)

Section PathFacts.
Import Path.

Lemma string_app_cons (a : ascii) (s1 s2 : string) :
  String a s1 ++ s2 = String a (s1 ++ s2).
Proof. reflexivity. Qed.

Lemma string_app_nil (s : string) : "" ++ s = s.
Proof. reflexivity. Qed.

Lemma string_take_app (s1 s2 : string) :
  take (String.length s1) (s1 ++ s2) = s1.
Proof.
  induction s1 as [|a s1 IH]; [by destruct s2|].
  rewrite string_app_cons. simpl. by rewrite IH.
Qed.

Lemma string_drop_app (s1 s2 : string) :
  drop (String.length s1) (s1 ++ s2) = s2.
Proof. induction s1 as [|a s1 IH]; [done|]. rewrite string_app_cons. by simpl. Qed.

Lemma rfind_from_app (c : ascii) (s1 s2 : string) (i last : Z) :
  rfind_from c (s1 ++ s2) i last
  = rfind_from c s2 (i + Z.of_nat (String.length s1)) (rfind_from c s1 i last).
Proof.
  revert i last. induction s1 as [|a s1 IH]; intros i last.
  - rewrite string_app_nil. simpl. f_equal. lia.
  - rewrite string_app_cons. simpl. rewrite IH. f_equal. lia.
Qed.

Lemma rfind_from_lacks (c : ascii) (s : string) (i last : Z) :
  lacks c s = true -> rfind_from c s i last = last.
Proof.
  revert i last. induction s as [|a s IH]; intros i last H; simpl in *; [done|].
  apply andb_true_iff in H as [Ha Hs]. apply negb_true_iff in Ha.
  rewrite Ha. by apply IH.
Qed.

Lemma rfind_from_endswith (c : ascii) (s : string) (i last : Z) :
  endswith c s = true ->
  rfind_from c s i last = i + Z.of_nat (String.length s) - 1.
Proof.
  revert i last. induction s as [|a s IH]; intros i last H; [done|].
  destruct s as [|b s].
  - simpl in *. rewrite H. lia.
  - change (endswith c (String a (String b s))) with (endswith c (String b s)) in H.
    change (rfind_from c (String a (String b s)) i last)
      with (rfind_from c (String b s) (i + 1) (if Ascii.eqb a c then i else last)).
    rewrite IH by done. simpl String.length. lia.
Qed.

Lemma lacks_not_startswith (c : ascii) (s : string) :
  lacks c s = true -> startswith c s = false.
Proof.
  destruct s as [|a s]; simpl; [done|].
  intros H. apply andb_true_iff in H as [Ha _]. by apply negb_true_iff in Ha.
Qed.

(** [os.path.basename(os.path.join(dir, name)) == name] for a name
    without a slash. *)
Lemma basename_join (dir name : string) :
  lacks sep name = true -> basename (join dir name) = name.
Proof.
  intros Hname. unfold join. rewrite (lacks_not_startswith _ _ Hname).
  unfold basename, rfind, slice_from.
  destruct (String.eqb dir "" || endswith sep dir) eqn:Hd.
  - rewrite rfind_from_app, (rfind_from_lacks _ _ _ _ Hname).
    apply orb_true_iff in Hd as [Hd|Hd].
    + apply String.eqb_eq in Hd. subst dir. by rewrite string_app_nil.
    + rewrite (rfind_from_endswith _ _ _ _ Hd).
      replace (Z.to_nat (0 + Z.of_nat (String.length dir) - 1 + 1))
        with (String.length dir) by lia.
      apply string_drop_app.
  - change (dir ++ String sep name) with (dir ++ (String sep "" ++ name)).
    rewrite !rfind_from_app, (rfind_from_lacks _ _ _ _ Hname).
    simpl rfind_from.
    replace (Z.to_nat (0 + Z.of_nat (String.length dir) + 1))
        with (S (String.length dir)) by lia.
    clear. induction dir as [|a dir IH]; [done|]. rewrite string_app_cons. by simpl.
Qed.

Lemma lacks_app (c : ascii) (s1 s2 : string) :
  lacks c (s1 ++ s2) = lacks c s1 && lacks c s2.
Proof.
  induction s1 as [|a s1 IH]; [done|].
  rewrite string_app_cons. simpl. by rewrite IH, andb_assoc.
Qed.

Lemma string_app_assoc (s1 s2 s3 : string) : (s1 ++ s2) ++ s3 = s1 ++ (s2 ++ s3).
Proof. induction s1 as [|a s1 IH]; [done|]. rewrite !string_app_cons. by rewrite IH. Qed.

Lemma string_length_app (s1 s2 : string) :
  String.length (s1 ++ s2) = (String.length s1 + String.length s2)%nat.
Proof. induction s1 as [|a s1 IH]; [done|]. rewrite string_app_cons. simpl. by rewrite IH. Qed.

Lemma skip_leading_dots_found (stem : string) :
  forall pre rest : string,
    all_dots stem = false ->
    let p := pre ++ stem ++ rest in
    let dotIndex := Z.of_nat (String.length pre + String.length stem) in
    skip_leading_dots p dotIndex (Z.of_nat (String.length pre)) (String.length stem)
    = (slice_to dotIndex p, slice_from dotIndex p).
Proof.
  induction stem as [|a stem IH]; intros pre rest Hd; [done|].
  cbn zeta. simpl String.length. simpl skip_leading_dots.
  replace (Z.of_nat (String.length pre) <?
           Z.of_nat (String.length pre + S (String.length stem))) with true
    by (symmetry; apply Z.ltb_lt; lia).
  unfold slice1, slice_from at 1. rewrite Nat2Z.id, string_drop_app.
  simpl take. simpl in Hd.
  destruct (Ascii.eqb a extsep) eqn:Ha.
  - apply Ascii.eqb_eq in Ha. subst a. simpl in Hd. simpl negb.
    specialize (IH (pre ++ String extsep "") rest Hd). cbn zeta in IH.
    rewrite string_length_app in IH. simpl String.length in IH.
    rewrite !string_app_assoc in IH. simpl append in IH.
    replace (String.length pre + 1 + String.length stem)%nat
      with (String.length pre + S (String.length stem))%nat in IH by lia.
    replace (Z.of_nat (String.length pre) + 1)
      with (Z.of_nat (String.length pre + 1)) by lia.
    exact IH.
  - replace (String.eqb (String a "") (String extsep "")) with false; [done|].
    symmetry. apply String.eqb_neq. intros [= ->]. by rewrite Ascii.eqb_refl in Ha.
Qed.

(** [os.path.splitext(stem + "." + x) == (stem, "." + x)] when [x] has
    no dot, the name has no slash and [stem] is not made of dots only. *)
Lemma splitext_stem_ext (stem x : string) :
  lacks sep stem = true -> lacks sep x = true -> lacks extsep x = true ->
  all_dots stem = false ->
  splitext (stem ++ String extsep x) = (stem, String extsep x).
Proof.
  intros Hs Hsx Hx Hd. unfold splitext, rfind.
  rewrite (rfind_from_lacks sep) by (rewrite lacks_app, Hs; simpl; by rewrite Hsx).
  rewrite rfind_from_app. simpl rfind_from.
  rewrite (rfind_from_lacks extsep x) by done.
  replace (0 + Z.of_nat (String.length stem) >? -1) with true
    by (symmetry; apply Z.gtb_lt; lia).
  cbn zeta.
  replace (Z.to_nat (0 + Z.of_nat (String.length stem) - (-1 + 1)))
    with (String.length stem) by lia.
  pose proof (skip_leading_dots_found stem "" (String extsep x) Hd) as H.
  cbn zeta in H. rewrite string_app_nil in H. simpl String.length in H.
  rewrite Nat.add_0_l in H. change (Z.of_nat 0) with 0 in H.
  replace (0 + Z.of_nat (String.length stem)) with (Z.of_nat (String.length stem)) by lia.
  change (-1 + 1) with 0.
  rewrite H. unfold slice_to, slice_from. rewrite Nat2Z.id.
  by rewrite string_take_app, string_drop_app.
Qed.

Lemma desired_name_join (dir stem x : string) :
  lacks sep stem = true -> lacks sep x = true -> lacks extsep x = true ->
  all_dots stem = false ->
  desired_name (join dir (stem ++ String extsep x))
  = MD5.hexdigest stem ++ String extsep x.
Proof.
  intros Hs Hsx Hx Hd. unfold desired_name.
  rewrite basename_join by (rewrite lacks_app, Hs; simpl; by rewrite Hsx).
  by rewrite splitext_stem_ext.
Qed.
End PathFacts.

(* ================================================================== *)
(** ** The scanner and the staged name *)
(* ================================================================== *)

Lemma music_exts_have_no_extension (e : string) :
  In e MUSIC_EXTS -> Path.splitext e = (e, EmptyString).
Proof.
  unfold MUSIC_EXTS. simpl.
  intros H. repeat (destruct H as [<-|H]; [by vm_compute|]). done.
Qed.

Lemma is_music_ext_false (e : string) : In e MUSIC_EXTS -> is_music e = false.
Proof.
  intros H. unfold is_music. by rewrite (music_exts_have_no_extension e H).
Qed.

Lemma gather_names_cons (root name : string) (rest files : list string) :
  gather_names root (name :: rest) files
  = if is_music name
    then gather_names root rest (files ++ [Path.join root name])
    else gather_names root rest files.
Proof. reflexivity. Qed.

Lemma gather_names_without (e root : string) (filenames files : list string) :
  is_music e = false ->
  gather_names root filenames files
  = gather_names root (List.filter (fun n => negb (String.eqb n e)) filenames) files.
Proof.
  intros He. revert files.
  induction filenames as [|name rest IH]; intros files; [done|].
  rewrite gather_names_cons.
  change (List.filter _ (name :: rest))
    with (if negb (String.eqb name e)
          then name :: List.filter (fun n => negb (String.eqb n e)) rest
          else List.filter (fun n => negb (String.eqb n e)) rest).
  destruct (String.eqb name e) eqn:Hn; simpl negb; cbv iota.
  - apply String.eqb_eq in Hn. subst name. rewrite He. apply IH.
  - rewrite gather_names_cons. destruct (is_music name); apply IH.
Qed.

Lemma gather_walk_without (e : string) (walk : list walk_item) (files : list string) :
  is_music e = false ->
  gather_walk walk files = gather_walk (without_name e walk) files.
Proof.
  intros He. revert files.
  induction walk as [|[[root dirnames] filenames] rest IH]; intros files; [done|].
  simpl. rewrite <- (gather_names_without e root filenames files He). apply IH.
Qed.

(** C10. A file whose whole name is a dot followed by an allow-listed
    extension (".mp3", ".flac", ...) has an empty extension for
    [os.path.splitext], fails the allow-list test, and the scanner
    returns what it would return if no such file were there. *)
Theorem dot_extension_file_not_scanned (e : string) (walk : list walk_item) :
  In e MUSIC_EXTS ->
  snd (Path.splitext e) = EmptyString
  /\ is_music e = false
  /\ (forall root dirnames, gather_music_files [(root, dirnames, [e])] = [])
  /\ gather_music_files walk = gather_music_files (without_name e walk).
Proof.
  intros He. pose proof (is_music_ext_false e He) as Hm.
  split; [by rewrite (music_exts_have_no_extension e He)|].
  split; [done|]. split.
  - intros root dirnames. unfold gather_music_files.
    change (gather_walk [(root, dirnames, [e])] []) with (gather_names root [e] []).
    by rewrite gather_names_cons, Hm.
  - by apply gather_walk_without.
Qed.

Lemma dot_extension_file_not_scanned_witness :
  In ".mp3" MUSIC_EXTS
  /\ gather_music_files [("/music", [], [".mp3"; "songA.mp3"])] = ["/music/songA.mp3"]
  /\ gather_music_files [("/music", [], [".mp3"; "songA.mp3"])]
     = gather_music_files (without_name ".mp3" [("/music", [], [".mp3"; "songA.mp3"])]).
Proof.
  split; [simpl; tauto|]. split; [reflexivity|].
  apply (dot_extension_file_not_scanned ".mp3" [("/music", [], [".mp3"; "songA.mp3"])]).
  simpl; tauto.
Defined.

Lemma rfind_from_ge (c : ascii) (s : string) :
  forall i last : Z, last <= i -> last <= Path.rfind_from c s i last.
Proof.
  induction s as [|a s IH]; intros i last H; simpl; [lia|].
  destruct (Ascii.eqb a c).
  - etransitivity; [exact H|]. apply IH. lia.
  - apply IH. lia.
Qed.

Lemma splitext_no_dot (name : string) :
  Path.lacks Path.extsep name = true -> Path.splitext name = (name, EmptyString).
Proof.
  intros H. unfold Path.splitext, Path.rfind.
  rewrite (rfind_from_lacks Path.extsep) by done.
  pose proof (rfind_from_ge Path.sep name 0 (-1) ltac:(lia)) as Hge.
  replace (-1 >? Path.rfind_from Path.sep name 0 (-1)) with false; [done|].
  symmetry. rewrite Z.gtb_ltb. apply Z.ltb_ge. exact Hge.
Qed.

Lemma app_empty_r (s : string) : s ++ EmptyString = s.
Proof. induction s as [|a s IH]; [done|]. by rewrite string_app_cons, IH. Qed.

Lemma desired_name_of_base (dir name : string) :
  Path.lacks Path.sep name = true ->
  desired_name (Path.join dir name)
  = MD5.hexdigest (fst (Path.splitext name)) ++ snd (Path.splitext name).
Proof.
  intros Hname. unfold desired_name. rewrite basename_join by done.
  by destruct (Path.splitext name).
Qed.

Lemma desired_name_no_dot (dir name : string) :
  Path.lacks Path.sep name = true ->
  Path.lacks Path.extsep name = true ->
  desired_name (Path.join dir name) = MD5.hexdigest name.
Proof.
  intros Hname Hdot. rewrite desired_name_of_base, splitext_no_dot by done.
  apply app_empty_r.
Qed.

(** C3. The staged name depends on the base filename only: from any
    directory, and at every call, it is the MD5 hex digest of the base
    name without its extension followed by the extension, where the
    extension of [stem.x] is [.x], dot included, and a name without a dot
    has none.  The digest is the one of RFC 1321: a file named as a
    message of its test suite, with or without an extension, is staged
    under the digest the RFC gives for that message. *)
Theorem desired_name_pure (dir1 dir2 name : string) :
  Path.lacks Path.sep name = true ->
  desired_name (Path.join dir1 name)
  = MD5.hexdigest (fst (Path.splitext name)) ++ snd (Path.splitext name)
  /\ desired_name (Path.join dir1 name) = desired_name (Path.join dir2 name)
  /\ (forall stem x,
         name = stem ++ String Path.extsep x ->
         Path.lacks Path.extsep x = true ->
         all_dots stem = false ->
         desired_name (Path.join dir1 name) = MD5.hexdigest stem ++ String Path.extsep x)
  /\ (Path.lacks Path.extsep name = true ->
      desired_name (Path.join dir1 name) = MD5.hexdigest name)
  /\ Forall (fun known : string * string =>
               desired_name (Path.join dir1 (fst known)) = snd known
               /\ (fst known <> "" ->
                   desired_name (Path.join dir1 (fst known ++ ".mp3"))
                   = snd known ++ ".mp3"))
            rfc1321_test_suite.
Proof.
  intros Hname.
  pose proof (desired_name_of_base dir1 name Hname) as Hd1.
  pose proof (desired_name_of_base dir2 name Hname) as Hd2.
  split; [exact Hd1|]. split; [by rewrite Hd1, Hd2|]. split; [|split].
  - intros stem x -> Hx Hdots.
    rewrite lacks_app in Hname. apply andb_true_iff in Hname as [Hs Hsx].
    simpl in Hsx. by apply desired_name_join.
  - intros Hdot. by apply desired_name_no_dot.
  - unfold rfc1321_test_suite.
    repeat (apply List.Forall_cons;
            [cbn [fst snd]; split;
             [rewrite desired_name_no_dot by reflexivity; vm_compute; reflexivity
             |intros Hne;
              first [by destruct Hne
                    |rewrite desired_name_of_base by reflexivity;
                     vm_compute; reflexivity]]|]).
    apply List.Forall_nil.
Qed.

Lemma desired_name_pure_witness :
  desired_name "/music/rock/songA.mp3" = "8fb0aec765227888a14d5426bd526a97.mp3"
  /\ desired_name "/music/rock/songA.mp3" = desired_name "/backup/songA.mp3"
  /\ desired_name "/music/rock/abc" = "900150983cd24fb0d6963f7d28e17f72"
  /\ desired_name "/music/rock/message digest.mp3"
     = "f96b697d7cb7938d525a2f31aaf161d0.mp3".
Proof.
  destruct (desired_name_pure "/music/rock" "/backup" "songA.mp3" eq_refl)
    as (_ & Hdir & Hext & _ & Hknown).
  split; [exact (Hext "songA" "mp3" eq_refl eq_refl eq_refl)|].
  split; [exact Hdir|].
  apply Forall_cons_1 in Hknown as [_ Hknown].
  apply Forall_cons_1 in Hknown as [_ Hknown].
  apply Forall_cons_1 in Hknown as [[Habc _] Hknown].
  apply Forall_cons_1 in Hknown as [[_ Hmd] _].
  split; [exact Habc|]. apply Hmd. discriminate.
Defined.

(** C8 as stated fails: [Song.MP3] passes the filter and is staged under
    a name that ends in [.MP3]. *)
Lemma staged_name_not_lowercased : ~ staged_name_lowercased "/music/Song.MP3".
Proof.
  unfold staged_name_lowercased. intros H.
  specialize (H eq_refl). vm_compute in H. discriminate H.
Qed.

(** C8, amended. The lower-cased extension decides the filter; the staged
    name is the digest followed by the extension as it is written in the
    source filename, so it ends in the lower-cased extension only when
    the extension was lower case already. *)
Theorem staged_name_keeps_extension (original_path : string) :
  let name := Path.basename original_path in
  let stem := fst (Path.splitext name) in
  let ext := snd (Path.splitext name) in
  is_music name = mem_string (Path.lower ext) MUSIC_EXTS
  /\ desired_name original_path = MD5.hexdigest stem ++ ext
  /\ (desired_name original_path = MD5.hexdigest stem ++ Path.lower ext
      <-> Path.lower ext = ext).
Proof.
  cbn zeta. unfold desired_name, is_music.
  destruct (Path.splitext (Path.basename original_path)) as [stem ext]. simpl.
  split; [done|]. split; [done|]. split.
  - intros H. symmetry. by apply (inj (String.app _)) in H.
  - by intros ->.
Qed.


(* ================================================================== *)
(** ** Staging *)
(* ================================================================== *)

Lemma hex_digit_not_sep (n : Z) : MD5.hex_digit n <> Path.sep.
Proof.
  unfold MD5.hex_digit.
  match goal with |- nth ?i ?l ?d <> _ => destruct (nth_in_or_default i l d) as [H|H] end.
  - intros E. rewrite E in H. simpl in H.
    repeat (destruct H as [H|H]; [discriminate H|]). done.
  - rewrite H. discriminate.
Qed.

Lemma hexdigest_shape (s : string) :
  String.length (MD5.hexdigest s) = 32%nat
  /\ Path.startswith Path.sep (MD5.hexdigest s) = false.
Proof.
  unfold MD5.hexdigest. destruct (MD5.digest (MD5.encode s)) as [[[a b] c] d].
  split; [reflexivity|].
  unfold MD5.hex_state, MD5.hex_word, MD5.hex_byte at 1. simpl Path.startswith.
  apply Ascii.eqb_neq, hex_digit_not_sep.
Qed.

Lemma join_relative (dir name : string) :
  Path.startswith Path.sep name = false ->
  Path.join dir name = join_prefix dir ++ name.
Proof.
  intros H. unfold Path.join, join_prefix. rewrite H.
  destruct (String.eqb dir "" || Path.endswith Path.sep dir); [done|].
  by rewrite string_app_assoc.
Qed.

(** The scratch name, ["tmp"] and eight random characters, is never the
    staged name, thirty-two hex digits, before the same suffix. *)
Lemma scratch_is_not_dest (w : world) (r original_path : string) :
  String.length r = 8%nat ->
  scratch_path w r original_path <> dest_path w original_path.
Proof.
  intros Hr. unfold scratch_path, dest_path, desired_name.
  destruct (Path.splitext (Path.basename original_path)) as [stem ext]. simpl snd.
  destruct (hexdigest_shape stem) as [Hlen Hsep].
  rewrite (join_relative _ ("tmp" ++ r ++ ext)) by done.
  rewrite (join_relative _ (MD5.hexdigest stem ++ ext)).
  2:{ destruct (MD5.hexdigest stem); [discriminate Hlen|done]. }
  intros E. apply (inj (String.app _)) in E.
  apply (f_equal String.length) in E.
  rewrite !string_length_app, Hlen, Hr in E. simpl in E. lia.
Qed.

Lemma file_write_ok (env : stage_env) (p : string) (buf data : list ascii) (k : nat)
      (w : world) :
  write_fail env = None ->
  fs w !! p = Some (File data) ->
  file_write env p buf k w
  = (Ret tt, with_fs (<[p := File (data ++ buf)]> (fs w)) w).
Proof.
  intros Hf Hp. unfold file_write. rewrite Hf.
  rewrite bool_decide_eq_false_2 by done. by rewrite Hp.
Qed.

(** The copy loop ends, leaves the whole source in the scratch file and
    touches no other path on the way. *)
Lemma copy_loop_ok (env : stage_env) (dst : string) :
  write_fail env = None ->
  (0 < bufsize env)%nat ->
  forall (fuel : nat) (src acc : list ascii) (k : nat) (w : world),
    fs w !! dst = Some (File acc) ->
    (length src < fuel)%nat ->
    exists w',
      copy_loop fuel env src dst k w = (Ret tt, w')
      /\ fs w' = <[dst := File (acc ++ src)]> (fs w)
      /\ tmp_path w' = tmp_path w
      /\ same_process w w'
      /\ exists steps : list (gmap string entry),
          hist w' = (hist w ++ steps)%list
          /\ Forall (fun s : gmap string entry => forall q, q <> dst -> s !! q = fs w !! q) steps.
Proof.
  intros Hf Hb. induction fuel as [|fuel IH]; intros src acc k w Hdst Hlen; [lia|].
  simpl copy_loop. destruct src as [|a src].
  - rewrite firstn_nil. exists w. split; [done|]. split.
    + rewrite app_nil_r. symmetry. by apply insert_id.
    + split; [done|]. split; [by repeat split|]. exists []. by rewrite app_nil_r.
  - destruct (bufsize env) as [|n] eqn:Hn; [lia|].
    rewrite firstn_cons. unfold bind.
    rewrite (file_write_ok env dst _ acc k w Hf Hdst).
    set (buf := a :: firstn n src).
    set (w1 := with_fs (<[dst := File (acc ++ buf)]> (fs w)) w).
    destruct (IH (skipn (S n) (a :: src)) (acc ++ buf)%list (S k) w1) as (w' & Hrun & Hfs & Htmp & Hsame & steps & Hhist & Hsteps).
    + subst w1. simpl. apply lookup_insert_eq.
    + rewrite length_skipn. simpl in *. lia.
    + exists w'. split; [exact Hrun|]. split.
      * rewrite Hfs. subst w1. simpl fs. rewrite insert_insert_eq.
        do 2 f_equal. rewrite <- app_assoc. f_equal.
        subst buf. change (a :: firstn n src) with (firstn (S n) (a :: src)).
        apply firstn_skipn.
      * split; [by rewrite Htmp|]. split; [exact Hsame|].
        exists (fs w1 :: steps). split.
        -- rewrite Hhist. subst w1. simpl. by rewrite <- app_assoc.
        -- constructor.
           ++ intros q Hq. subst w1. simpl. by apply lookup_insert_ne.
           ++ eapply Forall_impl; [exact Hsteps|].
              intros s Hs q Hq. rewrite (Hs q Hq). subst w1. simpl.
              by apply lookup_insert_ne.
Qed.

Ltac wsimpl :=
  cbn [fs hist trace tempdir procs ffplay_process tmp_path atexit
       with_fs with_event with_procs with_ffplay_process
       with_tmp_path with_atexit fst snd].
Ltac wsimpl_in H :=
  cbn [fs hist trace tempdir procs ffplay_process tmp_path atexit
       with_fs with_event with_procs with_ffplay_process
       with_tmp_path with_atexit fst snd] in H.

Lemma os_remove_file (p : string) (data : list ascii) (w : world) :
  fs w !! p = Some (File data) ->
  os_remove p w = (Ret tt, with_fs (delete p (fs w)) w).
Proof. intros H. unfold os_remove. by rewrite H. Qed.

Lemma os_remove_missing (p : string) (w : world) :
  fs w !! p = None -> os_remove p w = (Raise FileNotFoundError, w).
Proof. intros H. unfold os_remove. by rewrite H. Qed.

Lemma os_remove_dir (p : string) (w : world) :
  fs w !! p = Some Dir -> os_remove p w = (Raise IsADirectoryError, w).
Proof. intros H. unfold os_remove. by rewrite H. Qed.

Lemma remove_ignoring_OSError_ret (p : string) (w : world) :
  exists w', remove_ignoring_OSError p w = (Ret tt, w')
             /\ fs w' = match fs w !! p with
                        | Some (File _) => delete p (fs w)
                        | _ => fs w
                        end
             /\ trace w' = trace w /\ procs w' = procs w
             /\ ffplay_process w' = ffplay_process w.
Proof.
  unfold remove_ignoring_OSError, try_except, os_remove.
  destruct (fs w !! p) as [[data|]|]; eauto 10.
Qed.

(** The [try:] block on a readable source, a fresh scratch name and a
    staged path that is not a directory. *)
Lemma stage_attempt_ok (env : stage_env) (original_path temp_dir ext dest r : string)
      (data : list ascii) (w : world) :
  rnd env = Some r ->
  write_fail env = None ->
  (0 < bufsize env)%nat ->
  let scratch := Path.join temp_dir ("tmp" ++ r ++ ext) in
  fs w !! scratch = None ->
  fs w !! original_path = Some (File data) ->
  scratch <> dest ->
  fs w !! dest <> Some Dir ->
  exists w',
    stage_attempt env original_path temp_dir ext dest w = (Ret (Some dest), w')
    /\ fs w' = <[dest := File data]> (fs w)
    /\ same_process w w'
    /\ exists before : list (gmap string entry),
        hist w' = (hist w ++ before ++ [fs w'])%list
        /\ Forall (fun s : gmap string entry =>
                     s !! dest = fs w !! dest \/ s !! dest = None) before.
Proof.
  intros Hr Hf Hb scratch Hfresh Hsrc Hne Hdir.
  assert (Hps : original_path <> scratch) by (intros ->; congruence).
  set (w1 := with_fs (<[scratch := File []]> (fs w)) w).
  assert (H1 : NamedTemporaryFile env temp_dir ext w = (Ret scratch, w1)).
  { unfold NamedTemporaryFile. rewrite Hr. fold scratch. by rewrite Hfresh. }
  assert (H2 : open_rb original_path w1 = (Ret data, w1)).
  { unfold open_rb. subst w1. wsimpl. rewrite lookup_insert_ne by done. by rewrite Hsrc. }
  destruct (copy_loop_ok env scratch Hf Hb (S (length data)) data [] 0%nat w1)
    as (w2 & H3 & Hfs2 & Htmp2 & Htr2 & steps & Hhist2 & Hsteps); [by subst w1; wsimpl; apply lookup_insert_eq|lia|].
  simpl app in Hfs2.
  subst w1. wsimpl_in Hfs2. wsimpl_in Hhist2. rewrite insert_insert_eq in Hfs2.
  set (w3 := with_tmp_path (Some scratch) w2).
  assert (Hd3 : fs w3 !! dest = fs w !! dest).
  { subst w3. wsimpl. rewrite Hfs2. by apply lookup_insert_ne. }
  assert (Hs3 : fs w3 !! scratch = Some (File data)).
  { subst w3. wsimpl. rewrite Hfs2. apply lookup_insert_eq. }
  unfold stage_attempt, bind. rewrite H1. cbv beta iota. rewrite H2. cbv beta iota.
  unfold copyfileobj. rewrite H3. cbv beta iota.
  unfold modify. fold w3. unfold os_path_exists, get. cbv beta iota.
  rewrite Hd3.
  destruct (fs w !! dest) as [[old|]|] eqn:Hdest; [|done|].
  - (* a stale file is removed first *)
    unfold when. rewrite (os_remove_file dest old w3) by (by rewrite Hd3).
    cbv beta iota.
    set (w4 := with_fs (delete dest (fs w3)) w3).
    unfold read_tmp_path. replace (tmp_path w4) with (Some scratch) by done.
    cbv beta iota. unfold os_rename.
    replace (fs w4 !! scratch) with (Some (File data))
      by (subst w4; wsimpl; by rewrite lookup_delete_ne).
    replace (fs w4 !! dest) with (@None entry)
      by (subst w4; wsimpl; by rewrite lookup_delete_eq).
    cbv beta iota. unfold ret.
    eexists. split; [reflexivity|]. clear Hd3 Hs3. subst w4 w3. wsimpl.
    assert (Hfinal : <[dest:=File data]> (delete scratch (delete dest (fs w2)))
                     = <[dest:=File data]> (fs w)).
    { rewrite Hfs2. apply map_eq. intros q.
      destruct (decide (q = dest)) as [->|Hq]; [by rewrite !lookup_insert_eq|].
      rewrite !lookup_insert_ne by done.
      destruct (decide (q = scratch)) as [->|Hq'].
      - by rewrite lookup_delete_eq, Hfresh.
      - rewrite lookup_delete_ne, lookup_delete_ne, lookup_insert_ne by done. done. }
    split; [exact Hfinal|]. split; [exact Htr2|].
    exists (<[scratch := File []]> (fs w) :: steps ++ [delete dest (fs w2)])%list. split.
    + rewrite Hhist2, Hfinal. rewrite <- !app_assoc. simpl. by rewrite <- app_assoc.
    + constructor; [left; by rewrite lookup_insert_ne|].
      apply Forall_app. split.
      * eapply Forall_impl; [exact Hsteps|]. intros s Hs. left.
        rewrite (Hs dest) by done. wsimpl. by rewrite lookup_insert_ne.
      * constructor; [|constructor]. right. apply lookup_delete_eq.
  - (* nothing at the staged path *)
    unfold when, ret at 1. cbv beta iota.
    unfold read_tmp_path. replace (tmp_path w3) with (Some scratch) by done.
    cbv beta iota. unfold os_rename. rewrite Hs3.
    replace (fs w3 !! dest) with (@None entry) by done.
    cbv beta iota. unfold ret.
    eexists. split; [reflexivity|]. clear Hd3 Hs3. subst w3. wsimpl.
    assert (Hfinal : <[dest:=File data]> (delete scratch (fs w2))
                     = <[dest:=File data]> (fs w)).
    { rewrite Hfs2. apply map_eq. intros q.
      destruct (decide (q = dest)) as [->|Hq]; [by rewrite !lookup_insert_eq|].
      rewrite !lookup_insert_ne by done.
      destruct (decide (q = scratch)) as [->|Hq'].
      - by rewrite lookup_delete_eq, Hfresh.
      - rewrite lookup_delete_ne, lookup_insert_ne by done. done. }
    split; [exact Hfinal|]. split; [exact Htr2|].
    exists (<[scratch := File []]> (fs w) :: steps)%list. split.
    + rewrite Hhist2, Hfinal. rewrite <- !app_assoc. by simpl.
    + constructor; [left; by rewrite lookup_insert_ne|].
      eapply Forall_impl; [exact Hsteps|]. intros s Hs. left.
      rewrite (Hs dest) by done. wsimpl. by rewrite lookup_insert_ne.
Qed.


(** [copy_to_temp_md5] of either script on a readable source. *)
Lemma copy_to_temp_md5_ok (s : script) (env : stage_env) (original_path r : string)
      (data : list ascii) (w : world) :
  rnd env = Some r ->
  String.length r = 8%nat ->
  write_fail env = None ->
  (0 < bufsize env)%nat ->
  fs w !! scratch_path w r original_path = None ->
  fs w !! original_path = Some (File data) ->
  fs w !! dest_path w original_path <> Some Dir ->
  exists w',
    copy_to_temp_md5 s env original_path w = (Ret (Some (dest_path w original_path)), w')
    /\ fs w' = <[dest_path w original_path := File data]> (fs w)
    /\ same_process w w'
    /\ exists before : list (gmap string entry),
        hist w' = (hist w ++ before ++ [fs w'])%list
        /\ Forall (fun snap : gmap string entry =>
                     snap !! dest_path w original_path = fs w !! dest_path w original_path
                     \/ snap !! dest_path w original_path = None) before.
Proof.
  intros Hr Hlen Hf Hb Hfresh Hsrc Hdir.
  pose proof (scratch_is_not_dest w r original_path Hlen) as Hne.
  unfold scratch_path, dest_path, desired_name in *.
  destruct s; unfold copy_to_temp_md5, Ffplay.copy_to_temp_md5, Termux.copy_to_temp_md5;
    destruct (Path.splitext (Path.basename original_path)) as [stem ext];
    simpl snd in *; unfold bind, modify, get, try_except; cbv beta iota;
    change (tempdir (with_tmp_path None w)) with (tempdir w);
    (destruct (stage_attempt_ok env original_path (tempdir w) ext
                 (Path.join (tempdir w) (MD5.hexdigest stem ++ ext)) r data
                 (with_tmp_path None w) Hr Hf Hb Hfresh Hsrc Hne Hdir)
      as (w' & Hrun & Hfs & Hsame & before & Hhist & Hbefore));
    rewrite Hrun; exists w'; repeat split; try done; try apply Hsame; eauto.
Qed.





(* ================================================================== *)
(** ** The ffplay script: play, clean up, carry on *)
(* ================================================================== *)

Create HintDb py discriminated.
Create HintDb py_ffplay discriminated.
Create HintDb py_termux discriminated.
#[local] Hint Unfold bind ret raise pending modify get print eprint sys_exit
  try_except try_finally when meanwhile_unlink remove_ignoring_OSError
  os_remove os_path_exists os_path_isdir read_tmp_path
  NamedTemporaryFile open_rb copyfileobj os_rename : py.
#[local] Hint Unfold
  Ffplay.play_and_cleanup Ffplay.play_file Ffplay.Popen Ffplay.wait
  Ffplay.cleanup_ffplay Ffplay.set_proc Ffplay.poll Ffplay.terminate
  Ffplay.wait_timeout Ffplay.kill : py_ffplay.
#[local] Hint Unfold
  Termux.play_and_cleanup Termux.play_file Termux.subprocess_run
  Termux.stop_music Termux.is_playing Termux.time_sleep : py_termux.

Ltac reduce_world :=
  cbv beta iota zeta;
  cbn [fs hist trace tempdir procs ffplay_process tmp_path atexit
       with_fs with_event with_procs with_ffplay_process
       with_tmp_path with_atexit fst snd negb andb orb
       is_Exception is_OSError rnd bufsize write_fail
       Ffplay.spawn_error Ffplay.wait_result Ffplay.sigint_exit
       Ffplay.exits_in_grace Ffplay.unlinked Ffplay.stage Ffplay.play
       Termux.play_run Termux.unlinked
       Termux.play Termux.polls Termux.stage].

(** Run the statements as far as the known facts decide them: the
    monad and the system calls only, or the functions of a script too. *)
Ltac run := repeat (progress (autounfold with py; reduce_world)).
Ltac run_ffplay := repeat (progress (autounfold with py py_ffplay; reduce_world)).
Ltac run_termux := repeat (progress (autounfold with py py_termux; reduce_world)).

Lemma lookup_new_proc (ps : list pstate) (st : pstate) :
  (ps ++ [st])%list !! length ps = Some st.
Proof. by rewrite lookup_app_r, Nat.sub_diag. Qed.

Lemma lookup_set_new_proc (ps : list pstate) (st st' : pstate) :
  <[length ps := st']> (ps ++ [st])%list !! length ps = Some st'.
Proof.
  apply list_lookup_insert_eq. rewrite length_app. simpl. lia.
Qed.

Lemma ffplay_play_and_cleanup_outcome (env : Ffplay.play_env) (temp_path : string)
      (w : world) :
  fs w !! temp_path <> Some Dir ->
  ffplay_process w = None ->
  exists w',
    Ffplay.play_and_cleanup env temp_path w
    = (match Ffplay.spawn_error env with
       | Some e => if is_Exception e then Ret tt else Raise e
       | None => match Ffplay.wait_result env with
                 | Some _ => Ret tt
                 | None => Raise KeyboardInterrupt
                 end
       end, w')
    /\ fs w' !! temp_path = None
    /\ ffplay_process w' = None.
Proof.
  intros Hdir Hslot.
  destruct env as [[e|] [rc|] [sx|] grace unl].
  all: try destruct e.
  all: try destruct unl.
  all: try destruct grace as [[|]|].
  all: try destruct (rc =? 0) eqn:Hrc.
  all: run_ffplay.
  all: rewrite ?Hrc, ?Hslot, ?lookup_new_proc, ?lookup_set_new_proc.
  all: run_ffplay.
  all: destruct (fs w !! temp_path) as [[d|]|] eqn:Hl; try done.
  all: repeat (progress (run_ffplay; rewrite ?Hrc, ?lookup_delete_eq, ?Hl,
                                  ?lookup_new_proc, ?lookup_set_new_proc)).
  all: try (eexists; split; [reflexivity|]; run_ffplay; by rewrite ?lookup_delete_eq).
Qed.

Lemma same_process_refl (w : world) : same_process w w.
Proof. by repeat split. Qed.

(** However the copy ends, it ends: with the scratch file still a file
    and every other path untouched. *)
Lemma copy_loop_outcome (env : stage_env) (dst : string) :
  forall (fuel : nat) (src acc : list ascii) (k : nat) (w : world),
    fs w !! dst = Some (File acc) ->
    (length src < fuel)%nat ->
    exists (r : res unit) (w' : world),
      copy_loop fuel env src dst k w = (r, w')
      /\ (r = Ret tt \/ r = Raise OSError)
      /\ (exists acc', fs w' !! dst = Some (File acc'))
      /\ (forall q, q <> dst -> fs w' !! q = fs w !! q)
      /\ tmp_path w' = tmp_path w
      /\ same_process w w'.
Proof.
  induction fuel as [|fuel IH]; intros src acc k w Hdst Hlen; [lia|].
  simpl copy_loop. destruct (firstn (bufsize env) src) as [|a buf] eqn:Hbuf.
  - exists (Ret tt), w. split; [done|]. split; [by left|]. split; [by eauto|].
    split; [done|]. split; [done|]. apply same_process_refl.
  - unfold bind, file_write.
    destruct (bool_decide (write_fail env = Some k)).
    + exists (Raise OSError), w. split; [done|]. split; [by right|]. split; [by eauto|].
      split; [done|]. split; [done|]. apply same_process_refl.
    + rewrite Hdst.
      set (w1 := with_fs (<[dst := File (acc ++ a :: buf)]> (fs w)) w).
      destruct (IH (skipn (bufsize env) src) (acc ++ a :: buf)%list (S k) w1)
        as (r & w' & Hrun & Hr & Hfile & Hother & Htmp & Hsame).
      * subst w1. wsimpl. apply lookup_insert_eq.
      * rewrite length_skipn.
        assert (bufsize env <> 0%nat) by (intros E; by rewrite E in Hbuf).
        assert (length src <> 0%nat) by (destruct src; [by rewrite firstn_nil in Hbuf|done]).
        lia.
      * exists r, w'. split; [exact Hrun|]. split; [exact Hr|]. split; [exact Hfile|].
        split; [|split; [exact Htmp|exact Hsame]].
        intros q Hq. rewrite (Hother q Hq). subst w1. wsimpl.
        by apply lookup_insert_ne.
Qed.


(** Every way the [try:] block of [copy_to_temp_md5] can end. *)
Lemma stage_attempt_outcome (env : stage_env)
      (original_path temp_dir ext dest : string) (w : world) :
  tmp_path w = None ->
  exists (r : res (option string)) (w' : world),
    stage_attempt env original_path temp_dir ext dest w = (r, w')
    /\ same_process w w'
    /\ match r with
       | Ret o => o = Some dest /\ exists d, fs w' !! dest = Some (File d)
       | Raise e =>
           is_Exception e = true
           /\ match tmp_path w' with
              | Some t => fs w' !! t = None \/ exists d, fs w' !! t = Some (File d)
              | None => True
              end
       | Pending => False
       end.
Proof.
  intros Htmp.
  assert (Hunbound : forall (e : exn) (v : world),
             is_Exception e = true -> same_process w v -> tmp_path v = None ->
             exists (r : res (option string)) (w' : world),
               (@Raise (option string) e, v) = (r, w')
               /\ same_process w w'
               /\ match r with
                  | Ret o => o = Some dest /\ exists d, fs w' !! dest = Some (File d)
                  | Raise e =>
                      is_Exception e = true
                      /\ match tmp_path w' with
                         | Some t => fs w' !! t = None \/ exists d, fs w' !! t = Some (File d)
                         | None => True
                         end
                  | Pending => False
                  end).
  { intros e v He Hv Ht. exists (Raise e), v. by rewrite Ht. }
  unfold stage_attempt.
  destruct env as [[r|] n wf]; run; [|by apply Hunbound; [|apply same_process_refl|]].
  set (scratch := Path.join temp_dir ("tmp" ++ r ++ ext)).
  destruct (fs w !! scratch) as [e0|] eqn:Hfresh; run;
    [by apply Hunbound; [|apply same_process_refl|]|].
  set (w1 := with_fs (<[scratch := File []]> (fs w)) w).
  assert (Hs1 : fs w1 !! scratch = Some (File [])) by (subst w1; wsimpl; apply lookup_insert_eq).
  change (<[scratch := File []]> (fs w)) with (fs w1).
  destruct (fs w1 !! original_path) as [[data|]|] eqn:Hsrc; run;
    [|by apply Hunbound; [|repeat split|]..].
  destruct (copy_loop_outcome (mkStageEnv (Some r) n wf) scratch
              (S (length data)) data [] 0%nat w1 Hs1 ltac:(lia))
    as (rc & w2 & Hrun & Hrc & [acc Hfile] & Hother & Htmp2 & Hsame).
  rewrite Hrun. destruct Hrc as [-> | ->]; run;
    [|by apply Hunbound; [|exact Hsame|rewrite Htmp2]].
  destruct (fs w2 !! dest) as [[old|]|] eqn:Hdest; run; rewrite ?Hdest; run.
  - (* a stale file at the staged path is removed first *)
    destruct (decide (scratch = dest)) as [E|E].
    + rewrite E, lookup_delete_eq. run.
      eexists _, _. split; [reflexivity|]. split; [exact Hsame|]. run.
      split; [done|]. left. apply lookup_delete_eq.
    + rewrite lookup_delete_ne, Hfile by done. run. rewrite lookup_delete_eq. run.
      eexists _, _. split; [reflexivity|]. split; [exact Hsame|]. run.
      split; [done|]. eexists. apply lookup_insert_eq.
  - (* the staged path is a directory *)
    eexists _, _. split; [reflexivity|]. split; [exact Hsame|]. run.
    split; [done|]. right. eauto.
  - (* nothing at the staged path *)
    repeat (progress (run; rewrite ?Hdest, ?Hfile)).
    eexists _, _. split; [reflexivity|]. split; [exact Hsame|]. run.
    split; [done|]. eexists. apply lookup_insert_eq.
Qed.

(** In the ffplay script [copy_to_temp_md5] always returns: the staged
    path, or [None]. *)
Lemma ffplay_stage_total (env : stage_env) (original_path : string) (w : world) :
  exists (o : option string) (w' : world),
    Ffplay.copy_to_temp_md5 env original_path w = (Ret o, w')
    /\ ffplay_process w' = ffplay_process w
    /\ forall t, o = Some t -> fs w' !! t <> Some Dir.
Proof.
  unfold Ffplay.copy_to_temp_md5.
  destruct (Path.splitext (Path.basename original_path)) as [stem ext].
  run. set (dest := Path.join (tempdir w) _).
  destruct (stage_attempt_outcome env original_path (tempdir w) ext dest
              (with_tmp_path None w) eq_refl)
    as (r & w1 & Hrun & Hsame & Hr).
  rewrite Hrun. destruct Hsame as (_ & _ & _ & Hslot & _).
  destruct r as [o|e|]; [| |done].
  - destruct Hr as [-> [d Hd]]. exists (Some dest), w1. split; [done|]. split; [done|].
    intros t [= <-]. by rewrite Hd.
  - destruct Hr as [He Ht]. rewrite He. run.
    destruct (tmp_path w1) as [t|] eqn:Htp; run; rewrite ?Htp; run.
    + destruct Ht as [Ht|[d Ht]]; rewrite Ht; run; rewrite ?Htp; run; rewrite ?Ht; run;
        eexists _, _; (split; [reflexivity|]); by split.
    + eexists _, _. split; [reflexivity|]. by split.
Qed.

Lemma ffplay_iteration_carries_on (env : Ffplay.iter_env) (song : string) (w : world) :
  no_interrupt (Ffplay.play env) = true ->
  ffplay_process w = None ->
  exists w', Ffplay.iteration env song w = (Ret tt, w') /\ ffplay_process w' = None.
Proof.
  intros Hq Hslot. unfold Ffplay.iteration. run.
  destruct (ffplay_stage_total (Ffplay.stage env) song
              (with_event (Print ("Now playing: " ++ Path.basename song)) w))
    as (o & w1 & Hrun & Hslot1 & Hfile).
  rewrite Hrun. destruct o as [t|]; run.
  - destruct (ffplay_play_and_cleanup_outcome (Ffplay.play env) t w1)
      as (w2 & Hplay & _ & Hslot2); [by apply Hfile|by rewrite Hslot1|].
    unfold no_interrupt in Hq. exists w2. split; [|done].
    rewrite Hplay.
    destruct (Ffplay.spawn_error (Ffplay.play env)) as [e|]; [by rewrite Hq|].
    by destruct (Ffplay.wait_result (Ffplay.play env)).
  - eexists. split; [reflexivity|]. by rewrite <- Hslot.
Qed.

Lemma ffplay_for_songs_carries_on (songs : list string) :
  forall (envs : list Ffplay.iter_env) (w : world),
    Forall (fun env => no_interrupt (Ffplay.play env) = true) envs ->
    ffplay_process w = None ->
    exists w',
      (Ffplay.for_songs songs envs w = (Ret tt, w') /\ ffplay_process w' = None)
      \/ Ffplay.for_songs songs envs w = (Pending, w').
Proof.
  induction songs as [|song rest IH]; intros envs w Hq Hslot.
  - exists w. by left.
  - destruct envs as [|env envs]; [exists w; by right|].
    inversion Hq as [|? ? Hq1 Hq2]; subst.
    destruct (ffplay_iteration_carries_on env song w Hq1 Hslot) as (w1 & Hrun & Hslot1).
    simpl Ffplay.for_songs. unfold bind. rewrite Hrun.
    apply IH; done.
Qed.

(** Without Ctrl+C the loop of the ffplay script never ends. *)
Lemma ffplay_while_True_pending (passes : list Ffplay.pass_env) :
  forall (songs : list string) (w : world),
    Forall (fun p => Forall (fun env => no_interrupt (Ffplay.play env) = true)
                            (Ffplay.tracks p)) passes ->
    ffplay_process w = None ->
    fst (Ffplay.while_True songs passes w) = Pending.
Proof.
  induction passes as [|p rest IH]; intros songs w Hq Hslot; [done|].
  inversion Hq as [|? ? Hq1 Hq2]; subst.
  simpl Ffplay.while_True. unfold bind at 1.
  destruct (ffplay_for_songs_carries_on (Ffplay.shuffle p songs) (Ffplay.tracks p) w Hq1 Hslot)
    as (w1 & [[Hrun Hslot1] | Hrun]); rewrite Hrun; [|done].
  by apply IH.
Qed.


(* ================================================================== *)
(** ** Start-up *)
(* ================================================================== *)

Lemma gather_names_no_music (root : string) (filenames files : list string) :
  (forall name, In name filenames -> is_music name = false) ->
  gather_names root filenames files = files.
Proof.
  revert files. induction filenames as [|name rest IH]; intros files H; [done|].
  rewrite gather_names_cons, (H name) by (by left).
  apply IH. intros n Hn. apply H. by right.
Qed.

Lemma gather_no_music (walk : list walk_item) :
  no_music walk -> gather_music_files walk = [].
Proof.
  unfold gather_music_files. generalize (@nil string) as files.
  induction walk as [|[[root dirnames] filenames] rest IH]; intros files H; [done|].
  simpl. rewrite gather_names_no_music.
  - apply IH. intros r d f n Hin. apply (H r d f n). by right.
  - intros n Hn. apply (H root dirnames filenames n); [by left|done].
Qed.

Lemma with_prints_fields (lines : list string) (w : world) :
  fs (with_prints lines w) = fs w
  /\ hist (with_prints lines w) = hist w
  /\ trace (with_prints lines w) = (trace w ++ map Print lines)%list
  /\ procs (with_prints lines w) = procs w
  /\ ffplay_process (with_prints lines w) = ffplay_process w
  /\ atexit (with_prints lines w) = atexit w.
Proof.
  revert w. induction lines as [|line rest IH]; intros w.
  - simpl. by rewrite app_nil_r.
  - simpl with_prints. destruct (IH (with_event (Print line) w)) as (-> & -> & -> & -> & -> & ->).
    simpl. by rewrite <- app_assoc.
Qed.

Lemma with_eprints_fields (lines : list string) (w : world) :
  fs (with_eprints lines w) = fs w
  /\ hist (with_eprints lines w) = hist w
  /\ trace (with_eprints lines w) = (trace w ++ map PrintErr lines)%list
  /\ procs (with_eprints lines w) = procs w
  /\ ffplay_process (with_eprints lines w) = ffplay_process w
  /\ atexit (with_eprints lines w) = atexit w.
Proof.
  revert w. induction lines as [|line rest IH]; intros w.
  - simpl. by rewrite app_nil_r.
  - simpl with_eprints.
    destruct (IH (with_event (PrintErr line) w)) as (-> & -> & -> & -> & -> & ->).
    simpl. by rewrite <- app_assoc.
Qed.

Lemma eprint_all (prefix : string) (lines : list string) (w : world) :
  fold_right (fun cmd k => bind (eprint (prefix ++ cmd)) (fun _ => k)) (ret tt) lines w
  = (Ret tt, with_eprints (map (String.append prefix) lines) w).
Proof.
  revert w. induction lines as [|line rest IH]; intros w; [done|].
  simpl. unfold bind at 1, eprint at 1, modify. by rewrite IH.
Qed.

Lemma ffplay_check_found (env : Ffplay.startup_env) (w : world) :
  Ffplay.which env "ffplay" = true -> Ffplay.check_ffplay env w = (Ret tt, w).
Proof. intros H. unfold Ffplay.check_ffplay. by rewrite H. Qed.

(** Without ffplay on the path [check_ffplay] prints on standard error
    and exits with 1. *)
Lemma ffplay_check_missing (env : Ffplay.startup_env) (w : world) :
  Ffplay.which env "ffplay" = false ->
  exists lines, Ffplay.check_ffplay env w = (Raise (SystemExit 1), with_eprints lines w).
Proof.
  intros H. unfold Ffplay.check_ffplay. rewrite H. cbv zeta.
  match goal with
  | |- context [match ?l with [] => _ | _ :: _ => _ end] => generalize l
  end.
  intros suggestions. generalize (eprint_all "  "). run. intros Hall.
  destruct suggestions as [|cmd rest].
  - by exists ["Error: ffplay executable not found in PATH.";
                 "Please ensure ffplay executable is in PATH"].
  - rewrite (Hall (cmd :: rest)).
    by exists ("Error: ffplay executable not found in PATH."
               :: "Please install ffmpeg (which provides ffplay) using one of these commands:"
               :: map (String.append "  ") (cmd :: rest)).
Qed.

Lemma prints_are_not_play (lines : list string) (tr : list event) :
  forallb (fun e => negb (is_play_event e)) (tr ++ map Print lines)
  = forallb (fun e => negb (is_play_event e)) tr.
Proof.
  rewrite forallb_app. induction lines as [|l rest IH]; simpl; [by rewrite andb_true_r|done].
Qed.

Lemma eprints_are_not_play (lines : list string) (tr : list event) :
  forallb (fun e => negb (is_play_event e)) (tr ++ map PrintErr lines)
  = forallb (fun e => negb (is_play_event e)) tr.
Proof.
  rewrite forallb_app. induction lines as [|l rest IH]; simpl; [by rewrite andb_true_r|done].
Qed.

(** Every failed check of the ffplay script ends [startup] with
    [sys.exit(1)], having printed and nothing else. *)
Lemma ffplay_startup_fails (argv : list string) (env : Ffplay.startup_env) (w : world) :
  length argv <> 2%nat
  \/ fs w !! nth 1 argv "" <> Some Dir
  \/ Ffplay.which env "ffplay" = false
  \/ no_music (Ffplay.walk env) ->
  exists (lines : list string) (w' : world),
    Ffplay.startup argv env w = (Raise (SystemExit 1), w')
    /\ fs w' = fs w /\ hist w' = hist w
    /\ (trace w' = (trace w ++ map Print lines)%list
        \/ trace w' = (trace w ++ map PrintErr lines)%list)
    /\ ffplay_process w' = ffplay_process w
    /\ (atexit w' = atexit w \/ atexit w' = (atexit w ++ [cleanup_ffplay_handler])%list).
Proof.
  intros H. unfold Ffplay.startup.
  destruct (length argv =? 2)%nat eqn:Hargc; run.
  2:{ eexists [_], _. split; [reflexivity|]. repeat split; auto. }
  apply Nat.eqb_eq in Hargc. destruct H as [H|H]; [done|].
  destruct (fs w !! nth 1 argv "") as [[data|]|] eqn:Hdir; run;
    try (eexists [_], _; split; [reflexivity|]; repeat split; auto; done).
  destruct H as [H|H]; [done|].
  destruct (Ffplay.which env "ffplay") eqn:Hwhich.
  2:{ destruct (ffplay_check_missing env w Hwhich) as [lines ->].
      destruct (with_eprints_fields lines w) as (? & ? & ? & ? & ? & ?).
      exists lines, (with_eprints lines w). repeat split; auto. }
  rewrite (ffplay_check_found env w Hwhich). run.
  destruct H as [H|H]; [done|].
  rewrite (gather_no_music _ H). run.
  eexists [_], _. split; [reflexivity|]. repeat split; auto.
Qed.

Lemma ffplay_startup_fails_quiet (tr tr' : list event) (lines : list string) :
  tr' = (tr ++ map Print lines)%list \/ tr' = (tr ++ map PrintErr lines)%list ->
  forallb (fun e => negb (is_play_event e)) tr'
  = forallb (fun e => negb (is_play_event e)) tr.
Proof.
  intros [-> | ->]; [apply prints_are_not_play|apply eprints_are_not_play].
Qed.

Lemma termux_startup_fails (argv : list string) (env : Termux.startup_env) (w : world) :
  length argv <> 2%nat
  \/ fs w !! nth 1 argv "" <> Some Dir
  \/ no_music (Termux.walk env) ->
  exists (lines : list string) (w' : world),
    Termux.startup argv env w = (Raise (SystemExit 1), w')
    /\ fs w' = fs w /\ hist w' = hist w
    /\ trace w' = (trace w ++ map Print lines)%list
    /\ (atexit w' = atexit w \/ atexit w' = (atexit w ++ [stop_music_handler])%list).
Proof.
  intros H. unfold Termux.startup.
  destruct (length argv =? 2)%nat eqn:Hargc; run.
  2:{ eexists [_], _. split; [reflexivity|]. repeat split; auto. }
  apply Nat.eqb_eq in Hargc. destruct H as [H|H]; [done|].
  destruct (fs w !! nth 1 argv "") as [[data|]|] eqn:Hdir; run;
    try (eexists [_], _; split; [reflexivity|]; repeat split; auto; done).
  destruct H as [H|H]; [done|].
  rewrite (gather_no_music _ H). run.
  eexists [_], _. split; [reflexivity|]. repeat split; auto.
Qed.

Lemma ffplay_handlers_idle (w : world) :
  ffplay_process w = None ->
  forall hs : list handler,
    snd (fold_right (fun h k => bind (Ffplay.run_handler h) (fun _ => k)) (ret tt) hs w) = w.
Proof.
  intros Hslot hs. induction hs as [|h rest IH]; [done|].
  simpl. destruct h; unfold Ffplay.run_handler; run_ffplay; rewrite ?Hslot; run; exact IH.
Qed.

(** The exit handler of the termux script sends one [stop] or prints. *)
Lemma termux_stop_at_exit (env : Termux.startup_env) (w : world) :
  exists w',
    Termux.run_handler env stop_music_handler w = (Ret tt, w')
    /\ fs w' = fs w /\ hist w' = hist w
    /\ exists e, (trace w' = trace w \/ trace w' = (trace w ++ [e])%list)
                 /\ is_play_event e = false.
Proof.
  unfold Termux.run_handler. destruct (Termux.stop_at_exit env) as [rc out| |]; run_termux.
  - eexists. split; [reflexivity|]. repeat split.
    exists (Run ["termux-media-player"; "stop"]). split; auto.
  - eexists. split; [reflexivity|]. repeat split. eexists (Print _). split; [by right|done].
  - eexists. split; [reflexivity|]. repeat split.
    exists (Run ["termux-media-player"; "stop"]). split; auto.
Qed.

(** C7 as stated fails for the termux script: with no player installed
    and a good library it stages the first track, and only then stops
    with status 1 on the error that [play_file] lets through. *)
Lemma termux_missing_player_stages_first :
  let run :=
    Termux.program ["player"; "/music"] termux_absent
      [Termux.mkPassEnv id
         [Termux.mkIterEnv stage_fine (Termux.mkPlayEnv Termux.NotFound false) []]]
      (boot library "/tmp") in
  fst run = Some 1 /\ ~ nothing_staged_or_played (snd run).
Proof.
  split; [vm_compute; reflexivity|].
  intros [Hhist _]. apply (f_equal length) in Hhist.
  vm_compute in Hhist. discriminate Hhist.
Qed.

(** C7, amended. A wrong argument count, a path that is not a directory
    and a library without any allow-listed file end both scripts with
    status 1 before anything is staged or played; so does a missing
    ffplay in the ffplay script, which checks for it at start-up (the
    termux script has no such check). *)
Theorem startup_failures_exit_1 (argv : list string) (files : gmap string entry)
        (tmp : string) (fenv : Ffplay.startup_env) (tenv : Termux.startup_env)
        (fpasses : list Ffplay.pass_env) (tpasses : list Termux.pass_env) :
  (length argv <> 2%nat
   \/ files !! nth 1 argv "" <> Some Dir
   \/ Ffplay.which fenv "ffplay" = false
   \/ no_music (Ffplay.walk fenv) ->
   exists w', Ffplay.program argv fenv fpasses (boot files tmp) = (Some 1, w')
              /\ nothing_staged_or_played w' /\ fs w' = files)
  /\ (length argv <> 2%nat
      \/ files !! nth 1 argv "" <> Some Dir
      \/ no_music (Termux.walk tenv) ->
      exists w', Termux.program argv tenv tpasses (boot files tmp) = (Some 1, w')
                 /\ nothing_staged_or_played w' /\ fs w' = files).
Proof.
  split; intros H.
  - destruct (ffplay_startup_fails argv fenv (boot files tmp) H)
      as (lines & w1 & Hrun & Hfs & Hhist & Htrace & Hslot & Hexit).
    unfold Ffplay.program, Ffplay.main, bind. rewrite Hrun.
    rewrite (ffplay_handlers_idle w1 Hslot). eexists. split; [reflexivity|].
    split; [|exact Hfs]. split; [exact Hhist|].
    by rewrite (ffplay_startup_fails_quiet _ _ _ Htrace).
  - destruct (termux_startup_fails argv tenv (boot files tmp) H)
      as (lines & w1 & Hrun & Hfs & Hhist & Htrace & Hexit).
    unfold Termux.program, Termux.main, bind. rewrite Hrun.
    assert (Hnone : forallb (fun e => negb (is_play_event e)) (trace w1) = true)
      by (rewrite Htrace; simpl trace; by rewrite prints_are_not_play).
    destruct Hexit as [-> | ->]; cbn [rev app fold_right atexit boot].
    + eexists. split; [reflexivity|]. by repeat split.
    + destruct (termux_stop_at_exit tenv w1) as (w2 & Hstop & Hfs2 & Hhist2 & e & Htr2 & He).
      unfold bind. rewrite Hstop. eexists. split; [reflexivity|]. simpl snd.
      split; [|by rewrite Hfs2]. split; [by rewrite Hhist2|].
      destruct Htr2 as [-> | ->]; [done|].
      rewrite forallb_app, Hnone. simpl. by rewrite He.
Qed.

Lemma startup_failures_exit_1_witness :
  (exists w', Ffplay.program ["player"; "/music"] ffplay_absent [] (boot library "/tmp")
              = (Some 1, w')
              /\ nothing_staged_or_played w' /\ fs w' = library)
  /\ (exists w', Termux.program ["player"; "/music"] termux_empty_library []
                   (boot library "/tmp")
                 = (Some 1, w')
                 /\ nothing_staged_or_played w' /\ fs w' = library).
Proof.
  destruct (startup_failures_exit_1 ["player"; "/music"] library "/tmp"
              ffplay_absent termux_empty_library [] []) as [Hf Ht].
  split.
  - apply Hf. right. right. left. reflexivity.
  - apply Ht. right. right.
    intros root dirnames filenames name Hitem Hname. simpl in Hitem.
    destruct Hitem as [E|[E|[]]]; inversion E; subst; simpl in Hname;
      repeat (destruct Hname as [<-|Hname]; [reflexivity|]); destruct Hname.
Defined.

(* ================================================================== *)
(** ** A player that is missing *)
(* ================================================================== *)

Lemma ffplay_startup_ok (argv : list string) (env : Ffplay.startup_env) (w : world) :
  length argv = 2%nat ->
  fs w !! nth 1 argv "" = Some Dir ->
  Ffplay.which env "ffplay" = true ->
  gather_music_files (Ffplay.walk env) <> [] ->
  exists w',
    Ffplay.startup argv env w = (Ret (gather_music_files (Ffplay.walk env)), w')
    /\ ffplay_process w' = ffplay_process w
    /\ fs w' = fs w /\ hist w' = hist w
    /\ atexit w' = (atexit w ++ [cleanup_ffplay_handler])%list.
Proof.
  intros Hargc Hdir Hwhich Hsongs. unfold Ffplay.startup.
  replace (length argv =? 2)%nat with true by (symmetry; by apply Nat.eqb_eq).
  run. rewrite Hdir. run.
  rewrite (ffplay_check_found env w Hwhich). run.
  destruct (gather_music_files (Ffplay.walk env)) as [|song rest]; [done|]. run.
  eexists. split; [reflexivity|]. by repeat split.
Qed.

Lemma termux_is_playing_not_found (w : world) :
  Termux.is_playing Termux.NotFound w
  = (Raise (SystemExit 1),
     with_prints [nl ++ "Error: termux-media-player not found.";
                  "Please install Termux:API and its Termux package."] w).
Proof. reflexivity. Qed.

Lemma termux_play_file_not_found (env : Termux.play_env) (filepath : string) (w : world) :
  Termux.play_run env = Termux.NotFound ->
  fst (Termux.play_file env filepath w) = Raise FileNotFoundError.
Proof.
  intros H. unfold Termux.play_file. run_termux. rewrite H.
  destruct (Termux.unlinked env); run; [destruct (fs w !! filepath)|]; reflexivity.
Qed.

(** C9 as stated fails for the termux script: the first track is being
    played when [is_playing] finds the player gone and exits with 1. *)
Lemma termux_missing_player_fatal_in_loop :
  let run :=
    Termux.program ["player"; "/music"] termux_installed
      [Termux.mkPassEnv id
         [Termux.mkIterEnv stage_fine
            (Termux.mkPlayEnv (Termux.Returns 0 "") false)
            [(Termux.Returns 0 "Track: 8fb0aec7...", false); (Termux.NotFound, false)]]]
      (boot library "/tmp") in
  fst run = Some 1
  /\ existsb is_play_event (trace (snd run)) = true
  /\ In (Print (nl ++ "Error: termux-media-player not found.")) (trace (snd run)).
Proof.
  split; [vm_compute; reflexivity|]. split; [vm_compute; reflexivity|].
  vm_compute. tauto.
Qed.

(** C9, amended. The ffplay script checks for its player before the loop
    and exits with 1 if it is absent; once its loop runs, a player that
    is missing never ends the process: at any track of any pass [Popen]
    may raise [FileNotFoundError] (or another ordinary exception), also
    after earlier tracks were played to their end, and as long as no
    Ctrl+C arrives the script goes on.  The termux script has no start-up
    check, and in its loop a missing player is fatal: [is_playing] exits
    with status 1 and [play_file] lets the error through. *)
Theorem missing_player_by_script (argv : list string) (files : gmap string entry)
        (tmp : string) (fenv : Ffplay.startup_env) (fpasses : list Ffplay.pass_env)
        (tenv : Termux.play_env) (filepath : string) (w : world) :
  (Ffplay.which fenv "ffplay" = false ->
   exists w', Ffplay.program argv fenv fpasses (boot files tmp) = (Some 1, w')
              /\ nothing_staged_or_played w')
  /\ (length argv = 2%nat ->
      files !! nth 1 argv "" = Some Dir ->
      Ffplay.which fenv "ffplay" = true ->
      gather_music_files (Ffplay.walk fenv) <> [] ->
      ascii_names (gather_music_files (Ffplay.walk fenv)) ->
      ffplay_shuffles fpasses ->
      no_interrupts fpasses ->
      fst (Ffplay.program argv fenv fpasses (boot files tmp)) = None)
  /\ fst (Termux.is_playing Termux.NotFound w) = Raise (SystemExit 1)
  /\ (Termux.play_run tenv = Termux.NotFound ->
      fst (Termux.play_file tenv filepath w) = Raise FileNotFoundError).
Proof.
  split; [|split; [|split]].
  - intros H.
    destruct (ffplay_startup_fails argv fenv (boot files tmp)) as
      (lines & w1 & Hrun & Hfs & Hhist & Htrace & Hslot & Hexit); [tauto|].
    unfold Ffplay.program, Ffplay.main, bind. rewrite Hrun.
    rewrite (ffplay_handlers_idle w1 Hslot). eexists. split; [reflexivity|].
    split; [exact Hhist|]. by rewrite (ffplay_startup_fails_quiet _ _ _ Htrace).
  - intros Hargc Hdir Hwhich Hsongs _ _ Hquiet.
    destruct (ffplay_startup_ok argv fenv (boot files tmp) Hargc Hdir Hwhich Hsongs)
      as (w1 & Hrun & Hslot & _).
    unfold Ffplay.program, Ffplay.main, bind. rewrite Hrun.
    pose proof (ffplay_while_True_pending fpasses
                  (gather_music_files (Ffplay.walk fenv)) w1 Hquiet Hslot) as Hloop.
    unfold Ffplay.playback, try_except.
    destruct (Ffplay.while_True _ fpasses w1) as [r w2]. simpl in Hloop.
    by rewrite Hloop.
  - by rewrite termux_is_playing_not_found.
  - apply termux_play_file_not_found.
Qed.

Lemma missing_player_by_script_witness :
  (exists w', Ffplay.program ["player"; "/music"] ffplay_absent [] (boot library "/tmp")
              = (Some 1, w')
              /\ nothing_staged_or_played w')
  /\ fst (Ffplay.program ["player"; "/music"] ffplay_installed ffplay_player_disappears
            (boot library "/tmp")) = None
  /\ fst (Termux.play_file (Termux.mkPlayEnv Termux.NotFound false)
            "/tmp/8fb0aec765227888a14d5426bd526a97.mp3" (boot library "/tmp"))
     = Raise FileNotFoundError.
Proof.
  split; [|split].
  - apply (missing_player_by_script ["player"; "/music"] library "/tmp" ffplay_absent []
             (Termux.mkPlayEnv Termux.NotFound false) "" (boot library "/tmp")).
    reflexivity.
  - apply (missing_player_by_script ["player"; "/music"] library "/tmp" ffplay_installed
             _ (Termux.mkPlayEnv Termux.NotFound false) "" (boot library "/tmp"));
      [reflexivity|reflexivity|reflexivity|vm_compute; discriminate| | |].
    + repeat (constructor; [reflexivity|]). constructor.
    + constructor; [intros songs; reflexivity|constructor].
    + repeat constructor.
  - apply (missing_player_by_script ["player"; "/music"] library "/tmp" ffplay_absent []
             (Termux.mkPlayEnv Termux.NotFound false) _ (boot library "/tmp")).
    reflexivity.
Defined.

(* ================================================================== *)
(** ** Interruption and the staged file *)
(* ================================================================== *)

Lemma set_new_proc (ps : list pstate) (st st' : pstate) :
  <[length ps := st']> (ps ++ [st])%list = (ps ++ [st'])%list.
Proof.
  induction ps as [|p ps IH]; [done|]. simpl. by rewrite IH.
Qed.

(** Ctrl+C while ffplay plays: a player that is still there is asked to
    stop, waited for during two seconds and killed if it is still there
    (unless Ctrl+C arrives again during that wait: then it is left as it
    is); the staged file is removed and the interrupt goes on to [main]. *)
Lemma ffplay_interrupted (env : Ffplay.play_env) (temp_path : string) (w : world) :
  Ffplay.spawn_error env = None ->
  Ffplay.wait_result env = None ->
  fs w !! temp_path <> Some Dir ->
  ffplay_process w = None ->
  let pid := length (procs w) in
  exists w',
    Ffplay.play_and_cleanup env temp_path w = (Raise KeyboardInterrupt, w')
    /\ trace w'
       = (trace w ++ Spawn (ffplay_cmd temp_path)
            :: match Ffplay.sigint_exit env with
               | Some _ => []
               | None =>
                   Terminate pid :: WaitTimeout pid 2
                     :: match Ffplay.exits_in_grace env with
                        | Some false => [Kill pid]
                        | _ => []
                        end
               end)%list
    /\ procs w'
       = (procs w ++ [match Ffplay.sigint_exit env with
                      | Some returncode => Exited returncode
                      | None => match Ffplay.exits_in_grace env with
                                | Some true => Exited (-15)
                                | Some false => Exited (-9)
                                | None => Running
                                end
                      end])%list
    /\ fs w' !! temp_path = None
    /\ ffplay_process w' = None.
Proof.
  intros Hspawn Hwait Hdir Hslot pid. subst pid.
  destruct env as [spawn wres [sx|] grace unl]; simpl in Hspawn, Hwait; subst spawn wres.
  all: destruct unl, grace as [[|]|].
  all: run_ffplay.
  all: destruct (fs w !! temp_path) as [[d|]|] eqn:Hl; try done.
  all: repeat (progress (run_ffplay; rewrite ?lookup_delete_eq, ?Hl,
                           ?lookup_new_proc, ?lookup_set_new_proc)).
  all: eexists; split; [reflexivity|]; run_ffplay.
  all: rewrite ?set_new_proc, ?lookup_delete_eq, <- ?app_assoc; by repeat split.
Qed.

Lemma ffplay_cleanup_returns (w : world) :
  exists w', Ffplay.cleanup_ffplay (Some true) w = (Ret tt, w')
             /\ fs w' = fs w /\ hist w' = hist w.
Proof.
  run_ffplay. destruct (ffplay_process w) as [pid|]; run_ffplay; [|by eauto].
  destruct (procs w !! pid) as [[|rc]|]; run_ffplay; by eauto.
Qed.

(** An interrupted loop ends the ffplay script with status 0. *)
Lemma ffplay_interrupt_exits_0 (argv : list string) (env : Ffplay.startup_env)
      (passes : list Ffplay.pass_env) (songs : list string) (w : world) :
  fst (Ffplay.startup argv env w) = Ret songs ->
  fst (Ffplay.while_True songs passes (snd (Ffplay.startup argv env w)))
  = Raise KeyboardInterrupt ->
  fst (Ffplay.program argv env passes w) = Some 0.
Proof.
  intros Hstart Hloop. unfold Ffplay.program, Ffplay.main, bind.
  destruct (Ffplay.startup argv env w) as [r0 w0]. simpl in Hstart, Hloop. subst r0.
  unfold Ffplay.playback, try_except.
  destruct (Ffplay.while_True songs passes w0) as [r1 w1]. simpl in Hloop. subst r1.
  run.
  destruct (ffplay_cleanup_returns
              (with_event (Print (nl ++ "KeyboardInterrupt received. Stopping playback..."))
                          w1)) as (w2 & -> & _).
  reflexivity.
Qed.

Lemma termux_is_playing_fs (o : Termux.run_outcome) (w : world) :
  fs (snd (Termux.is_playing o w)) = fs w.
Proof.
  destruct o as [rc out| |]; run_termux; try done.
  destruct (rc =? 0); run_termux; reflexivity.
Qed.

Lemma termux_wait_fs (polls : list (Termux.run_outcome * bool)) :
  forall w : world, fs (snd (Termux.wait_until_finished polls w)) = fs w.
Proof.
  induction polls as [|[o interrupted] rest IH]; intros w; [done|].
  simpl Termux.wait_until_finished. unfold bind.
  pose proof (termux_is_playing_fs o w) as Hfs.
  destruct (Termux.is_playing o w) as [[playing|e|] w1]; simpl in Hfs; try done.
  destruct playing; [|done]. run_termux.
  destruct interrupted; run; [done|].
  rewrite <- Hfs. apply (IH (with_event (Sleep 1) w1)).
Qed.

Lemma termux_play_file_fs (env : Termux.play_env) (filepath : string) (w : world) :
  fs (snd (Termux.play_file env filepath w)) !! filepath = fs w !! filepath
  \/ fs (snd (Termux.play_file env filepath w)) !! filepath = None.
Proof.
  destruct env as [o unl]. run_termux.
  destruct unl; run;
    [destruct (fs w !! filepath) as [e|] eqn:Hl; run|];
    destruct o as [rc out| |]; run_termux;
    try destruct (rc =? 0); run_termux;
    rewrite ?lookup_delete_eq, ?Hl; auto.
Qed.

(** Whatever the play step of the termux script does, once the
    [finally] has run the staged file is not there. *)
Lemma termux_play_and_cleanup_removes (env : Termux.iter_env) (temp_path : string)
      (w : world) :
  fs w !! temp_path <> Some Dir ->
  fst (Termux.play_and_cleanup env temp_path w) = Pending
  \/ fs (snd (Termux.play_and_cleanup env temp_path w)) !! temp_path = None.
Proof.
  intros Hdir. unfold Termux.play_and_cleanup, try_finally.
  match goal with |- context [bind ?m ?k w] => set (body := bind m k) end.
  assert (Hkeep : fs (snd (body w)) !! temp_path = fs w !! temp_path
                  \/ fs (snd (body w)) !! temp_path = None).
  { subst body. unfold bind.
    pose proof (termux_play_file_fs (Termux.play env) temp_path w) as Hplay.
    destruct (Termux.play_file (Termux.play env) temp_path w) as [[ok|e|] w1];
      simpl in Hplay; [|exact Hplay..].
    destruct ok; simpl negb; cbv iota.
    - run. pose proof (termux_wait_fs (Termux.polls env) w1) as Hwait.
      destruct (Termux.wait_until_finished (Termux.polls env) w1) as [[[]|e|] w2];
        simpl in Hwait; run; by rewrite Hwait.
    - run. destruct (fs w1 !! temp_path) as [[d|]|] eqn:Hl; run;
        [right; apply lookup_delete_eq|by rewrite Hl..]. }
  destruct (body w) as [rb wb]. simpl in Hkeep.
  destruct (remove_ignoring_OSError_ret temp_path wb) as (w' & Hrem & Hfs & _).
  assert (Hgone : fs w' !! temp_path = None).
  { rewrite Hfs. destruct (fs wb !! temp_path) as [[d|]|] eqn:Hl.
    - apply lookup_delete_eq.
    - destruct Hkeep as [Hk|Hk]; congruence.
    - exact Hl. }
  destruct rb; rewrite ?Hrem; auto.
Qed.

(** What the interrupt handler of the termux script does: it prints,
    calls [stop_music] once, with no wait and no kill, then
    [sys.exit(0)]. *)
Lemma termux_playback_interrupted (env : Termux.startup_env) (songs : list string)
      (passes : list Termux.pass_env) (w w1 : world) :
  Termux.while_True songs passes w = (Raise KeyboardInterrupt, w1) ->
  Termux.stop_on_interrupt env <> Termux.Interrupted ->
  exists w2,
    Termux.playback env songs passes w = (Raise (SystemExit 0), w2)
    /\ fs w2 = fs w1 /\ hist w2 = hist w1 /\ atexit w2 = atexit w1
    /\ trace w2
       = (trace w1 ++ [Print (nl ++ "KeyboardInterrupt received. Stopping playback...");
                       stop_attempt (Termux.stop_on_interrupt env)])%list.
Proof.
  intros Hloop Hstop. unfold Termux.playback, try_except. rewrite Hloop.
  destruct (Termux.stop_on_interrupt env) as [rc out| |]; [| |done]; run_termux.
  - eexists. split; [reflexivity|]. run. rewrite <- ?app_assoc. by repeat split.
  - eexists. split; [reflexivity|]. run. rewrite <- ?app_assoc. by repeat split.
Qed.

(** The exit handler calls [stop_music] once more; what it raises is
    dropped. *)
Lemma termux_stop_handler_runs (env : Termux.startup_env) (w : world) :
  exists w',
    Termux.run_handler env stop_music_handler w = (Ret tt, w')
    /\ fs w' = fs w /\ hist w' = hist w
    /\ trace w' = (trace w ++ [stop_attempt (Termux.stop_at_exit env)])%list.
Proof.
  unfold Termux.run_handler.
  destruct (Termux.stop_at_exit env) as [rc out| |]; run_termux;
    eexists; (split; [reflexivity|]); by repeat split.
Qed.

(* ================================================================== *)
(** ** Where the scripts miss their own rules *)
(* ================================================================== *)

(** [play_file] maps the exit status of the player to its result. *)
Lemma ffplay_play_file_result (env : Ffplay.play_env) (filepath : string)
      (returncode : Z) (w : world) :
  Ffplay.spawn_error env = None ->
  Ffplay.wait_result env = Some returncode ->
  fst (Ffplay.play_file env filepath w) = Ret (returncode =? 0).
Proof.
  intros Hspawn Hwait. destruct env as [spawn wres sx grace unl].
  simpl in Hspawn, Hwait. subst spawn wres. run_ffplay.
  destruct unl; run; [destruct (fs w !! filepath); run|];
    destruct (returncode =? 0); reflexivity.
Qed.

Lemma termux_play_file_result (env : Termux.play_env) (filepath : string)
      (returncode : Z) (output : string) (w : world) :
  Termux.play_run env = Termux.Returns returncode output ->
  fst (Termux.play_file env filepath w) = Ret (returncode =? 0).
Proof.
  intros Hrun. destruct env as [o unl]. simpl in Hrun. subst o. run_termux.
  destruct unl; run; [destruct (fs w !! filepath); run|];
    destruct (returncode =? 0); reflexivity.
Qed.

(** C1, the failing input.  In the termux script a play that fails when
    the staged file is already gone meets the unguarded [os.remove] of the
    failure branch: its [FileNotFoundError] is what the [try] statement
    hands on, although the [finally] below guards the same call. *)
Theorem termux_early_remove_raises (env : Termux.iter_env) (temp_path : string)
        (returncode : Z) (output : string) (w : world) :
  Termux.play_run (Termux.play env) = Termux.Returns returncode output ->
  returncode <> 0 ->
  Termux.unlinked (Termux.play env) = true ->
  fst (Termux.play_and_cleanup env temp_path w) = Raise FileNotFoundError
  /\ fs (snd (Termux.play_and_cleanup env temp_path w)) !! temp_path = None.
Proof.
  intros Hrun Hrc Hunl. destruct env as [st [o unl] polls].
  simpl in Hrun, Hunl. subst o unl.
  apply Z.eqb_neq in Hrc. run_termux.
  destruct (fs w !! temp_path) as [e|] eqn:Hl; run_termux; rewrite Hrc; run_termux;
    rewrite ?lookup_delete_eq, ?Hl; run;
    rewrite ?lookup_delete_eq, ?Hl; run;
    by rewrite ?lookup_delete_eq, ?Hl.
Qed.

Lemma termux_early_remove_raises_witness :
  fst (Termux.play_and_cleanup termux_rejected_and_unlinked
         "/tmp/8fb0aec765227888a14d5426bd526a97.mp3" (boot library_stale "/tmp"))
  = Raise FileNotFoundError
  /\ fst (Termux.iteration termux_rejected_and_unlinked "/music/songA.mp3"
            (boot library "/tmp"))
     = Raise FileNotFoundError
  /\ fst (Ffplay.iteration ffplay_rejected_and_unlinked "/music/songA.mp3"
            (boot library "/tmp"))
     = Ret tt.
Proof.
  split; [|split; vm_compute; reflexivity].
  apply (termux_early_remove_raises termux_rejected_and_unlinked
           "/tmp/8fb0aec765227888a14d5426bd526a97.mp3" 1 ""
           (boot library_stale "/tmp"));
    [reflexivity|lia|reflexivity].
Defined.

(** C5, the failing input.  The same [os.remove] makes a failed play
    fatal in the termux script: with the staged file gone the process
    stops with status 1 and the next track is never reached, where with
    the file in place the loop goes on to it. *)
Theorem termux_play_failure_can_be_fatal :
  let gone :=
    Termux.program ["player"; "/music"] termux_installed
      [Termux.mkPassEnv id [termux_rejected_and_unlinked; termux_plays]]
      (boot library "/tmp") in
  let kept :=
    Termux.program ["player"; "/music"] termux_installed
      [Termux.mkPassEnv id [termux_rejected; termux_plays]]
      (boot library "/tmp") in
  (fst gone = Some 1
   /\ announced "songA.mp3" (snd gone) = true
   /\ announced "songB.flac" (snd gone) = false)
  /\ (fst kept = None
      /\ announced "songA.mp3" (snd kept) = true
      /\ announced "songB.flac" (snd kept) = true).
Proof. repeat split; vm_compute; reflexivity. Qed.

(** C4, the failing input.  When the source cannot be opened the scratch
    file has been created but [tmp_path] is not bound yet (it is assigned
    after the copy): the ffplay script skips its removal and returns
    [None], the termux script raises [UnboundLocalError] out of its
    handler.  The empty scratch file stays in the temp directory. *)
Theorem stage_failure_leaves_scratch (env : stage_env) (r original_path : string)
        (w : world) :
  rnd env = Some r ->
  fs w !! scratch_path w r original_path = None ->
  fs w !! original_path = None ->
  original_path <> scratch_path w r original_path ->
  (exists w',
      Ffplay.copy_to_temp_md5 env original_path w = (Ret None, w')
      /\ fs w' !! scratch_path w r original_path = Some (File []))
  /\ (exists w',
         Termux.copy_to_temp_md5 env original_path w = (Raise UnboundLocalError, w')
         /\ fs w' !! scratch_path w r original_path = Some (File [])).
Proof.
  intros Hr Hfresh Hsrc Hne.
  unfold scratch_path in *. unfold Ffplay.copy_to_temp_md5, Termux.copy_to_temp_md5.
  destruct (Path.splitext (Path.basename original_path)) as [stem ext]. simpl snd in *.
  destruct env as [rn n wf]. simpl in Hr. subst rn.
  unfold stage_attempt. run. rewrite !Hfresh. run.
  rewrite !lookup_insert_ne by done. rewrite !Hsrc. run.
  split; eexists; (split; [reflexivity|]); run; apply lookup_insert_eq.
Qed.

Lemma stage_failure_leaves_scratch_witness :
  (exists w',
      Ffplay.copy_to_temp_md5 stage_fine "/music/gone.mp3" (boot library "/tmp")
      = (Ret None, w')
      /\ fs w' !! "/tmp/tmpk3x9_q2a.mp3" = Some (File []))
  /\ (exists w',
         Termux.copy_to_temp_md5 stage_fine "/music/gone.mp3" (boot library "/tmp")
         = (Raise UnboundLocalError, w')
         /\ fs w' !! "/tmp/tmpk3x9_q2a.mp3" = Some (File [])).
Proof.
  apply (stage_failure_leaves_scratch stage_fine "k3x9_q2a" "/music/gone.mp3"
           (boot library "/tmp"));
    [reflexivity|reflexivity|reflexivity|vm_compute; discriminate].
Defined.

(** A failure after the copy, with [tmp_path] bound, is handled as the
    handler intends: here the staged path is a directory, the scratch
    file is removed and both scripts return [None]. *)
Example stage_late_failure_cleans_up :
  let scratch := "/tmp/tmpk3x9_q2a.mp3" in
  let f := Ffplay.copy_to_temp_md5 stage_fine "/music/songA.mp3"
             (boot library_dest_is_dir "/tmp") in
  let t := Termux.copy_to_temp_md5 stage_fine "/music/songA.mp3"
             (boot library_dest_is_dir "/tmp") in
  fst f = Ret None /\ fs (snd f) !! scratch = None
  /\ fst t = Ret None /\ fs (snd t) !! scratch = None.
Proof. repeat split; vm_compute; reflexivity. Qed.

(** The staged file does not outlive the play step of the ffplay script,
    and no error of its removal is handed to the loop. *)
Lemma ffplay_cleanup_total (env : Ffplay.play_env) (temp_path : string) (w : world) :
  fs w !! temp_path <> Some Dir ->
  ffplay_process w = None ->
  fs (snd (Ffplay.play_and_cleanup env temp_path w)) !! temp_path = None
  /\ forall e, fst (Ffplay.play_and_cleanup env temp_path w) = Raise e ->
               is_OSError e = false.
Proof.
  intros Hdir Hslot.
  destruct (ffplay_play_and_cleanup_outcome env temp_path w Hdir Hslot)
    as (w' & Hrun & Hfs & _).
  rewrite Hrun. split; [exact Hfs|]. simpl fst. intros e He.
  destruct (Ffplay.spawn_error env) as [e0|].
  - destruct (is_Exception e0) eqn:Hex; [discriminate He|].
    inversion He. subst e. by destruct e0.
  - destruct (Ffplay.wait_result env); [discriminate He|].
    by inversion He.
Qed.

(* ================================================================== *)
(** ** What an observer of the staged path can see *)
(* ================================================================== *)

Section Quiet.
Variable dest : string.
Variable old : option entry.

Lemma quiet_run_refl (w : world) :
  shows_old_or_nothing dest old (fs w) -> quiet_run dest old w w.
Proof. intros H. exists []. by rewrite app_nil_r. Qed.

Lemma quiet_run_trans (w1 w2 w3 : world) :
  quiet_run dest old w1 w2 -> quiet_run dest old w2 w3 -> quiet_run dest old w1 w3.
Proof.
  intros (s1 & H1 & F1 & _) (s2 & H2 & F2 & Q3).
  exists (s1 ++ s2)%list. split; [by rewrite H2, H1, app_assoc|].
  split; [by apply Forall_app|done].
Qed.



Lemma Quiet_raise {A} (e : exn) : Quiet dest old (@raise A e).
Proof. intros w H. by apply quiet_run_refl. Qed.







Lemma Quiet_try_except {A} (m : M A) (h : exn -> option (M A)) :
  Quiet dest old m ->
  (forall e k, h e = Some k -> Quiet dest old k) ->
  Quiet dest old (try_except m h).
Proof.
  intros Hm Hh w H. unfold try_except. specialize (Hm w H).
  destruct (m w) as [[a|e|] w1]; simpl in Hm; simpl; [done| |done].
  destruct (h e) as [k|] eqn:Hk; [|done].
  eapply quiet_run_trans; [exact Hm|]. apply (Hh e k Hk).
  by destruct Hm as (? & _ & _ & ?).
Qed.












End Quiet.






(* ================================================================== *)
(** ** The scanner, once more *)
(* ================================================================== *)

Lemma gather_names_app (root : string) (filenames files : list string) :
  gather_names root filenames files
  = (files ++ map (Path.join root) (List.filter is_music filenames))%list.
Proof.
  revert files. induction filenames as [|name rest IH]; intros files.
  - simpl. by rewrite app_nil_r.
  - rewrite gather_names_cons. simpl List.filter.
    destruct (is_music name); rewrite IH; [|done].
    by rewrite <- app_assoc.
Qed.

Lemma gather_walk_app (walk : list walk_item) (files : list string) :
  gather_walk walk files = (files ++ flat_map songs_of walk)%list.
Proof.
  revert files. induction walk as [|[[root dirnames] filenames] rest IH]; intros files.
  - simpl. by rewrite app_nil_r.
  - simpl gather_walk. rewrite IH, gather_names_app. simpl flat_map.
    by rewrite <- app_assoc.
Qed.

(** X1.  [gather_music_files] returns, directory by directory in the
    order of the walk and file by file in the order of each listing,
    the joined paths of exactly the file names whose lower-cased
    extension is in the allow-list; sub-directory names add nothing
    and nothing is dropped, merged or reordered. *)
Theorem gather_music_files_in_walk_order (walk : list walk_item) :
  gather_music_files walk = flat_map songs_of walk.
Proof. unfold gather_music_files. by rewrite gather_walk_app. Qed.

(** X2.  Whether a file name is music depends on what follows its last
    dot only, compared without regard to letter case: for a name
    [stem.x] ([x] without a dot, [stem] not made of dots only) the test
    of the scanner is the membership of [.x], lower-cased, in the
    allow-list. *)
Theorem is_music_by_last_extension (stem x : string) :
  Path.lacks Path.sep stem = true -> Path.lacks Path.sep x = true ->
  Path.lacks Path.extsep x = true -> all_dots stem = false ->
  is_music (stem ++ String Path.extsep x)
  = mem_string (String Path.extsep (Path.lower x)) MUSIC_EXTS.
Proof.
  intros Hs Hsx Hx Hd. unfold is_music.
  by rewrite (splitext_stem_ext stem x Hs Hsx Hx Hd).
Qed.

Lemma is_music_by_last_extension_witness :
  is_music ("Live.2019" ++ String Path.extsep "FLAC")
  = mem_string (String Path.extsep (Path.lower "FLAC")) MUSIC_EXTS.
Proof. apply (is_music_by_last_extension "Live.2019" "FLAC"); reflexivity. Defined.

Lemma mem_string_In (x : string) (l : list string) :
  mem_string x l = true <-> In x l.
Proof.
  unfold mem_string. rewrite existsb_exists. split.
  - intros (y & Hy & E). apply String.eqb_eq in E. by subst y.
  - intros H. exists x. split; [done|apply String.eqb_refl].
Qed.

Lemma gather_music_files_In (walk : list walk_item) (song : string) :
  In song (gather_music_files walk)
  <-> exists root dirnames filenames name,
        In (root, dirnames, filenames) walk /\ In name filenames
        /\ is_music name = true /\ song = Path.join root name.
Proof.
  unfold gather_music_files. rewrite gather_walk_app. simpl app.
  rewrite in_flat_map. split.
  - intros ([[root dirnames] filenames] & Hitem & Hsong). simpl in Hsong.
    apply in_map_iff in Hsong as (name & <- & Hname).
    apply filter_In in Hname as [Hname Hmusic]. by exists root, dirnames, filenames, name.
  - intros (root & dirnames & filenames & name & Hitem & Hname & Hmusic & ->).
    exists (root, dirnames, filenames). split; [done|]. simpl.
    apply in_map, filter_In. by split.
Qed.

(* ================================================================== *)
(** ** Where the staged file goes *)
(* ================================================================== *)

Lemma lacks_take (c : ascii) (s : string) (n : nat) :
  Path.lacks c s = true -> Path.lacks c (Path.take n s) = true.
Proof.
  revert n. induction s as [|a s IH]; intros [|n] H; simpl in *; try done.
  apply andb_true_iff in H as [Ha Hs]. by rewrite Ha, IH.
Qed.

Lemma lacks_drop (c : ascii) (s : string) (n : nat) :
  Path.lacks c s = true -> Path.lacks c (Path.drop n s) = true.
Proof.
  revert n. induction s as [|a s IH]; intros [|n] H; simpl in *; try done.
  apply andb_true_iff in H as [Ha Hs]. by apply IH.
Qed.

(** After the last occurrence of a character there is none. *)
Lemma lacks_after_rfind (c : ascii) (s : string) :
  forall i last : Z,
    last < i ->
    let r := Path.rfind_from c s i last in
    (r = last /\ Path.lacks c s = true)
    \/ (i <= r /\ Path.lacks c (Path.drop (Z.to_nat (r - i + 1)) s) = true).
Proof.
  induction s as [|a s IH]; intros i last Hlt; [by left|].
  simpl Path.rfind_from. cbv zeta.
  destruct (IH (i + 1) (if Ascii.eqb a c then i else last)) as [[Hr Hl]|[Hr Hl]].
  - destruct (Ascii.eqb a c); lia.
  - cbv zeta in Hr. rewrite Hr. destruct (Ascii.eqb a c) eqn:Ha.
    + right. split; [lia|]. replace (i - i + 1) with 1 by lia. exact Hl.
    + left. split; [done|]. simpl. by rewrite Ha, Hl.
  - right. cbv zeta in Hr, Hl. split; [lia|].
    match goal with |- context [Path.rfind_from c s ?j ?l] => set (r := Path.rfind_from c s j l) in * end.
    replace (Z.to_nat (r - i + 1)) with (S (Z.to_nat (r - (i + 1) + 1))) by lia.
    exact Hl.
Qed.

Lemma basename_lacks_sep (p : string) :
  Path.lacks Path.sep (Path.basename p) = true.
Proof.
  unfold Path.basename, Path.rfind, Path.slice_from.
  destruct (lacks_after_rfind Path.sep p 0 (-1) ltac:(lia)) as [[Hr Hl]|[Hr Hl]];
    cbv zeta in *.
  - rewrite Hr. exact Hl.
  - by rewrite Z.sub_0_r in Hl.
Qed.

Lemma skip_leading_dots_parts (p : string) (dotIndex : Z) (fuel : nat) :
  forall filenameIndex : Z,
    Path.skip_leading_dots p dotIndex filenameIndex fuel = (p, "")
    \/ Path.skip_leading_dots p dotIndex filenameIndex fuel
       = (Path.slice_to dotIndex p, Path.slice_from dotIndex p).
Proof.
  induction fuel as [|fuel IH]; intros filenameIndex; [by left|].
  simpl. destruct (filenameIndex <? dotIndex); [|by left].
  destruct (negb _); [by right|apply IH].
Qed.

Lemma splitext_parts (p : string) :
  Path.splitext p = (p, "")
  \/ exists n, Path.splitext p = (Path.take n p, Path.drop n p).
Proof.
  unfold Path.splitext. destruct (_ >? _); [|by left].
  cbv zeta.
  match goal with
  | |- context [Path.skip_leading_dots p ?d ?f ?n] =>
      destruct (skip_leading_dots_parts p d n f) as [H|H]; rewrite H
  end; [by left|right; by eexists].
Qed.

(** [root + ext == p] for [root, ext = os.path.splitext(p)]. *)
Lemma splitext_app (p : string) :
  fst (Path.splitext p) ++ snd (Path.splitext p) = p.
Proof.
  destruct (splitext_parts p) as [H|[n H]]; rewrite H; simpl fst; simpl snd.
  - clear. induction p as [|a p IH]; [done|]. rewrite string_app_cons. by rewrite IH.
  - clear. revert n. induction p as [|a p IH]; intros [|n]; try done.
    simpl. rewrite string_app_cons. by rewrite IH.
Qed.

Lemma splitext_lacks_sep (p : string) :
  Path.lacks Path.sep p = true ->
  Path.lacks Path.sep (snd (Path.splitext p)) = true.
Proof.
  intros H. destruct (splitext_parts p) as [E|[n E]]; rewrite E; [done|].
  by apply lacks_drop.
Qed.

Lemma lacks_hex_byte (b : Z) (k : string) :
  Path.lacks Path.sep (MD5.hex_byte b k) = Path.lacks Path.sep k.
Proof.
  unfold MD5.hex_byte. cbn [Path.lacks].
  by rewrite !(proj2 (Ascii.eqb_neq _ _) (hex_digit_not_sep _)).
Qed.

Lemma hexdigest_lacks_sep (s : string) :
  Path.lacks Path.sep (MD5.hexdigest s) = true.
Proof.
  unfold MD5.hexdigest. destruct (MD5.digest (MD5.encode s)) as [[[a b] c] d].
  unfold MD5.hex_state, MD5.hex_word. by rewrite !lacks_hex_byte.
Qed.

Lemma desired_name_lacks_sep (original_path : string) :
  Path.lacks Path.sep (desired_name original_path) = true.
Proof.
  unfold desired_name.
  pose proof (splitext_lacks_sep _ (basename_lacks_sep original_path)) as Hext.
  destruct (Path.splitext (Path.basename original_path)) as [stem ext].
  simpl in Hext. by rewrite lacks_app, hexdigest_lacks_sep, Hext.
Qed.

(** X3.  Whatever the path of the source, the staged path is the temp
    directory, a slash if it does not end in one, and a name without
    any slash: the staged copy is an entry of the temp directory itself
    and its base name is the derived name. *)
Theorem staged_path_is_inside_tempdir (w : world) (original_path : string) :
  dest_path w original_path = join_prefix (tempdir w) ++ desired_name original_path
  /\ Path.lacks Path.sep (desired_name original_path) = true
  /\ Path.basename (dest_path w original_path) = desired_name original_path.
Proof.
  pose proof (desired_name_lacks_sep original_path) as Hl.
  split; [|split; [exact Hl|]].
  - apply join_relative. by apply lacks_not_startswith.
  - by apply basename_join.
Qed.

(** X4.  Every song the scanner hands to the loop is staged under a name
    made of the digest of its stem and an extension that is in the
    allow-list once lower-cased: the base name of a scanned path is the
    file name that passed the test, and stem and extension together
    are that name. *)
Theorem scanned_song_keeps_music_extension (walk : list walk_item) (song : string) :
  plain_names walk ->
  In song (gather_music_files walk) ->
  is_music (Path.basename song) = true
  /\ exists stem ext,
      Path.splitext (Path.basename song) = (stem, ext)
      /\ stem ++ ext = Path.basename song
      /\ desired_name song = MD5.hexdigest stem ++ ext
      /\ In (Path.lower ext) MUSIC_EXTS.
Proof.
  intros Hplain Hsong.
  apply gather_music_files_In in Hsong
    as (root & dirnames & filenames & name & Hitem & Hname & Hmusic & ->).
  rewrite basename_join by (by apply (Hplain root dirnames filenames)).
  split; [exact Hmusic|].
  unfold desired_name. rewrite basename_join by (by apply (Hplain root dirnames filenames)).
  unfold is_music in Hmusic. pose proof (splitext_app name) as Happ.
  destruct (Path.splitext name) as [stem ext]. exists stem, ext.
  split; [done|]. split; [exact Happ|]. split; [done|]. by apply mem_string_In.
Qed.

Lemma scanned_song_keeps_music_extension_witness :
  is_music (Path.basename "/music/songB.flac") = true
  /\ exists stem ext,
      Path.splitext (Path.basename "/music/songB.flac") = (stem, ext)
      /\ stem ++ ext = Path.basename "/music/songB.flac"
      /\ desired_name "/music/songB.flac" = MD5.hexdigest stem ++ ext
      /\ In (Path.lower ext) MUSIC_EXTS.
Proof.
  apply (scanned_song_keeps_music_extension walk_music).
  - intros root dirnames filenames name [[= <- <- <-]|[]] Hname.
    repeat (destruct Hname as [<-|Hname]; [reflexivity|]). destruct Hname.
  - vm_compute. tauto.
Defined.

(* ================================================================== *)
(** ** What a statement leaves alone *)
(* ================================================================== *)

Section Stable.
Variable td : string.
Variable bound allowed : string -> Prop.
Variable R : world -> world -> Prop.
Hypothesis HR : Respects allowed R.
Hypothesis bound_allowed : forall t, bound t -> allowed t.

Lemma Stable_same {A} (m : M A) :
  (forall w, snd (m w) = w) -> Stable td bound R m.
Proof. intros H w Hw. rewrite H. split; [done|apply HR]. Qed.

Lemma Stable_ret {A} (a : A) : Stable td bound R (ret a).
Proof. by apply Stable_same. Qed.

Lemma Stable_raise {A} (e : exn) : Stable td bound R (@raise A e).
Proof. by apply Stable_same. Qed.

Lemma Stable_pending {A} : Stable td bound R (@pending A).
Proof. by apply Stable_same. Qed.

Lemma Stable_get {A} (f : world -> A) : Stable td bound R (get f).
Proof. by apply Stable_same. Qed.

(** Sequencing, when the first statement tells something about its result. *)
Lemma Stable_bind_post {A B} (Q : A -> Prop) (m : M A) (k : A -> M B) :
  (forall w a w', tmp_ok td bound w -> m w = (Ret a, w') -> Q a) ->
  Stable td bound R m ->
  (forall a, Q a -> Stable td bound R (k a)) ->
  Stable td bound R (bind m k).
Proof.
  intros HQ Hm Hk w Hw. unfold bind. specialize (Hm w Hw). specialize (HQ w).
  destruct (m w) as [[a|e|] w1]; simpl in *; [|done..].
  destruct Hm as [H1 HR1]. destruct (Hk a (HQ a w1 Hw eq_refl) w1 H1) as [H2 HR2].
  split; [done|]. eapply respects_trans; eauto.
Qed.

Lemma Stable_bind {A B} (m : M A) (k : A -> M B) :
  Stable td bound R m ->
  (forall a, Stable td bound R (k a)) ->
  Stable td bound R (bind m k).
Proof.
  intros Hm Hk. apply (Stable_bind_post (fun _ => True)); auto.
Qed.

Lemma Stable_try_except {A} (m : M A) (h : exn -> option (M A)) :
  Stable td bound R m ->
  (forall e k, h e = Some k -> Stable td bound R k) ->
  Stable td bound R (try_except m h).
Proof.
  intros Hm Hh w Hw. unfold try_except. specialize (Hm w Hw).
  destruct (m w) as [[a|e|] w1]; simpl in *; [done| |done].
  destruct (h e) as [k|] eqn:Hk; [|done].
  destruct Hm as [H1 HR1]. destruct (Hh e k Hk w1 H1) as [H2 HR2].
  split; [done|]. eapply respects_trans; eauto.
Qed.

Lemma Stable_try_finally {A} (m : M A) (f : M unit) :
  Stable td bound R m -> Stable td bound R f ->
  Stable td bound R (try_finally m f).
Proof.
  intros Hm Hf w Hw. unfold try_finally. specialize (Hm w Hw).
  destruct (m w) as [r w1]. simpl in Hm. destruct Hm as [H1 HR1].
  specialize (Hf w1 H1).
  destruct r as [a|e|]; [| |done];
    destruct (f w1) as [[[]|e'|] w2]; simpl in *; destruct Hf as [H2 HR2];
    (split; [done|]); eapply respects_trans; eauto.
Qed.

Lemma Stable_when (b : bool) (m : M unit) :
  Stable td bound R m -> Stable td bound R (when b m).
Proof. intros Hm. destruct b; [exact Hm|apply Stable_ret]. Qed.

Lemma Stable_event (e : event) :
  is_announcement e = false -> plays_in allowed e ->
  Stable td bound R (modify (with_event e)).
Proof. intros He Hp w Hw. split; [exact Hw|]. by apply HR. Qed.

Lemma Stable_print (text : string) :
  String.prefix "Now playing: " text = false -> Stable td bound R (print text).
Proof. intros H. by apply Stable_event. Qed.

Lemma Stable_eprint (text : string) : Stable td bound R (eprint text).
Proof. by apply Stable_event. Qed.

Lemma Stable_fs (f : gmap string entry) (w : world) :
  tmp_ok td bound w ->
  (forall q, ~ allowed q -> f !! q = fs w !! q) ->
  tmp_ok td bound (with_fs f w) /\ R w (with_fs f w).
Proof. intros Hw Hf. split; [exact Hw|]. by apply HR. Qed.

(* ------------------------------------------------------------------ *)
(** *** File system calls *)

Lemma Stable_os_path_exists (p : string) : Stable td bound R (os_path_exists p).
Proof. apply Stable_get. Qed.

Lemma Stable_os_path_isdir (p : string) : Stable td bound R (os_path_isdir p).
Proof. apply Stable_get. Qed.

Lemma Stable_open_rb (p : string) : Stable td bound R (open_rb p).
Proof.
  apply Stable_same. intros w. unfold open_rb. by destruct (fs w !! p) as [[d|]|].
Qed.

Lemma Stable_os_remove (p : string) :
  allowed p -> Stable td bound R (os_remove p).
Proof.
  intros Hp w Hw. unfold os_remove.
  destruct (fs w !! p) as [[d|]|]; simpl; [|split; [done|apply HR]..].
  apply Stable_fs; [done|]. intros q Hq. apply lookup_delete_ne. by intros ->.
Qed.

Lemma Stable_os_rename (src dst : string) :
  allowed src -> allowed dst -> Stable td bound R (os_rename src dst).
Proof.
  intros Hs Hd w Hw. unfold os_rename.
  destruct (fs w !! src) as [e|]; simpl; [|split; [done|apply HR]].
  assert (Hgo : tmp_ok td bound (with_fs (<[dst:=e]> (delete src (fs w))) w)
                /\ R w (with_fs (<[dst:=e]> (delete src (fs w))) w)).
  { apply Stable_fs; [done|]. intros q Hq.
    rewrite lookup_insert_ne by (by intros ->). apply lookup_delete_ne. by intros ->. }
  destruct (fs w !! dst) as [[d|]|]; simpl; [done|split; [done|apply HR]|done].
Qed.

Lemma Stable_meanwhile_unlink (happens : bool) (p : string) :
  allowed p -> Stable td bound R (meanwhile_unlink happens p).
Proof.
  intros Hp w Hw. unfold meanwhile_unlink.
  destruct happens; simpl; [|split; [done|apply HR]].
  destruct (fs w !! p); simpl; [|split; [done|apply HR]].
  apply Stable_fs; [done|]. intros q Hq. apply lookup_delete_ne. by intros ->.
Qed.

Lemma Stable_remove_ignoring_OSError (p : string) :
  allowed p -> Stable td bound R (remove_ignoring_OSError p).
Proof.
  intros Hp. apply Stable_try_except; [by apply Stable_os_remove|].
  intros e k Hk. destruct (is_OSError e); [|done]. inversion Hk. apply Stable_ret.
Qed.

Lemma Stable_NamedTemporaryFile (env : stage_env) (dir suffix : string) :
  (forall r, rnd env = Some r -> allowed (Path.join dir ("tmp" ++ r ++ suffix))) ->
  Stable td bound R (NamedTemporaryFile env dir suffix).
Proof.
  intros Hs w Hw. unfold NamedTemporaryFile.
  destruct (rnd env) as [r|]; [|split; [done|apply HR]].
  destruct (fs w !! _); simpl; [split; [done|apply HR]|].
  apply Stable_fs; [done|]. intros q Hq. apply lookup_insert_ne. intros <-.
  by apply Hq, Hs.
Qed.

Lemma NamedTemporaryFile_name (env : stage_env) (dir suffix name : string) (w w' : world) :
  NamedTemporaryFile env dir suffix w = (Ret name, w') ->
  exists r, rnd env = Some r /\ name = Path.join dir ("tmp" ++ r ++ suffix)
            /\ fs w !! name = None /\ w' = with_fs (<[name := File []]> (fs w)) w.
Proof.
  unfold NamedTemporaryFile. destruct (rnd env) as [r|]; [|done].
  destruct (fs w !! _) eqn:Hl; [done|]. intros [= <- <-]. by exists r.
Qed.

Lemma Stable_file_write (env : stage_env) (p : string) (buf : list ascii) (k : nat) :
  allowed p -> Stable td bound R (file_write env p buf k).
Proof.
  intros Hp w Hw. unfold file_write.
  destruct (bool_decide _); [split; [done|apply HR]|].
  destruct (fs w !! p) as [[d|]|]; simpl; [|split; [done|apply HR]..].
  apply Stable_fs; [done|]. intros q Hq. apply lookup_insert_ne. by intros ->.
Qed.

Lemma Stable_copy_loop (env : stage_env) (fdst : string) :
  allowed fdst ->
  forall (fuel : nat) (fsrc : list ascii) (k : nat),
    Stable td bound R (copy_loop fuel env fsrc fdst k).
Proof.
  intros Hd. induction fuel as [|fuel IH]; intros fsrc k; [apply Stable_pending|].
  simpl. destruct (firstn (bufsize env) fsrc); [apply Stable_ret|].
  apply Stable_bind; [by apply Stable_file_write|]. intros _. apply IH.
Qed.

(** Using the local [tmp_path]: it is unbound, or names a path in
    [bound]. *)
Lemma Stable_read_tmp_path {B} (k : string -> M B) :
  (forall t, bound t -> Stable td bound R (k t)) ->
  Stable td bound R (bind read_tmp_path k).
Proof.
  intros Hk w Hw. unfold bind, read_tmp_path.
  destruct (tmp_path w) as [t|] eqn:Ht; [|split; [done|apply HR]].
  apply Hk; [|done]. by apply Hw.
Qed.

Lemma Stable_set_tmp_path (t : option string) :
  (forall p, t = Some p -> bound p) ->
  Stable td bound R (modify (with_tmp_path t)).
Proof.
  intros Ht w [Htd Hw]. split; [|apply HR]. split; [done|]. simpl. intros p. apply Ht.
Qed.

(* ------------------------------------------------------------------ *)
(** *** Staging *)

Lemma Stable_stage_attempt (env : stage_env) (original_path temp_dir ext dest : string) :
  allowed dest ->
  (forall r, rnd env = Some r -> bound (Path.join temp_dir ("tmp" ++ r ++ ext))) ->
  Stable td bound R (stage_attempt env original_path temp_dir ext dest).
Proof.
  intros Hd Hs. unfold stage_attempt.
  apply Stable_bind.
  - apply (Stable_bind_post bound).
    + intros w a w' _ Hrun. apply NamedTemporaryFile_name in Hrun as (r & Hr & -> & _).
      by apply Hs.
    + apply Stable_NamedTemporaryFile. intros r Hr. by apply bound_allowed, Hs.
    + intros tmp_file Htmp. apply Stable_bind; [apply Stable_open_rb|]. intros src.
      apply Stable_bind; [by apply Stable_copy_loop, bound_allowed|]. intros _.
      apply Stable_set_tmp_path. by intros p [= <-].
  - intros _. apply Stable_bind; [apply Stable_os_path_exists|]. intros e.
    apply Stable_bind; [by apply Stable_when, Stable_os_remove|]. intros _.
    apply Stable_read_tmp_path. intros tmp Htmp.
    apply Stable_bind; [by apply Stable_os_rename; [apply bound_allowed|]|]. intros _.
    apply Stable_ret.
Qed.

Lemma error_text_is_no_announcement (name text : string) :
  String.prefix "Now playing: " ("Error creating temporary copy for " ++ name ++ text) = false.
Proof. reflexivity. Qed.

(** The two [except] handlers: they print, and remove the scratch file
    when [tmp_path] is bound. *)
Lemma Stable_ffplay_stage_handler (text : string) :
  Stable td bound R
    (bind (eprint text)
       (fun _ =>
          bind (bind (get (fun w => match tmp_path w with Some _ => true | None => false end))
                     (fun bound : bool =>
                        if bound then bind read_tmp_path (fun tmp => os_path_exists tmp)
                        else ret false))
               (fun c => bind (when c (bind read_tmp_path (fun tmp => os_remove tmp)))
                              (fun _ => ret (@None string))))).
Proof.
  apply Stable_bind; [apply Stable_eprint|]. intros _.
  apply Stable_bind.
  - apply Stable_bind; [apply Stable_get|]. intros [|]; [|apply Stable_ret].
    apply Stable_read_tmp_path. intros tmp _. apply Stable_os_path_exists.
  - intros c. apply Stable_bind; [|intros _; apply Stable_ret].
    apply Stable_when, Stable_read_tmp_path. intros tmp Htmp.
    by apply Stable_os_remove, bound_allowed.
Qed.

Lemma Stable_termux_stage_handler (text : string) :
  String.prefix "Now playing: " text = false ->
  Stable td bound R
    (bind (print text)
       (fun _ =>
          bind read_tmp_path
               (fun tmp =>
                  bind (os_path_exists tmp)
                       (fun c => bind (when c (bind read_tmp_path (fun tmp => os_remove tmp)))
                                      (fun _ => ret (@None string)))))).
Proof.
  intros Htext. apply Stable_bind; [by apply Stable_print|]. intros _.
  apply Stable_read_tmp_path. intros tmp _.
  apply Stable_bind; [apply Stable_os_path_exists|]. intros c.
  apply Stable_bind; [|intros _; apply Stable_ret].
  apply Stable_when, Stable_read_tmp_path. intros t Ht.
  by apply Stable_os_remove, bound_allowed.
Qed.

(** Both versions of [copy_to_temp_md5], after [tmp_path] is unbound. *)
Lemma Stable_copy_to_temp_md5 (s : script) (env : stage_env) (original_path : string) :
  allowed (Path.join td (desired_name original_path)) ->
  (forall r, rnd env = Some r ->
             bound (Path.join td ("tmp" ++ r ++ snd (Path.splitext (Path.basename original_path))))) ->
  Stable td bound R (copy_to_temp_md5 s env original_path).
Proof.
  unfold desired_name. intros Hd Hs.
  destruct s; unfold copy_to_temp_md5, Ffplay.copy_to_temp_md5, Termux.copy_to_temp_md5;
    destruct (Path.splitext (Path.basename original_path)) as [stem ext]; simpl snd in Hs.
  all: apply Stable_bind; [by apply Stable_set_tmp_path|]; intros _.
  all: apply (Stable_bind_post (fun a => a = td));
    [by intros w a w' [Htd _] [= <- _]|apply Stable_get|]; intros temp_dir ->.
  all: apply Stable_try_except; [by apply Stable_stage_attempt|].
  all: intros e k Hk; destruct (is_Exception e); [|done]; inversion Hk; clear Hk.
  - apply Stable_ffplay_stage_handler.
  - apply Stable_termux_stage_handler, error_text_is_no_announcement.
Qed.


(* ------------------------------------------------------------------ *)
(** *** The ffplay script *)

Lemma Stable_set_proc (pid : nat) (st : pstate) :
  Stable td bound R (Ffplay.set_proc pid st).
Proof. intros w Hw. split; [exact Hw|apply HR]. Qed.

Lemma Stable_Popen (env : Ffplay.play_env) (filepath : string) :
  allowed filepath ->
  Stable td bound R (Ffplay.Popen env (ffplay_cmd filepath)).
Proof.
  intros Hp. unfold Ffplay.Popen. destruct (Ffplay.spawn_error env); [apply Stable_raise|].
  intros w Hw. simpl. split; [exact Hw|].
  eapply respects_trans; [exact HR|apply (respects_procs _ _ HR)|].
  apply (respects_event _ _ HR); [done|]. by exists filepath.
Qed.

Lemma Stable_wait (env : Ffplay.play_env) (pid : nat) (filepath : string) :
  allowed filepath -> Stable td bound R (Ffplay.wait env pid filepath).
Proof.
  intros Hp. unfold Ffplay.wait.
  apply Stable_bind; [by apply Stable_meanwhile_unlink|]. intros _.
  destruct (Ffplay.wait_result env).
  - apply Stable_bind; [apply Stable_set_proc|]. intros _. apply Stable_ret.
  - apply Stable_bind; [|intros _; apply Stable_raise].
    destruct (Ffplay.sigint_exit env); [apply Stable_set_proc|apply Stable_ret].
Qed.

Lemma Stable_cleanup_ffplay (in_time : option bool) :
  Stable td bound R (Ffplay.cleanup_ffplay in_time).
Proof.
  unfold Ffplay.cleanup_ffplay.
  apply Stable_bind; [apply Stable_get|]. intros [pid|]; [|apply Stable_ret].
  apply Stable_bind; [apply Stable_get|]. intros [rc|]; [apply Stable_ret|].
  apply Stable_bind; [by apply Stable_event|]. intros _.
  apply Stable_bind.
  - apply Stable_try_except.
    + apply Stable_bind; [by apply Stable_event|]. intros _.
      destruct in_time as [[|]|]; [apply Stable_set_proc|apply Stable_raise..].
    + intros e k Hk. destruct e; try done. inversion Hk.
      apply Stable_bind; [by apply Stable_event|]. intros _. apply Stable_set_proc.
  - intros _. intros w Hw. split; [exact Hw|apply HR].
Qed.

Lemma Stable_ffplay_play_file (env : Ffplay.play_env) (filepath : string) :
  allowed filepath -> Stable td bound R (Ffplay.play_file env filepath).
Proof.
  intros Hp. unfold Ffplay.play_file.
  apply Stable_try_finally; [|intros w Hw; split; [exact Hw|apply HR]].
  apply Stable_try_except.
  - apply Stable_bind; [by apply (Stable_Popen env filepath)|]. intros pid.
    apply Stable_bind; [intros w Hw; split; [exact Hw|apply HR]|]. intros _.
    apply Stable_bind; [by apply Stable_wait|]. intros returncode.
    destruct (negb _); [|apply Stable_ret].
    apply Stable_bind; [apply Stable_eprint|]. intros _. apply Stable_ret.
  - intros e k Hk. destruct e; simpl in Hk; inversion Hk; clear Hk.
    1: apply Stable_bind; [apply Stable_cleanup_ffplay|intros _; apply Stable_raise].
    all: apply Stable_bind; [apply Stable_eprint|]; intros _; apply Stable_ret.
Qed.

Lemma Stable_ffplay_play_and_cleanup (env : Ffplay.play_env) (temp_path : string) :
  allowed temp_path -> Stable td bound R (Ffplay.play_and_cleanup env temp_path).
Proof.
  intros Hp. unfold Ffplay.play_and_cleanup.
  apply Stable_try_finally; [|by apply Stable_remove_ignoring_OSError].
  apply Stable_bind; [by apply Stable_ffplay_play_file|].
  intros [|]; by apply Stable_print.
Qed.

(* ------------------------------------------------------------------ *)
(** *** The termux script *)

Lemma Stable_subprocess_run (cmd : list string) (check : bool) (o : Termux.run_outcome) :
  plays_in allowed (Run cmd) ->
  Stable td bound R (Termux.subprocess_run cmd check o).
Proof.
  intros Hcmd.
  unfold Termux.subprocess_run. destruct o as [rc out| |]; [|apply Stable_raise|].
  - apply Stable_bind; [by apply Stable_event|]. intros _.
    destruct (check && _); [apply Stable_raise|apply Stable_ret].
  - apply Stable_bind; [by apply Stable_event|]. intros _. apply Stable_raise.
Qed.

Lemma Stable_stop_music (o : Termux.run_outcome) :
  Stable td bound R (Termux.stop_music o).
Proof.
  unfold Termux.stop_music. apply Stable_try_except.
  - apply Stable_bind; [by apply Stable_subprocess_run|]. intros _. apply Stable_ret.
  - intros e k Hk. destruct (is_Exception e); [|done]. inversion Hk.
    by apply Stable_print.
Qed.

Lemma Stable_is_playing (o : Termux.run_outcome) :
  Stable td bound R (Termux.is_playing o).
Proof.
  unfold Termux.is_playing. apply Stable_try_except.
  - apply Stable_bind; [by apply Stable_subprocess_run|]. intros out. apply Stable_ret.
  - intros e k Hk. destruct e; inversion Hk; clear Hk; [|apply Stable_ret].
    apply Stable_bind; [by apply Stable_print|]. intros _.
    apply Stable_bind; [by apply Stable_print|]. intros _. apply Stable_raise.
Qed.

Lemma Stable_termux_play_file (env : Termux.play_env) (filepath : string) :
  allowed filepath -> Stable td bound R (Termux.play_file env filepath).
Proof.
  intros Hp. unfold Termux.play_file. apply Stable_try_except.
  - apply Stable_bind; [by apply Stable_meanwhile_unlink|]. intros _.
    apply Stable_bind; [apply Stable_subprocess_run; by exists filepath|]. intros _.
    apply Stable_ret.
  - intros e k Hk. destruct e; inversion Hk; clear Hk.
    apply Stable_bind; [by apply Stable_print|]. intros _. apply Stable_ret.
Qed.

Lemma Stable_time_sleep (seconds : Z) (interrupted : bool) :
  Stable td bound R (Termux.time_sleep seconds interrupted).
Proof.
  unfold Termux.time_sleep. apply Stable_bind; [by apply Stable_event|]. intros _.
  destruct interrupted; [apply Stable_raise|apply Stable_ret].
Qed.

Lemma Stable_wait_until_finished (polls : list (Termux.run_outcome * bool)) :
  Stable td bound R (Termux.wait_until_finished polls).
Proof.
  induction polls as [|[o interrupted] rest IH]; [apply Stable_pending|].
  simpl. apply Stable_bind; [apply Stable_is_playing|]. intros [|]; [|apply Stable_ret].
  apply Stable_bind; [apply Stable_time_sleep|]. intros _. exact IH.
Qed.

Lemma Stable_termux_play_and_cleanup (env : Termux.iter_env) (temp_path : string) :
  allowed temp_path -> Stable td bound R (Termux.play_and_cleanup env temp_path).
Proof.
  intros Hp. unfold Termux.play_and_cleanup.
  apply Stable_try_finally; [|by apply Stable_remove_ignoring_OSError].
  apply Stable_bind; [by apply Stable_termux_play_file|].
  intros [|]; simpl negb; cbv iota; [|by apply Stable_os_remove].
  apply Stable_bind; [apply Stable_wait_until_finished|]. intros _. by apply Stable_print.
Qed.

End Stable.

(* ================================================================== *)
(** ** What a returned staged path stands for *)
(* ================================================================== *)

Lemma bind_Ret_inv {A B} (m : M A) (k : A -> M B) (w : world) (b : B) (w' : world) :
  bind m k w = (Ret b, w') ->
  exists a w1, m w = (Ret a, w1) /\ k a w1 = (Ret b, w').
Proof. unfold bind. destruct (m w) as [[a|e|] w1]; try done. eauto. Qed.

(** A copy loop that returns has written the whole source. *)
Lemma copy_loop_Ret_inv (env : stage_env) (dst : string) :
  (0 < bufsize env)%nat ->
  forall (fuel : nat) (src acc : list ascii) (k : nat) (w w' : world),
    fs w !! dst = Some (File acc) ->
    (length src < fuel)%nat ->
    copy_loop fuel env src dst k w = (Ret tt, w') ->
    fs w' = <[dst := File (acc ++ src)]> (fs w) /\ tmp_path w' = tmp_path w.
Proof.
  intros Hb. induction fuel as [|fuel IH]; intros src acc k w w' Hdst Hlen Hrun; [lia|].
  simpl in Hrun. destruct (firstn (bufsize env) src) as [|a buf] eqn:Hbuf.
  - inversion Hrun; subst w'. clear Hrun.
    assert (src = []) as ->.
    { destruct src as [|c src]; [done|]. destruct (bufsize env); [lia|done]. }
    rewrite app_nil_r. split; [|done]. symmetry. by apply insert_id.
  - apply bind_Ret_inv in Hrun as ([] & w1 & Hwrite & Hrun).
    unfold file_write in Hwrite. destruct (bool_decide _); [done|].
    rewrite Hdst in Hwrite. inversion Hwrite; subst w1. clear Hwrite.
    apply (IH _ (acc ++ a :: buf)%list) in Hrun as [Hfs Htmp].
    + split; [|exact Htmp]. rewrite Hfs. simpl fs. rewrite insert_insert_eq.
      do 2 f_equal. rewrite <- app_assoc. f_equal.
      rewrite <- Hbuf. apply firstn_skipn.
    + simpl. apply lookup_insert_eq.
    + rewrite length_skipn.
      assert (length src <> 0%nat) by (destruct src; [by rewrite firstn_nil in Hbuf|done]).
      lia.
Qed.

(** The [try:] block returns the staged path only, and only after the
    scratch file has taken the whole source to that path. *)
Lemma stage_attempt_Ret_inv (env : stage_env) (original_path temp_dir ext dest : string)
      (w : world) (o : option string) (w' : world) :
  stage_attempt env original_path temp_dir ext dest w = (Ret o, w') ->
  o = Some dest
  /\ forall data,
      fs w !! original_path = Some (File data) -> (0 < bufsize env)%nat ->
      fs w' = <[dest := File data]> (fs w).
Proof.
  intros H. unfold stage_attempt in H.
  apply bind_Ret_inv in H as ([] & w4 & H1 & H).
  apply bind_Ret_inv in H1 as (tmp_file & w1 & Hntf & H1).
  apply NamedTemporaryFile_name in Hntf as (r & Hr & Hname & Hfresh & Hw1).
  apply bind_Ret_inv in H1 as (src & w2 & Hopen & H1).
  apply bind_Ret_inv in H1 as ([] & w3 & Hcopy & Hmod).
  apply bind_Ret_inv in H as (e & w5 & Hex & H).
  apply bind_Ret_inv in H as ([] & w6 & Hrm & H).
  apply bind_Ret_inv in H as (tmp & w7 & Hread & H).
  apply bind_Ret_inv in H as ([] & w8 & Hren & H).
  inversion H; subst o w8. clear H. split; [done|].
  intros data Hsrc Hb.
  set (scratch := tmp_file) in *.
  assert (Hps : original_path <> scratch) by (intros E; rewrite E in Hsrc; congruence).
  unfold open_rb in Hopen. rewrite Hw1 in Hopen. simpl fs in Hopen.
  rewrite lookup_insert_ne, Hsrc in Hopen by done.
  inversion Hopen; subst src w2. clear Hopen.
  unfold copyfileobj in Hcopy.
  apply (copy_loop_Ret_inv env scratch Hb _ _ []) in Hcopy as [Hfs3 Htmp3];
    [|by simpl; apply lookup_insert_eq|lia].
  simpl app in Hfs3. simpl fs in Hfs3. rewrite insert_insert_eq in Hfs3.
  inversion Hmod; subst w4. clear Hmod.
  inversion Hex; subst e w5. clear Hex. simpl fs in *.
  assert (Hw6 : tmp_path w6 = Some scratch
                /\ fs w6 !! dest = None
                /\ (fs w6 = fs w3 \/ fs w6 = delete dest (fs w3))).
  { destruct (fs w3 !! dest) as [[old|]|] eqn:Hdest; simpl in Hrm.
    - unfold os_remove in Hrm. simpl fs in Hrm. rewrite Hdest in Hrm.
      inversion Hrm; subst w6. simpl. split; [done|]. split; [apply lookup_delete_eq|by right].
    - unfold os_remove in Hrm. simpl fs in Hrm. by rewrite Hdest in Hrm.
    - inversion Hrm; subst w6. simpl. split; [done|]. split; [done|by left]. }
  destruct Hw6 as (Htmp6 & Hd6 & Hfs6).
  unfold read_tmp_path in Hread. rewrite Htmp6 in Hread. inversion Hread; subst tmp w7.
  clear Hread.
  assert (Hne : scratch <> dest).
  { intros E. unfold os_rename in Hren. by rewrite E, Hd6 in Hren. }
  assert (Hs6 : fs w6 !! scratch = Some (File data)).
  { destruct Hfs6 as [-> | ->]; rewrite ?lookup_delete_ne by done;
      rewrite Hfs3; apply lookup_insert_eq. }
  unfold os_rename in Hren. rewrite Hs6, Hd6 in Hren. inversion Hren; subst w'. clear Hren.
  simpl fs. apply map_eq. intros q.
  destruct (decide (q = dest)) as [->|Hq]; [by rewrite !lookup_insert_eq|].
  rewrite !lookup_insert_ne by done.
  destruct (decide (q = scratch)) as [->|Hq']; [by rewrite lookup_delete_eq, Hfresh|].
  rewrite lookup_delete_ne by done.
  destruct Hfs6 as [-> | ->]; rewrite ?lookup_delete_ne by done;
    rewrite Hfs3; by rewrite lookup_insert_ne.
Qed.

(** The handlers of [copy_to_temp_md5] end in [return None]. *)
Lemma copy_to_temp_md5_Ret_inv (s : script) (env : stage_env) (original_path : string)
      (w : world) (t : string) (w' : world) :
  copy_to_temp_md5 s env original_path w = (Ret (Some t), w') ->
  stage_attempt env original_path (tempdir w)
                (snd (Path.splitext (Path.basename original_path)))
                (dest_path w original_path) (with_tmp_path None w)
  = (Ret (Some t), w').
Proof.
  unfold dest_path, desired_name.
  destruct s; unfold copy_to_temp_md5, Ffplay.copy_to_temp_md5, Termux.copy_to_temp_md5;
    destruct (Path.splitext (Path.basename original_path)) as [stem ext]; simpl snd.
  all: unfold bind at 1 2, modify at 1, get at 1, try_except; simpl tempdir.
  all: destruct (stage_attempt _ _ _ _ _ _) as [[o|e|] w1]; [done| |done].
  all: destruct (is_Exception e); [|done].
  all: intros H; exfalso.
  - apply bind_Ret_inv in H as (? & ? & _ & H).
    apply bind_Ret_inv in H as (? & ? & _ & H).
    apply bind_Ret_inv in H as (? & ? & _ & H). done.
  - apply bind_Ret_inv in H as (? & ? & _ & H).
    apply bind_Ret_inv in H as (? & ? & _ & H).
    apply bind_Ret_inv in H as (? & ? & _ & H).
    apply bind_Ret_inv in H as (? & ? & _ & H). done.
Qed.

Lemma copy_to_temp_md5_path (s : script) (env : stage_env) (original_path : string)
      (w : world) (t : string) (w' : world) :
  copy_to_temp_md5 s env original_path w = (Ret (Some t), w') ->
  t = dest_path w original_path.
Proof.
  intros H. apply copy_to_temp_md5_Ret_inv, stage_attempt_Ret_inv in H as [[= ->] _]. done.
Qed.

(** X5.  [copy_to_temp_md5] never hands out a partial copy: when it
    returns a path, that path is the staged path of the source and holds
    the whole content the source had when the call began; no other path
    of the file system has changed (the scratch file is gone). *)
Theorem stage_returns_complete_copy (s : script) (env : stage_env)
        (original_path : string) (data : list ascii) (w : world) (t : string) :
  fs w !! original_path = Some (File data) ->
  (0 < bufsize env)%nat ->
  fst (copy_to_temp_md5 s env original_path w) = Ret (Some t) ->
  t = dest_path w original_path
  /\ fs (snd (copy_to_temp_md5 s env original_path w)) = <[t := File data]> (fs w).
Proof.
  intros Hsrc Hb Hrun.
  destruct (copy_to_temp_md5 s env original_path w) as [r w'] eqn:Hcopy.
  simpl in Hrun. subst r. simpl snd.
  apply copy_to_temp_md5_Ret_inv, stage_attempt_Ret_inv in Hcopy as [[= ->] Hfs].
  split; [done|]. by apply Hfs.
Qed.

Lemma stage_returns_complete_copy_witness :
  "/tmp/8fb0aec765227888a14d5426bd526a97.mp3"
  = dest_path (boot library_stale "/tmp") "/music/songA.mp3"
  /\ fs (snd (copy_to_temp_md5 termux stage_fine "/music/songA.mp3"
                               (boot library_stale "/tmp")))
     = <["/tmp/8fb0aec765227888a14d5426bd526a97.mp3"
         := File (list_ascii_of_string "ID3-songA-bytes")]> (fs (boot library_stale "/tmp")).
Proof.
  apply (stage_returns_complete_copy termux stage_fine "/music/songA.mp3"
           (list_ascii_of_string "ID3-songA-bytes") (boot library_stale "/tmp")).
  - vm_compute. reflexivity.
  - simpl. lia.
  - vm_compute. reflexivity.
Defined.

(* ================================================================== *)
(** ** Three relations that every step respects *)
(* ================================================================== *)

Lemma same_announcements_respects (allowed : string -> Prop) :
  Respects allowed same_announcements.
Proof.
  split; unfold same_announcements, announcements; try done.
  - intros w1 w2 w3 H1 H2. by rewrite H2.
  - intros e w He _. simpl. rewrite List.filter_app. simpl. rewrite He. apply app_nil_r.
Qed.

Lemma same_elsewhere_respects (allowed : string -> Prop) :
  Respects allowed (same_elsewhere allowed).
Proof.
  split; unfold same_elsewhere; try done.
  intros w1 w2 w3 H1 H2 q Hq. by rewrite H2, H1.
Qed.

Lemma same_handlers_respects (allowed : string -> Prop) :
  Respects allowed same_handlers.
Proof.
  split; unfold same_handlers; try done.
  intros w1 w2 w3 H1 H2. by rewrite H2.
Qed.

Lemma still_plays_in_respects (allowed : string -> Prop) :
  Respects allowed (still_plays_in allowed).
Proof.
  split; unfold still_plays_in; try done.
  - intros w1 w2 w3 H1 H2 H. auto.
  - intros e w _ He H. simpl. apply Forall_app. split; [done|]. by constructor.
Qed.

(** [copy_to_temp_md5] starts with [tmp_path] unbound. *)
Lemma copy_to_temp_md5_unbinds (s : script) (env : stage_env) (original_path : string)
      (w : world) :
  copy_to_temp_md5 s env original_path w
  = copy_to_temp_md5 s env original_path (with_tmp_path None w).
Proof.
  destruct s; unfold copy_to_temp_md5, Ffplay.copy_to_temp_md5, Termux.copy_to_temp_md5;
    by destruct (Path.splitext (Path.basename original_path)).
Qed.

(** X6.  One call of [copy_to_temp_md5], however it ends, changes no
    path but the staged path and the path of its scratch file: the
    source and every other file are as they were. *)
Theorem stage_touches_only_its_two_paths (s : script) (env : stage_env)
        (original_path : string) (w : world) (q : string) :
  q <> dest_path w original_path ->
  (forall r, rnd env = Some r -> q <> scratch_path w r original_path) ->
  fs (snd (copy_to_temp_md5 s env original_path w)) !! q = fs w !! q.
Proof.
  intros Hd Hs.
  set (allowed := fun x : string =>
                    x = dest_path w original_path
                    \/ exists r, rnd env = Some r /\ x = scratch_path w r original_path).
  rewrite copy_to_temp_md5_unbinds.
  destruct (Stable_copy_to_temp_md5 (tempdir w) allowed allowed (same_elsewhere allowed)
              (same_elsewhere_respects allowed) (fun t H => H) s env original_path)
    with (w := with_tmp_path None w) as [_ Hsame].
  - by left.
  - intros r Hr. right. by exists r.
  - by split.
  - apply (Hsame q). intros [E|(r & Hr & E)]; [done|]. by apply (Hs r).
Qed.

Lemma stage_touches_only_its_two_paths_witness :
  fs (snd (copy_to_temp_md5 ffplay stage_disk_full "/music/songA.mp3"
                            (boot library_stale "/tmp"))) !! "/music/songA.mp3"
  = fs (boot library_stale "/tmp") !! "/music/songA.mp3".
Proof.
  apply (stage_touches_only_its_two_paths ffplay stage_disk_full "/music/songA.mp3"
           (boot library_stale "/tmp") "/music/songA.mp3").
  - vm_compute. discriminate.
  - intros r [= <-]. vm_compute. discriminate.
Defined.

(* ================================================================== *)
(** ** The whole loop *)
(* ================================================================== *)

Lemma string_prefix_app (s t : string) : String.prefix s (s ++ t) = true.
Proof.
  induction s as [|a s IH]; [by destruct t|].
  rewrite string_app_cons. simpl. by destruct (ascii_dec a a).
Qed.

Lemma join_in_tempdir (td name : string) :
  Path.startswith Path.sep name = false -> in_tempdir td (Path.join td name).
Proof.
  intros H. unfold in_tempdir. rewrite join_relative by done. apply string_prefix_app.
Qed.

Section Loop.
Variable td : string.
Variable allowed : string -> Prop.
Variable R : world -> world -> Prop.
Hypothesis HR : Respects allowed R.
Hypothesis R_any_print : forall text w, R w (with_event (Print text) w).
Hypothesis R_atexit : forall hs w, R w (with_atexit hs w).
Hypothesis allowed_temp :
  forall name, Path.startswith Path.sep name = false -> allowed (Path.join td name).

Lemma Stable_say (text : string) : Stable td allowed R (print text).
Proof. intros w Hw. split; [exact Hw|apply R_any_print]. Qed.

Lemma Stable_stage (s : script) (env : stage_env) (original_path : string) :
  Stable td allowed R (copy_to_temp_md5 s env original_path).
Proof.
  apply (Stable_copy_to_temp_md5 td allowed allowed R HR (fun t H => H)).
  - apply allowed_temp, lacks_not_startswith, desired_name_lacks_sep.
  - intros r _. by apply allowed_temp.
Qed.

Lemma staged_path_allowed (s : script) (env : stage_env) (original_path : string)
      (w : world) (a : option string) (w' : world) :
  tmp_ok td allowed w ->
  copy_to_temp_md5 s env original_path w = (Ret a, w') ->
  forall t, a = Some t -> allowed t.
Proof.
  intros [Htd _] Hrun t ->. apply copy_to_temp_md5_path in Hrun as ->.
  unfold dest_path. rewrite Htd.
  apply allowed_temp, lacks_not_startswith, desired_name_lacks_sep.
Qed.

Lemma Stable_ffplay_iteration (env : Ffplay.iter_env) (song : string) :
  Stable td allowed R (Ffplay.iteration env song).
Proof.
  unfold Ffplay.iteration. eapply Stable_bind; [exact HR|apply Stable_say|]. intros _.
  apply (Stable_bind_post td allowed allowed R HR (fun a => forall t, a = Some t -> allowed t)).
  - apply (staged_path_allowed ffplay).
  - apply (Stable_stage ffplay).
  - intros [t|] Ht; [|apply Stable_say].
    eapply Stable_ffplay_play_and_cleanup; [exact HR|by apply Ht].
Qed.

Lemma Stable_ffplay_for_songs (songs : list string) :
  forall envs, Stable td allowed R (Ffplay.for_songs songs envs).
Proof.
  induction songs as [|song rest IH]; intros envs; [by eapply Stable_ret|].
  destruct envs as [|env envs]; [by eapply Stable_pending|].
  simpl. eapply Stable_bind; [exact HR|apply Stable_ffplay_iteration|]. intros _. apply IH.
Qed.

Lemma Stable_ffplay_while_True (passes : list Ffplay.pass_env) :
  forall songs, Stable td allowed R (Ffplay.while_True songs passes).
Proof.
  induction passes as [|p rest IH]; intros songs; [by eapply Stable_pending|].
  simpl. eapply Stable_bind; [exact HR|apply Stable_ffplay_for_songs|]. intros _. apply IH.
Qed.

Lemma Stable_ffplay_playback (songs : list string) (passes : list Ffplay.pass_env) :
  Stable td allowed R (Ffplay.playback songs passes).
Proof.
  unfold Ffplay.playback.
  eapply Stable_try_except; [exact HR|apply Stable_ffplay_while_True|].
  intros e k Hk. destruct e; inversion Hk; clear Hk.
  eapply Stable_bind; [exact HR|apply Stable_say|]. intros _.
  eapply Stable_bind; [exact HR|by eapply Stable_cleanup_ffplay|]. intros _.
  by eapply Stable_raise.
Qed.

Lemma Stable_usage_check (argv : list string) :
  Stable td allowed R
    (when (negb (length argv =? 2)%nat)
          (bind (print ("Usage: " ++ nth 0 argv "" ++ " <folder_path>"))
                (fun _ => sys_exit 1))).
Proof.
  eapply Stable_when; [exact HR|].
  eapply Stable_bind; [exact HR|apply Stable_say|]. intros _. by eapply Stable_raise.
Qed.

Lemma Stable_exit_with (b : bool) (text : string) :
  Stable td allowed R (when b (bind (print text) (fun _ => sys_exit 1))).
Proof.
  eapply Stable_when; [exact HR|].
  eapply Stable_bind; [exact HR|apply Stable_say|]. intros _. by eapply Stable_raise.
Qed.

Lemma Stable_say_err (text : string) : Stable td allowed R (eprint text).
Proof. by eapply Stable_eprint. Qed.

Lemma Stable_exit_with_err (b : bool) (text : string) :
  Stable td allowed R (when b (bind (eprint text) (fun _ => sys_exit 1))).
Proof.
  eapply Stable_when; [exact HR|].
  eapply Stable_bind; [exact HR|apply Stable_say_err|]. intros _. by eapply Stable_raise.
Qed.

Lemma Stable_register (h : handler) :
  Stable td allowed R (modify (fun w => with_atexit (atexit w ++ [h]) w)).
Proof. intros w Hw. split; [exact Hw|apply R_atexit]. Qed.

Lemma Stable_check_ffplay (env : Ffplay.startup_env) :
  Stable td allowed R (Ffplay.check_ffplay env).
Proof.
  unfold Ffplay.check_ffplay. destruct (Ffplay.which env "ffplay"); [by eapply Stable_ret|].
  eapply Stable_bind; [exact HR|apply Stable_say_err|]. intros _. cbv zeta.
  match goal with
  | |- context [match ?l with [] => _ | _ :: _ => _ end] => generalize l
  end.
  intros suggestions. eapply Stable_bind; [exact HR| |intros _; by eapply Stable_raise].
  destruct suggestions as [|cmd rest]; [apply Stable_say_err|].
  eapply Stable_bind; [exact HR|apply Stable_say_err|]. intros _.
  generalize (cmd :: rest). intros l. induction l as [|c l IH]; [by eapply Stable_ret|].
  simpl. eapply Stable_bind; [exact HR|apply Stable_say_err|]. intros _. exact IH.
Qed.

Lemma Stable_ffplay_startup (argv : list string) (env : Ffplay.startup_env) :
  Stable td allowed R (Ffplay.startup argv env).
Proof.
  unfold Ffplay.startup.
  eapply Stable_bind; [exact HR|apply Stable_exit_with|]. intros _.
  eapply Stable_bind; [exact HR|by eapply Stable_os_path_isdir|]. intros isdir.
  eapply Stable_bind; [exact HR|apply Stable_exit_with_err|]. intros _.
  eapply Stable_bind; [exact HR|apply Stable_check_ffplay|]. intros _.
  eapply Stable_bind; [exact HR|apply Stable_register|]. intros _.
  eapply Stable_bind; [exact HR|apply Stable_exit_with_err|]. intros _.
  eapply Stable_bind; [exact HR|apply Stable_say|]. intros _.
  eapply Stable_bind; [exact HR|apply Stable_say|]. intros _. by eapply Stable_ret.
Qed.

Lemma Stable_ffplay_main (argv : list string) (env : Ffplay.startup_env)
      (passes : list Ffplay.pass_env) :
  Stable td allowed R (Ffplay.main argv env passes).
Proof.
  unfold Ffplay.main. eapply Stable_bind; [exact HR|apply Stable_ffplay_startup|].
  intros songs. apply Stable_ffplay_playback.
Qed.

Lemma Stable_ffplay_handlers (hs : list handler) :
  Stable td allowed R
    (fold_right (fun h k => bind (Ffplay.run_handler h) (fun _ => k)) (ret tt) hs).
Proof.
  induction hs as [|h rest IH]; [by eapply Stable_ret|].
  simpl. eapply Stable_bind; [exact HR| |intros _; exact IH].
  destruct h; simpl; [|by eapply Stable_ret].
  eapply Stable_try_except; [exact HR|by eapply Stable_cleanup_ffplay|].
  intros e k [= <-]. by eapply Stable_ret.
Qed.

Lemma ffplay_program_related (argv : list string) (env : Ffplay.startup_env)
      (passes : list Ffplay.pass_env) (w : world) :
  tmp_ok td allowed w -> R w (snd (Ffplay.program argv env passes w)).
Proof.
  intros Hw. unfold Ffplay.program.
  destruct (Stable_ffplay_main argv env passes w Hw) as [Hw' HR'].
  destruct (Ffplay.main argv env passes w) as [r w']. simpl in Hw', HR'.
  destruct (Stable_ffplay_handlers (rev (atexit w')) w' Hw') as [_ HR''].
  destruct r as [[]|e|]; simpl; [| |done]; eapply respects_trans; eauto.
Qed.

(* ------------------------------------------------------------------ *)
(** *** The termux script *)

Lemma Stable_termux_iteration (env : Termux.iter_env) (song : string) :
  Stable td allowed R (Termux.iteration env song).
Proof.
  unfold Termux.iteration. eapply Stable_bind; [exact HR|apply Stable_say|]. intros _.
  apply (Stable_bind_post td allowed allowed R HR (fun a => forall t, a = Some t -> allowed t)).
  - apply (staged_path_allowed termux).
  - apply (Stable_stage termux).
  - intros [t|] Ht; [|apply Stable_say].
    eapply Stable_termux_play_and_cleanup; [exact HR|by apply Ht].
Qed.

Lemma Stable_termux_for_songs (songs : list string) :
  forall envs, Stable td allowed R (Termux.for_songs songs envs).
Proof.
  induction songs as [|song rest IH]; intros envs; [by eapply Stable_ret|].
  destruct envs as [|env envs]; [by eapply Stable_pending|].
  simpl. eapply Stable_bind; [exact HR|apply Stable_termux_iteration|]. intros _. apply IH.
Qed.

Lemma Stable_termux_while_True (passes : list Termux.pass_env) :
  forall songs, Stable td allowed R (Termux.while_True songs passes).
Proof.
  induction passes as [|p rest IH]; intros songs; [by eapply Stable_pending|].
  simpl. eapply Stable_bind; [exact HR|apply Stable_termux_for_songs|]. intros _. apply IH.
Qed.

Lemma Stable_termux_playback (env : Termux.startup_env) (songs : list string)
      (passes : list Termux.pass_env) :
  Stable td allowed R (Termux.playback env songs passes).
Proof.
  unfold Termux.playback.
  eapply Stable_try_except; [exact HR|apply Stable_termux_while_True|].
  intros e k Hk. destruct e; inversion Hk; clear Hk.
  eapply Stable_bind; [exact HR|apply Stable_say|]. intros _.
  eapply Stable_bind; [exact HR|by eapply Stable_stop_music|]. intros _.
  by eapply Stable_raise.
Qed.

Lemma Stable_termux_startup (argv : list string) (env : Termux.startup_env) :
  Stable td allowed R (Termux.startup argv env).
Proof.
  unfold Termux.startup.
  eapply Stable_bind; [exact HR|apply Stable_exit_with|]. intros _.
  eapply Stable_bind; [exact HR|by eapply Stable_os_path_isdir|]. intros isdir.
  eapply Stable_bind; [exact HR|apply Stable_exit_with|]. intros _.
  eapply Stable_bind; [exact HR|apply Stable_register|]. intros _.
  eapply Stable_bind; [exact HR|apply Stable_exit_with|]. intros _.
  eapply Stable_bind; [exact HR|apply Stable_say|]. intros _.
  eapply Stable_bind; [exact HR|apply Stable_say|]. intros _. by eapply Stable_ret.
Qed.

Lemma Stable_termux_main (argv : list string) (env : Termux.startup_env)
      (passes : list Termux.pass_env) :
  Stable td allowed R (Termux.main argv env passes).
Proof.
  unfold Termux.main. eapply Stable_bind; [exact HR|apply Stable_termux_startup|].
  intros songs. apply Stable_termux_playback.
Qed.

Lemma Stable_termux_handlers (env : Termux.startup_env) (hs : list handler) :
  Stable td allowed R
    (fold_right (fun h k => bind (Termux.run_handler env h) (fun _ => k)) (ret tt) hs).
Proof.
  induction hs as [|h rest IH]; [by eapply Stable_ret|].
  simpl. eapply Stable_bind; [exact HR| |intros _; exact IH].
  destruct h; simpl; [by eapply Stable_ret|].
  eapply Stable_try_except; [exact HR|by eapply Stable_stop_music|].
  intros e k [= <-]. by eapply Stable_ret.
Qed.

Lemma termux_program_related (argv : list string) (env : Termux.startup_env)
      (passes : list Termux.pass_env) (w : world) :
  tmp_ok td allowed w -> R w (snd (Termux.program argv env passes w)).
Proof.
  intros Hw. unfold Termux.program.
  destruct (Stable_termux_main argv env passes w Hw) as [Hw' HR'].
  destruct (Termux.main argv env passes w) as [r w']. simpl in Hw', HR'.
  destruct (Stable_termux_handlers env (rev (atexit w')) w' Hw') as [_ HR''].
  destruct r as [[]|e|]; simpl; [| |done]; eapply respects_trans; eauto.
Qed.

End Loop.

(** X7.  The ffplay script writes inside the temp directory only: from
    start to exit, whatever the arguments, the library, the player and
    the user do, every path that does not begin with the temp directory
    holds at the end what it held at the start. *)
Theorem ffplay_writes_only_in_tempdir (argv : list string) (env : Ffplay.startup_env)
        (passes : list Ffplay.pass_env) (files : gmap string entry) (td q : string) :
  ~ in_tempdir td q ->
  fs (snd (Ffplay.program argv env passes (boot files td))) !! q = files !! q.
Proof.
  intros Hq.
  apply (ffplay_program_related td (in_tempdir td) (same_elsewhere (in_tempdir td))
           (same_elsewhere_respects _)); try done.
  apply join_in_tempdir.
Qed.

Lemma ffplay_writes_only_in_tempdir_witness :
  fs (snd (Ffplay.program ["player"; "/music"] ffplay_installed ffplay_interrupted_pass
                          (boot library "/tmp"))) !! "/music/songA.mp3"
  = library !! "/music/songA.mp3".
Proof.
  apply (ffplay_writes_only_in_tempdir ["player"; "/music"] ffplay_installed
           ffplay_interrupted_pass library "/tmp" "/music/songA.mp3").
  vm_compute. discriminate.
Defined.

(** X8.  The termux script writes inside the temp directory only: from
    start to exit, also when an error ends it, every path that does
    not begin with the temp directory holds at the end what it held at
    the start. *)
Theorem termux_writes_only_in_tempdir (argv : list string) (env : Termux.startup_env)
        (passes : list Termux.pass_env) (files : gmap string entry) (td q : string) :
  ~ in_tempdir td q ->
  fs (snd (Termux.program argv env passes (boot files td))) !! q = files !! q.
Proof.
  intros Hq.
  apply (termux_program_related td (in_tempdir td) (same_elsewhere (in_tempdir td))
           (same_elsewhere_respects _)); try done.
  apply join_in_tempdir.
Qed.

Lemma termux_writes_only_in_tempdir_witness :
  fs (snd (Termux.program ["player"; "/music"] termux_absent termux_interrupted_pass
                          (boot library "/tmp"))) !! "/music/songB.flac"
  = library !! "/music/songB.flac".
Proof.
  apply (termux_writes_only_in_tempdir ["player"; "/music"] termux_absent
           termux_interrupted_pass library "/tmp" "/music/songB.flac").
  vm_compute. discriminate.
Defined.

(* ================================================================== *)
(** ** The child process of the ffplay script *)
(* ================================================================== *)

(** X9.  [cleanup_ffplay] on a child that still runs sends [terminate]
    and waits two seconds.  When the child exits in that time, or the
    wait times out and the child is killed, the call returns: the child
    has exited and the global is cleared, so that a second call finds
    nothing to do.  When Ctrl+C arrives again during the wait the call
    ends with [KeyboardInterrupt]: the child is not killed, no exit of it
    is recorded and the global still refers to it.  On a child that has
    exited already the call does nothing. *)
Theorem cleanup_ffplay_stops_player (in_time again : option bool) (w : world) (pid : nat) :
  ffplay_process w = Some pid ->
  (pid < length (procs w))%nat ->
  match procs w !! pid, in_time with
  | Some Running, Some exits =>
      exists w',
        Ffplay.cleanup_ffplay in_time w = (Ret tt, w')
        /\ trace w' = (trace w ++ Terminate pid :: WaitTimeout pid 2
                         :: (if exits then [] else [Kill pid]))%list
        /\ procs w' = <[pid := Exited (if exits then -15 else -9)]> (procs w)
        /\ ffplay_process w' = None
        /\ Ffplay.cleanup_ffplay again w' = (Ret tt, w')
  | Some Running, None =>
      exists w',
        Ffplay.cleanup_ffplay in_time w = (Raise KeyboardInterrupt, w')
        /\ trace w' = (trace w ++ [Terminate pid; WaitTimeout pid 2])%list
        /\ procs w' = procs w
        /\ ffplay_process w' = Some pid
  | _, _ => Ffplay.cleanup_ffplay in_time w = (Ret tt, w)
  end.
Proof.
  intros Hslot Hpid.
  destruct (procs w !! pid) as [[|rc]|] eqn:Hst.
  - destruct in_time as [[|]|]; run_ffplay; rewrite Hslot; run_ffplay; rewrite Hst;
      run_ffplay; (eexists; split; [reflexivity|]); run_ffplay;
      rewrite <- ?app_assoc; repeat split; try done.
    all: rewrite ?list_insert_insert_eq; done.
  - run_ffplay. rewrite Hslot. run_ffplay. by rewrite Hst.
  - apply lookup_ge_None in Hst. lia.
Qed.

Lemma cleanup_ffplay_stops_player_witness :
  (exists w',
      Ffplay.cleanup_ffplay (Some false) (with_running_player (boot library "/tmp"))
      = (Ret tt, w')
      /\ trace w' = [Terminate 0; WaitTimeout 0 2; Kill 0]
      /\ procs w' = [Exited (-9)]
      /\ ffplay_process w' = None
      /\ Ffplay.cleanup_ffplay (Some true) w' = (Ret tt, w'))
  /\ (exists w',
         Ffplay.cleanup_ffplay None (with_running_player (boot library "/tmp"))
         = (Raise KeyboardInterrupt, w')
         /\ trace w' = [Terminate 0; WaitTimeout 0 2]
         /\ procs w' = [Running]
         /\ ffplay_process w' = Some 0%nat).
Proof.
  split.
  - apply (cleanup_ffplay_stops_player (Some false) (Some true)
             (with_running_player (boot library "/tmp")) 0).
    + reflexivity.
    + simpl. lia.
  - apply (cleanup_ffplay_stops_player None (Some true)
             (with_running_player (boot library "/tmp")) 0).
    + reflexivity.
    + simpl. lia.
Defined.

(** The play step starts at most one child.  It leaves the global
    cleared, and the child exited unless Ctrl+C arrived a second time,
    during the wait of [cleanup_ffplay]. *)
Lemma ffplay_play_and_cleanup_no_player (env : Ffplay.play_env) (temp_path : string)
      (w : world) :
  no_player w ->
  ffplay_process (snd (Ffplay.play_and_cleanup env temp_path w)) = None
  /\ (none_running (snd (Ffplay.play_and_cleanup env temp_path w))
      \/ fst (Ffplay.play_and_cleanup env temp_path w) = Raise KeyboardInterrupt
         /\ one_interrupt env = false).
Proof.
  intros [Hslot Hprocs]. unfold none_running, one_interrupt.
  assert (Hnew : forall rc, Forall (fun st => st <> Running) (procs w ++ [Exited rc])).
  { intros rc. apply Forall_app. split; [done|]. by repeat constructor. }
  destruct env as [[e|] [rc|] [sx|] grace unl].
  all: try destruct e.
  all: try destruct unl.
  all: try destruct grace as [[|]|].
  all: try destruct (rc =? 0) eqn:Hrc.
  all: run_ffplay.
  all: rewrite ?Hrc, ?Hslot, ?lookup_new_proc, ?lookup_set_new_proc.
  all: run_ffplay.
  all: destruct (fs w !! temp_path) as [[d|]|] eqn:Hl.
  all: repeat (progress (run_ffplay; rewrite ?Hrc, ?lookup_delete_eq, ?Hl,
                                  ?lookup_new_proc, ?lookup_set_new_proc)).
  all: split; run_ffplay; rewrite ?set_new_proc; auto.
Qed.

Lemma ffplay_stage_children (env : stage_env) (original_path : string) (w : world) :
  procs (snd (Ffplay.copy_to_temp_md5 env original_path w)) = procs w
  /\ ffplay_process (snd (Ffplay.copy_to_temp_md5 env original_path w)) = ffplay_process w.
Proof.
  unfold Ffplay.copy_to_temp_md5.
  destruct (Path.splitext (Path.basename original_path)) as [stem ext].
  run. set (dest := Path.join (tempdir w) _).
  destruct (stage_attempt_outcome env original_path (tempdir w) ext dest
              (with_tmp_path None w) eq_refl)
    as (r & w1 & Hrun & Hsame & Hr).
  rewrite Hrun. destruct Hsame as (_ & _ & Hprocs & Hslot & _).
  destruct r as [o|e|]; [done| |done].
  destruct Hr as [He Ht]. rewrite He. run.
  destruct (tmp_path w1) as [t|] eqn:Htp; run; rewrite ?Htp; run; [|done].
  destruct Ht as [Ht|[d Ht]]; rewrite Ht; run; rewrite ?Htp; run; rewrite ?Ht; run; done.
Qed.

(** One track of the ffplay loop: the global is cleared; no child is
    left unless a second Ctrl+C cut the wait for it; and the loop goes on
    unless the interrupt arrived. *)
Lemma ffplay_iteration_outcome (env : Ffplay.iter_env) (song : string) (w : world) :
  no_player w ->
  exists (r : res unit) (w' : world),
    Ffplay.iteration env song w = (r, w')
    /\ ffplay_process w' = None
    /\ (none_running w'
        \/ r = Raise KeyboardInterrupt /\ one_interrupt (Ffplay.play env) = false)
    /\ (r = Ret tt \/ r = Raise KeyboardInterrupt
        \/ spawn_error_ordinary (Ffplay.play env) = false).
Proof.
  intros Hidle. unfold Ffplay.iteration. run.
  set (w0 := with_event _ w).
  assert (Hidle0 : no_player w0) by done.
  destruct (ffplay_stage_total (Ffplay.stage env) song w0) as (o & w1 & Hrun & _ & Hfile).
  pose proof (ffplay_stage_children (Ffplay.stage env) song w0) as [Hprocs Hslot].
  rewrite Hrun in *. simpl in Hprocs, Hslot.
  assert (Hidle1 : no_player w1).
  { destruct Hidle0 as [H0 H0']. split; [by rewrite Hslot|by rewrite Hprocs]. }
  destruct o as [t|]; run.
  - pose proof (ffplay_play_and_cleanup_no_player (Ffplay.play env) t w1 Hidle1)
      as [Hslot2 Hprocs2].
    destruct (ffplay_play_and_cleanup_outcome (Ffplay.play env) t w1)
      as (w2 & Hplay & _); [by apply Hfile|by destruct Hidle1|].
    rewrite Hplay in *. simpl in Hslot2, Hprocs2. eexists _, w2. split; [reflexivity|].
    split; [done|]. split.
    + destruct Hprocs2 as [?|[? ?]]; auto.
    + unfold spawn_error_ordinary.
      destruct (Ffplay.spawn_error (Ffplay.play env)) as [[]|]; auto.
      destruct (Ffplay.wait_result (Ffplay.play env)); auto.
  - eexists _, _. split; [reflexivity|]. destruct Hidle1.
    split; [done|]. split; [by left|by left].
Qed.

Lemma ffplay_for_songs_outcome (songs : list string) :
  forall (envs : list Ffplay.iter_env) (w : world),
    no_player w ->
    exists (r : res unit) (w' : world),
      Ffplay.for_songs songs envs w = (r, w')
      /\ ffplay_process w' = None
      /\ (none_running w'
          \/ r = Raise KeyboardInterrupt
             /\ ~ Forall (fun env => one_interrupt (Ffplay.play env) = true) envs)
      /\ (r = Ret tt \/ r = Pending \/ r = Raise KeyboardInterrupt
          \/ ~ Forall (fun env => spawn_error_ordinary (Ffplay.play env) = true) envs).
Proof.
  induction songs as [|song rest IH]; intros envs w Hidle.
  - exists (Ret tt), w. destruct Hidle. split; [done|]. split; [done|].
    split; [by left|]. auto 6.
  - destruct envs as [|env envs].
    { exists Pending, w. destruct Hidle. split; [done|]. split; [done|].
      split; [by left|]. auto 6. }
    simpl. unfold bind.
    destruct (ffplay_iteration_outcome env song w Hidle)
      as (r & w1 & Hrun & Hslot1 & Hprocs1 & Hr).
    rewrite Hrun.
    assert (Hbad : spawn_error_ordinary (Ffplay.play env) = false ->
                   ~ Forall (fun env => spawn_error_ordinary (Ffplay.play env) = true)
                       (env :: envs)).
    { intros E H. inversion H; congruence. }
    assert (Hleft : forall e, r = Raise e ->
              none_running w1
              \/ @Raise unit e = Raise KeyboardInterrupt
                 /\ ~ Forall (fun env => one_interrupt (Ffplay.play env) = true)
                      (env :: envs)).
    { intros e ->. destruct Hprocs1 as [Hq|[Hq E]]; [by left|right]. split; [done|].
      intros HF. inversion HF; congruence. }
    destruct r as [[]|e|].
    + assert (Hidle1 : no_player w1).
      { split; [done|]. by destruct Hprocs1 as [?|[? _]]. }
      destruct (IH envs w1 Hidle1) as (r' & w2 & Hrun' & Hslot2 & Hprocs2 & Hr').
      exists r', w2. split; [done|]. split; [done|]. split.
      * destruct Hprocs2 as [Hq|[Hq Hn]]; [by left|right]. split; [done|].
        intros HF. inversion HF; auto.
      * destruct Hr as [_|[?|Hr]]; [|done|].
        -- destruct Hr' as [?|[?|[?|Hr']]]; auto.
           do 3 right. intros H. inversion H; auto.
        -- do 3 right. by apply Hbad.
    + exists (Raise e), w1. split; [done|]. split; [done|].
      split; [by apply Hleft|].
      destruct Hr as [?|[->|Hr]]; [done|auto 6|]. do 3 right. by apply Hbad.
    + exists Pending, w1. split; [done|]. split; [done|].
      split; [by destruct Hprocs1 as [?|[? _]]; [left|]|]. auto 6.
Qed.

(** [while True] never ends by itself. *)
Lemma ffplay_while_True_outcome (passes : list Ffplay.pass_env) :
  forall (songs : list string) (w : world),
    no_player w ->
    exists (r : res unit) (w' : world),
      Ffplay.while_True songs passes w = (r, w')
      /\ ffplay_process w' = None
      /\ (none_running w'
          \/ r = Raise KeyboardInterrupt /\ ~ single_interrupts passes)
      /\ (r = Pending \/ r = Raise KeyboardInterrupt \/ ~ spawn_errors_ordinary passes).
Proof.
  unfold single_interrupts, spawn_errors_ordinary.
  induction passes as [|p rest IH]; intros songs w Hidle.
  - exists Pending, w. destruct Hidle. split; [done|]. split; [done|].
    split; [by left|]. auto 6.
  - simpl. unfold bind.
    destruct (ffplay_for_songs_outcome (Ffplay.shuffle p songs) (Ffplay.tracks p) w Hidle)
      as (r & w1 & Hrun & Hslot1 & Hprocs1 & Hr).
    rewrite Hrun.
    destruct r as [[]|e|].
    + assert (Hidle1 : no_player w1).
      { split; [done|]. by destruct Hprocs1 as [?|[? _]]. }
      destruct (IH (Ffplay.shuffle p songs) w1 Hidle1)
        as (r' & w2 & Hrun' & Hslot2 & Hprocs2 & Hr').
      exists r', w2. split; [done|]. split; [done|]. split.
      * destruct Hprocs2 as [Hq|[Hq Hn]]; [by left|right]. split; [done|].
        intros HF. inversion HF; auto.
      * destruct Hr' as [?|[?|Hr']]; auto.
        do 2 right. intros H. inversion H; auto.
    + exists (Raise e), w1. split; [done|]. split; [done|]. split.
      * destruct Hprocs1 as [Hq|[Hq Hn]]; [by left|right]. split; [done|].
        intros HF. inversion HF; auto.
      * destruct Hr as [?|[?|[->|Hr]]]; try done; auto.
        do 2 right. intros H. inversion H; auto.
    + exists Pending, w1. split; [done|]. split; [done|].
      split; [by destruct Hprocs1 as [?|[? _]]; [left|]|]. auto 6.
Qed.

Lemma ffplay_playback_outcome (songs : list string) (passes : list Ffplay.pass_env)
      (w : world) :
  no_player w ->
  exists (r r' : res unit) (w1 w' : world),
    Ffplay.while_True songs passes w = (r, w1)
    /\ Ffplay.playback songs passes w = (r', w')
    /\ ffplay_process w' = None
    /\ (none_running w' \/ ~ single_interrupts passes)
    /\ (r = Pending /\ r' = Pending
        \/ r = Raise KeyboardInterrupt /\ r' = Raise (SystemExit 0)
        \/ ~ spawn_errors_ordinary passes).
Proof.
  intros Hidle. unfold Ffplay.playback, try_except.
  destruct (ffplay_while_True_outcome passes songs w Hidle)
    as (r & w1 & Hrun & Hslot1 & Hprocs1 & Hr).
  rewrite Hrun. exists r.
  assert (Hprocs : none_running w1 \/ ~ single_interrupts passes)
    by (destruct Hprocs1 as [?|[_ ?]]; auto).
  destruct r as [[]|e|].
  - exists (Ret tt), w1, w1. split; [done|]. split; [done|]. split; [done|].
    split; [done|]. destruct Hr as [?|[?|?]]; try done. by auto.
  - destruct e; try (eexists _, w1, w1; split; [reflexivity|]; split; [reflexivity|];
                     split; [done|]; split; [done|];
                     destruct Hr as [?|[?|?]]; try done; by auto).
    run_ffplay. rewrite Hslot1. run_ffplay.
    eexists _, w1, _. split; [reflexivity|]. split; [reflexivity|].
    split; [done|]. split; [done|]. by auto.
  - exists Pending, w1, w1. split; [done|]. split; [done|]. split; [done|].
    split; [done|]. auto 6.
Qed.

(** The checks of [startup] touch neither the global nor a process, and
    fail with status 1 only. *)
Lemma ffplay_startup_outcome (argv : list string) (env : Ffplay.startup_env) (w : world) :
  exists (r : res (list string)) (w' : world),
    Ffplay.startup argv env w = (r, w')
    /\ procs w' = procs w /\ ffplay_process w' = ffplay_process w
    /\ ((exists songs, r = Ret songs) \/ r = Raise (SystemExit 1)).
Proof.
  unfold Ffplay.startup.
  destruct (length argv =? 2)%nat eqn:Hargc; run.
  2:{ eexists _, _. split; [reflexivity|]. auto 8. }
  destruct (fs w !! nth 1 argv "") as [[data|]|] eqn:Hdir; run;
    try (eexists _, _; split; [reflexivity|]; auto 8).
  destruct (Ffplay.which env "ffplay") eqn:Hwhich.
  2:{ destruct (ffplay_check_missing env w Hwhich) as [lines ->].
      destruct (with_eprints_fields lines w) as (? & ? & ? & ? & ? & ?).
      eexists _, _. split; [reflexivity|]. auto 8. }
  rewrite (ffplay_check_found env w Hwhich). run.
  destruct (gather_music_files (Ffplay.walk env)) as [|song rest]; run;
    eexists _, _; (split; [reflexivity|]); eauto.
Qed.

(** X10.  When the ffplay script has ended, and whenever it is between
    two tracks, the global holds no process; and no child process it
    started is still running, whatever happened to the tracks played so
    far, unless Ctrl+C arrived a second time while [cleanup_ffplay]
    waited for the player (that child is then left as it is). *)
Theorem ffplay_leaves_no_player (argv : list string) (env : Ffplay.startup_env)
        (passes : list Ffplay.pass_env) (files : gmap string entry) (td : string) :
  ffplay_process (snd (Ffplay.program argv env passes (boot files td))) = None
  /\ (single_interrupts passes ->
      none_running (snd (Ffplay.program argv env passes (boot files td)))).
Proof.
  unfold Ffplay.program, Ffplay.main, bind.
  destruct (ffplay_startup_outcome argv env (boot files td))
    as (r0 & w0 & Hstart & Hprocs & Hslot & Hr0).
  rewrite Hstart.
  assert (Hidle0 : no_player w0) by (split; [by rewrite Hslot|by rewrite Hprocs]).
  assert (Hexit : forall w, ffplay_process w = None ->
            snd (fold_right (fun h k => bind (Ffplay.run_handler h) (fun _ => k))
                            (ret tt) (rev (atexit w)) w) = w).
  { intros w Hw. by rewrite ffplay_handlers_idle. }
  destruct r0 as [songs|e|]; [|rewrite Hexit by apply Hidle0; by destruct Hidle0|
                              by destruct Hidle0].
  destruct (ffplay_playback_outcome songs passes w0 Hidle0)
    as (r & r' & w1 & w2 & _ & Hrun & Hslot2 & Hprocs2 & _).
  rewrite Hrun.
  assert (Hend : ffplay_process w2 = None /\ (single_interrupts passes -> none_running w2))
    by (split; [done|]; intros Hs; by destruct Hprocs2).
  destruct r'; simpl; rewrite ?Hexit by done; exact Hend.
Qed.

Lemma ffplay_leaves_no_player_witness :
  none_running (snd (Ffplay.program ["player"; "/music"] ffplay_installed
                                    ffplay_interrupted_pass (boot library "/tmp"))).
Proof.
  apply (ffplay_leaves_no_player ["player"; "/music"] ffplay_installed
           ffplay_interrupted_pass library "/tmp").
  repeat constructor.
Defined.

(** X11.  The exit status of the ffplay script, for songs with ASCII
    names: 1 when a start-up check fails.  Once the loop has started it
    never returns: the script runs on, or Ctrl+C ends the loop and the
    status is 0. *)
Theorem ffplay_exit_status (argv : list string) (env : Ffplay.startup_env)
        (passes : list Ffplay.pass_env) (files : gmap string entry) (td : string) :
  ascii_names (gather_music_files (Ffplay.walk env)) ->
  ffplay_shuffles passes ->
  spawn_errors_ordinary passes ->
  match Ffplay.startup argv env (boot files td) with
  | (Ret songs, w0) =>
      fst (Ffplay.while_True songs passes w0) = Pending
      /\ fst (Ffplay.program argv env passes (boot files td)) = None
      \/ fst (Ffplay.while_True songs passes w0) = Raise KeyboardInterrupt
         /\ fst (Ffplay.program argv env passes (boot files td)) = Some 0
  | _ => fst (Ffplay.program argv env passes (boot files td)) = Some 1
  end.
Proof.
  intros _ _ Hspawn. unfold Ffplay.program, Ffplay.main, bind.
  destruct (ffplay_startup_outcome argv env (boot files td))
    as (r0 & w0 & Hstart & Hprocs & Hslot & Hr0).
  rewrite Hstart.
  assert (Hidle0 : no_player w0) by (split; [by rewrite Hslot|by rewrite Hprocs]).
  destruct Hr0 as [[songs ->] | ->]; [|done].
  destruct (ffplay_playback_outcome songs passes w0 Hidle0)
    as (r & r' & w1 & w2 & Hloop & Hrun & _ & _ & Hr).
  rewrite Hrun, Hloop. destruct Hr as [[-> ->] | [[-> ->] | Hr]]; [by left|by right|done].
Qed.

Lemma ffplay_exit_status_witness :
  fst (Ffplay.while_True ["/music/songA.mp3"; "/music/songB.flac"]
         ffplay_interrupted_pass
         (snd (Ffplay.startup ["player"; "/music"] ffplay_installed (boot library "/tmp"))))
  = Raise KeyboardInterrupt
  /\ fst (Ffplay.program ["player"; "/music"] ffplay_installed ffplay_interrupted_pass
                         (boot library "/tmp")) = Some 0.
Proof.
  pose proof (ffplay_exit_status ["player"; "/music"] ffplay_installed
                ffplay_interrupted_pass library "/tmp") as H.
  destruct H as [[H _]|H].
  - repeat (constructor; [reflexivity|]). constructor.
  - constructor; [intros songs; reflexivity|constructor].
  - repeat constructor.
  - vm_compute in H. discriminate H.
  - exact H.
Defined.

(* ================================================================== *)
(** ** One pass over the songs *)
(* ================================================================== *)

(** A track of the ffplay loop, however it goes, adds its own
    announcement and no other. *)
Lemma ffplay_iteration_announces (env : Ffplay.iter_env) (song : string) (w : world) :
  announcements (snd (Ffplay.iteration env song w))
  = (announcements w ++ [Print ("Now playing: " ++ Path.basename song)])%list.
Proof.
  unfold Ffplay.iteration. unfold bind at 1. unfold print at 1, modify at 1.
  cbv beta iota.
  match goal with |- context [snd (?m ?v)] => set (rest := m); set (w0 := v) end.
  assert (Hst : Stable (tempdir w) (fun _ => True) same_announcements rest).
  { subst rest. eapply Stable_bind; [apply (same_announcements_respects (fun _ => True))| |].
    - apply (Stable_copy_to_temp_md5 _ _ (fun _ => True) _ (same_announcements_respects _)
               (fun _ _ => I) ffplay); done.
    - intros [t|].
      + eapply Stable_ffplay_play_and_cleanup;
        [apply (same_announcements_respects (fun _ => True))|done].
      + eapply Stable_print; [apply (same_announcements_respects (fun _ => True))|done]. }
  destruct (Hst w0) as [_ Hsame]; [done|]. rewrite Hsame.
  unfold announcements. subst w0. simpl trace. rewrite List.filter_app.
  cbn [List.filter is_announcement]. by rewrite string_prefix_app.
Qed.

(** X12.  A pass of the ffplay loop over songs with ASCII names that no
    Ctrl+C cuts short goes through the whole list: each song is
    announced once, in the order of the shuffled list, also when its
    copy or its playback fails. *)
Theorem ffplay_pass_announces_every_track (songs : list string) :
  ascii_names songs ->
  forall (envs : list Ffplay.iter_env) (w : world),
    Forall (fun env => no_interrupt (Ffplay.play env) = true) envs ->
    (length songs <= length envs)%nat ->
    ffplay_process w = None ->
    exists w',
      Ffplay.for_songs songs envs w = (Ret tt, w')
      /\ announcements w'
         = (announcements w
              ++ map (fun song => Print ("Now playing: " ++ Path.basename song)) songs)%list.
Proof.
  intros _. induction songs as [|song rest IH]; intros envs w Hq Hlen Hslot.
  - exists w. split; [done|]. by rewrite app_nil_r.
  - destruct envs as [|env envs]; [simpl in Hlen; lia|].
    inversion Hq as [|? ? Hq1 Hq2]; subst.
    destruct (ffplay_iteration_carries_on env song w Hq1 Hslot) as (w1 & Hrun & Hslot1).
    pose proof (ffplay_iteration_announces env song w) as Hann. rewrite Hrun in Hann.
    simpl snd in Hann.
    destruct (IH envs w1 Hq2) as (w2 & Hrest & Hann2); [simpl in Hlen; lia|done|].
    exists w2. simpl Ffplay.for_songs. unfold bind. rewrite Hrun. split; [exact Hrest|].
    rewrite Hann2, Hann. simpl map. by rewrite <- app_assoc.
Qed.

Lemma ffplay_pass_announces_every_track_witness :
  exists w',
    Ffplay.for_songs ["/music/songA.mp3"; "/music/gone.mp3"]
      [ffplay_rejected_and_unlinked; ffplay_rejected_and_unlinked]
      (boot library "/tmp") = (Ret tt, w')
    /\ announcements w'
       = (announcements (boot library "/tmp")
            ++ map (fun song => Print ("Now playing: " ++ Path.basename song))
                   ["/music/songA.mp3"; "/music/gone.mp3"])%list.
Proof.
  apply (ffplay_pass_announces_every_track ["/music/songA.mp3"; "/music/gone.mp3"]).
  - repeat (constructor; [reflexivity|]). constructor.
  - repeat constructor.
  - simpl. lia.
  - reflexivity.
Defined.

(* ================================================================== *)
(** ** The staged file comes and goes *)
(* ================================================================== *)

(** X13.  One track of the ffplay loop whose copy succeeds leaves the
    file system as it found it, but for a stale file at the staged path,
    which is gone: whatever the player does (plays to the end, fails,
    cannot be started, is interrupted), the staged copy is removed and
    nothing else is touched. *)
Theorem ffplay_iteration_restores_files (env : Ffplay.iter_env) (song r : string)
        (data : list ascii) (w : world) :
  rnd (Ffplay.stage env) = Some r ->
  String.length r = 8%nat ->
  write_fail (Ffplay.stage env) = None ->
  (0 < bufsize (Ffplay.stage env))%nat ->
  fs w !! scratch_path w r song = None ->
  fs w !! song = Some (File data) ->
  fs w !! dest_path w song <> Some Dir ->
  ffplay_process w = None ->
  fs (snd (Ffplay.iteration env song w)) = delete (dest_path w song) (fs w).
Proof.
  intros Hr Hlen Hf Hb Hfresh Hsrc Hdir Hslot.
  unfold Ffplay.iteration. unfold bind at 1. unfold print at 1, modify at 1.
  cbv beta iota. set (w0 := with_event _ w).
  destruct (copy_to_temp_md5_ok ffplay (Ffplay.stage env) song r data w0
              Hr Hlen Hf Hb Hfresh Hsrc Hdir) as (w1 & Hrun & Hfs1 & Hsame & _).
  simpl copy_to_temp_md5 in Hrun. unfold bind. rewrite Hrun. cbv beta iota.
  change (dest_path w0 song) with (dest_path w song) in *.
  set (dest := dest_path w song) in *.
  destruct (ffplay_play_and_cleanup_outcome (Ffplay.play env) dest w1)
    as (w2 & Hplay & Hgone & _).
  { rewrite Hfs1, lookup_insert_eq. done. }
  { destruct Hsame as (_ & _ & _ & -> & _). done. }
  destruct (Stable_ffplay_play_and_cleanup (tempdir w1) (fun _ => True) (fun q => q = dest)
              (same_elsewhere _) (same_elsewhere_respects _) (Ffplay.play env) dest
              eq_refl w1) as [_ Hframe]; [done|].
  rewrite Hplay in *. simpl snd in *.
  apply map_eq. intros q. destruct (decide (q = dest)) as [->|Hq].
  - by rewrite lookup_delete_eq.
  - rewrite lookup_delete_ne by done. rewrite (Hframe q Hq), Hfs1.
    by rewrite lookup_insert_ne.
Qed.

Lemma ffplay_iteration_restores_files_witness :
  fs (snd (Ffplay.iteration ffplay_rejected_and_unlinked "/music/songA.mp3"
                            (boot library_stale "/tmp")))
  = delete (dest_path (boot library_stale "/tmp") "/music/songA.mp3")
           (fs (boot library_stale "/tmp")).
Proof.
  apply (ffplay_iteration_restores_files ffplay_rejected_and_unlinked "/music/songA.mp3"
           "k3x9_q2a" (list_ascii_of_string "ID3-songA-bytes")); try reflexivity.
  - simpl. lia.
  - vm_compute. discriminate.
Defined.

(** X14.  One track of the termux loop whose copy succeeds, and which
    comes to an end at all (played, rejected, interrupted, or ended by
    an error), leaves the file system as it found it, but for a stale
    file at the staged path, which is gone: the staged copy is removed
    and nothing else is touched. *)
Theorem termux_iteration_restores_files (env : Termux.iter_env) (song r : string)
        (data : list ascii) (w : world) :
  rnd (Termux.stage env) = Some r ->
  String.length r = 8%nat ->
  write_fail (Termux.stage env) = None ->
  (0 < bufsize (Termux.stage env))%nat ->
  fs w !! scratch_path w r song = None ->
  fs w !! song = Some (File data) ->
  fs w !! dest_path w song <> Some Dir ->
  fst (Termux.iteration env song w) <> Pending ->
  fs (snd (Termux.iteration env song w)) = delete (dest_path w song) (fs w).
Proof.
  intros Hr Hlen Hf Hb Hfresh Hsrc Hdir.
  set (w0 := with_event (Print ("Now playing: " ++ Path.basename song)) w).
  destruct (copy_to_temp_md5_ok termux (Termux.stage env) song r data w0
              Hr Hlen Hf Hb Hfresh Hsrc Hdir) as (w1 & Hrun & Hfs1 & Hsame & _).
  simpl copy_to_temp_md5 in Hrun.
  change (dest_path w0 song) with (dest_path w song) in *.
  set (dest := dest_path w song) in *.
  assert (Hiter : Termux.iteration env song w = Termux.play_and_cleanup env dest w1).
  { unfold Termux.iteration. unfold bind at 1. unfold print at 1, modify at 1.
    cbv beta iota. fold w0. unfold bind. by rewrite Hrun. }
  rewrite Hiter. intros Hends.
  destruct (termux_play_and_cleanup_removes env dest w1) as [Hp|Hgone]; [|done|].
  { rewrite Hfs1, lookup_insert_eq. done. }
  destruct (Stable_termux_play_and_cleanup (tempdir w1) (fun _ => True) (fun q => q = dest)
              (same_elsewhere _) (same_elsewhere_respects _) env dest
              eq_refl w1) as [_ Hframe]; [done|].
  apply map_eq. intros q. destruct (decide (q = dest)) as [->|Hq].
  - by rewrite lookup_delete_eq.
  - rewrite lookup_delete_ne by done. rewrite (Hframe q Hq), Hfs1.
    by rewrite lookup_insert_ne.
Qed.

Lemma termux_iteration_restores_files_witness :
  fs (snd (Termux.iteration termux_plays "/music/songA.mp3" (boot library_stale "/tmp")))
  = delete (dest_path (boot library_stale "/tmp") "/music/songA.mp3")
           (fs (boot library_stale "/tmp")).
Proof.
  apply (termux_iteration_restores_files termux_plays "/music/songA.mp3"
           "k3x9_q2a" (list_ascii_of_string "ID3-songA-bytes")); try reflexivity.
  - simpl. lia.
  - vm_compute. discriminate.
  - vm_compute. discriminate.
Defined.

(* ================================================================== *)
(** ** The termux script: waiting for the track, stopping at exit *)
(* ================================================================== *)

Lemma termux_is_playing_busy (returncode : Z) (output : string) (w : world) :
  (returncode =? 0) && negb (Termux.contains "No track currently" output) = true ->
  Termux.is_playing (Termux.Returns returncode output) w
  = (Ret true, with_event (Run info_cmd) w).
Proof.
  intros H. apply andb_true_iff in H as [Hrc Hout]. apply negb_true_iff in Hout.
  run_termux. rewrite Hrc. run_termux. by rewrite Hout.
Qed.

Lemma termux_is_playing_end (o : Termux.run_outcome) (w : world) :
  reports_end o = true ->
  exists w',
    Termux.is_playing o w = (Ret false, w')
    /\ trace w' = (trace w ++ [Run info_cmd])%list /\ fs w' = fs w.
Proof.
  destruct o as [rc out| |]; [|done..]. intros H. simpl in H.
  run_termux.
  destruct (rc =? 0); simpl in H; run_termux.
  - rewrite H. run_termux. by eexists.
  - by eexists.
Qed.

(** X15.  The wait after a successful [play]: the script asks [info]
    once a second for as long as a track is shown, sleeping one second
    after each such answer, and goes on at the first answer that fails
    or shows no track, without another sleep and without touching a
    file. *)
Theorem termux_wait_polls_until_end (busy : list (Termux.run_outcome * bool))
        (o : Termux.run_outcome) (interrupted : bool)
        (rest : list (Termux.run_outcome * bool)) :
  forall w : world,
    forallb still_playing busy = true ->
    reports_end o = true ->
    exists w',
      Termux.wait_until_finished (busy ++ (o, interrupted) :: rest) w = (Ret tt, w')
      /\ trace w'
         = (trace w ++ flat_map (fun _ => [Run info_cmd; Sleep 1]) busy
              ++ [Run info_cmd])%list
      /\ fs w' = fs w.
Proof.
  induction busy as [|[o1 i1] busy IH]; intros w Hbusy Hend.
  - simpl. unfold bind.
    destruct (termux_is_playing_end o w Hend) as (w' & -> & Htrace & Hfs). by exists w'.
  - simpl in Hbusy. apply andb_true_iff in Hbusy as [H1 Hbusy].
    destruct o1 as [rc out| |]; [|done..].
    apply andb_true_iff in H1 as [H1 Hi]. apply negb_true_iff in Hi. subst i1.
    simpl app. simpl Termux.wait_until_finished. unfold bind at 1.
    rewrite (termux_is_playing_busy rc out w H1). run_termux.
    destruct (IH (with_event (Sleep 1) (with_event (Run info_cmd) w)) Hbusy Hend)
      as (w' & Hrun & Htrace & Hfs).
    exists w'. split; [exact Hrun|]. split; [|exact Hfs].
    rewrite Htrace. simpl. by rewrite <- !app_assoc.
Qed.

Lemma termux_wait_polls_until_end_witness :
  exists w',
    Termux.wait_until_finished
      ([(Termux.Returns 0 "Track: a.mp3", false); (Termux.Returns 0 "Track: a.mp3", false)]
         ++ (Termux.Returns 0 "No track currently!", false) :: [])
      (boot library "/tmp") = (Ret tt, w')
    /\ trace w'
       = (trace (boot library "/tmp")
            ++ flat_map (fun _ => [Run info_cmd; Sleep 1])
                 [(Termux.Returns 0 "Track: a.mp3", false);
                  (Termux.Returns 0 "Track: a.mp3", false)]
            ++ [Run info_cmd])%list
    /\ fs w' = fs (boot library "/tmp").
Proof.
  apply (termux_wait_polls_until_end
           [(Termux.Returns 0 "Track: a.mp3", false); (Termux.Returns 0 "Track: a.mp3", false)]
           (Termux.Returns 0 "No track currently!") false []); reflexivity.
Defined.

Lemma termux_startup_registers (argv : list string) (env : Termux.startup_env) (w : world) :
  length argv = 2%nat ->
  fs w !! nth 1 argv "" = Some Dir ->
  exists (r : res (list string)) (w' : world),
    Termux.startup argv env w = (r, w')
    /\ atexit w' = (atexit w ++ [stop_music_handler])%list
    /\ tempdir w' = tempdir w /\ tmp_path w' = tmp_path w
    /\ r <> Pending.
Proof.
  intros Hargc Hdir. unfold Termux.startup.
  replace (length argv =? 2)%nat with true by (symmetry; by apply Nat.eqb_eq).
  run. rewrite Hdir. run.
  destruct (gather_music_files (Termux.walk env)) as [|song rest]; run;
    eexists _, _; (split; [reflexivity|]); by repeat split.
Qed.

(** X16.  The stop at exit: once the folder check has passed, every
    end of the termux script (no song found, Ctrl+C, an error that ends
    the loop) has the call of [stop_music] by the exit handler as the
    last thing the script does: the [stop] command, however it ends, or,
    when the executable is missing, the line that reports the error. *)
Theorem termux_stops_player_at_exit (argv : list string) (env : Termux.startup_env)
        (passes : list Termux.pass_env) (files : gmap string entry) (td : string) :
  length argv = 2%nat ->
  files !! nth 1 argv "" = Some Dir ->
  fst (Termux.program argv env passes (boot files td)) <> None ->
  last (trace (snd (Termux.program argv env passes (boot files td))))
  = Some (stop_attempt (Termux.stop_at_exit env)).
Proof.
  intros Hargc Hdir. unfold Termux.program, Termux.main, bind.
  destruct (termux_startup_registers argv env (boot files td) Hargc Hdir)
    as (r0 & w0 & Hstart & Hreg & Htd & Htmp & Hr0).
  rewrite Hstart. simpl in Hreg.
  assert (Hexit : forall w,
            atexit w = [stop_music_handler] ->
            last (trace (snd (fold_right
                                (fun h k => bind (Termux.run_handler env h) (fun _ => k))
                                (ret tt) (rev (atexit w)) w)))
            = Some (stop_attempt (Termux.stop_at_exit env))).
  { intros w Hw. rewrite Hw. cbn [rev app fold_right]. unfold bind, ret.
    destruct (termux_stop_handler_runs env w) as (w' & -> & _ & _ & Htr).
    cbn [snd]. by rewrite Htr, last_snoc. }
  destruct r0 as [songs|e|]; [|intros _; by apply Hexit|done].
  destruct (Stable_termux_playback td (fun _ => True) same_handlers
              (same_handlers_respects _) (fun _ _ => eq_refl) (fun _ _ => I)
              env songs passes w0) as [_ Hsame].
  { split; [done|]. rewrite Htmp. done. }
  destruct (Termux.playback env songs passes w0) as [r w1]. simpl in Hsame.
  unfold same_handlers in Hsame. rewrite Hreg in Hsame.
  destruct r; simpl; try done; intros _; by apply Hexit.
Qed.

Lemma termux_stops_player_at_exit_witness :
  last (trace (snd (Termux.program ["player"; "/music"] termux_installed
                                   termux_interrupted_pass (boot library "/tmp"))))
  = Some (Run stop_cmd)
  /\ last (trace (snd (Termux.program ["player"; "/music"] termux_absent
                                      termux_interrupted_pass (boot library "/tmp"))))
     = Some (Print ("Error while stopping music: " ++ exn_text FileNotFoundError)).
Proof.
  split.
  - apply (termux_stops_player_at_exit ["player"; "/music"] termux_installed
             termux_interrupted_pass library "/tmp").
    + reflexivity.
    + reflexivity.
    + vm_compute. discriminate.
  - apply (termux_stops_player_at_exit ["player"; "/music"] termux_absent
             termux_interrupted_pass library "/tmp").
    + reflexivity.
    + reflexivity.
    + vm_compute. discriminate.
Defined.
(* ================================================================== *)
(** ** What the termux script can end with *)
(* ================================================================== *)

Section Raises.
Variable P : exn -> Prop.

Lemma Raises_never {A} (m : M A) :
  (forall w, exists a w', m w = (Ret a, w')) -> Raises P m.
Proof. intros H w e w' E. destruct (H w) as (a & w1 & E1). congruence. Qed.

Lemma Raises_ret {A} (a : A) : Raises P (ret a).
Proof. by intros w e w'. Qed.

Lemma Raises_pending {A} : Raises P (@pending A).
Proof. by intros w e w'. Qed.

Lemma Raises_get {A} (f : world -> A) : Raises P (get f).
Proof. by intros w e w'. Qed.

Lemma Raises_modify (f : world -> world) : Raises P (modify f).
Proof. by intros w e w'. Qed.

Lemma Raises_print (text : string) : Raises P (print text).
Proof. apply Raises_modify. Qed.

Lemma Raises_raise {A} (e : exn) : P e -> Raises P (@raise A e).
Proof. intros He w e' w' [= <- _]. exact He. Qed.

Lemma Raises_bind {A B} (m : M A) (k : A -> M B) :
  Raises P m -> (forall a, Raises P (k a)) -> Raises P (bind m k).
Proof.
  intros Hm Hk w e w'. unfold bind. specialize (Hm w).
  destruct (m w) as [[a|e1|] w1]; [apply Hk| |done].
  intros [= <- <-]. by eapply Hm.
Qed.

Lemma Raises_try_except {A} (m : M A) (h : exn -> option (M A)) :
  Raises P m ->
  (forall e k, h e = Some k -> Raises P k) ->
  Raises P (try_except m h).
Proof.
  intros Hm Hh w e w'. unfold try_except. specialize (Hm w).
  destruct (m w) as [[a|e1|] w1]; [done| |done].
  destruct (h e1) as [k|] eqn:Hk; [by apply (Hh e1 k)|].
  intros [= <- <-]. by eapply Hm.
Qed.

Lemma Raises_try_finally {A} (m : M A) (f : M unit) :
  Raises P m -> Raises P f -> Raises P (try_finally m f).
Proof.
  intros Hm Hf w e w'. unfold try_finally. specialize (Hm w).
  destruct (m w) as [r w1]. specialize (Hf w1).
  destruct r as [a|e1|]; [| |done]; destruct (f w1) as [[[]|e2|] w2]; try done.
  - intros [= <- <-]. by eapply Hf.
  - intros [= <- <-]. by eapply Hm.
  - intros [= <- <-]. by eapply Hf.
Qed.

Lemma Raises_when (b : bool) (m : M unit) : Raises P m -> Raises P (when b m).
Proof. intros Hm. destruct b; [exact Hm|apply Raises_ret]. Qed.

(** The exceptions of the file system calls are [OSError]s. *)
Hypothesis P_OSError : forall e, is_OSError e = true -> P e.

Lemma Raises_os_remove (p : string) : Raises P (os_remove p).
Proof.
  intros w e w'. unfold os_remove.
  destruct (fs w !! p) as [[d|]|]; [done|..]; intros [= <- _]; by apply P_OSError.
Qed.

Lemma Raises_os_rename (src dst : string) : Raises P (os_rename src dst).
Proof.
  intros w e w'. unfold os_rename.
  destruct (fs w !! src) as [x|]; [|intros [= <- _]; by apply P_OSError].
  destruct (fs w !! dst) as [[d|]|]; [done| |done]. intros [= <- _]. by apply P_OSError.
Qed.

Lemma Raises_open_rb (p : string) : Raises P (open_rb p).
Proof.
  intros w e w'. unfold open_rb.
  destruct (fs w !! p) as [[d|]|]; [done|..]; intros [= <- _]; by apply P_OSError.
Qed.

Lemma Raises_NamedTemporaryFile (env : stage_env) (dir suffix : string) :
  Raises P (NamedTemporaryFile env dir suffix).
Proof.
  intros w e w'. unfold NamedTemporaryFile.
  destruct (rnd env); [|intros [= <- _]; by apply P_OSError].
  destruct (fs w !! _); [|done]. intros [= <- _]. by apply P_OSError.
Qed.

Lemma Raises_copy_loop (env : stage_env) (fdst : string) :
  forall (fuel : nat) (fsrc : list ascii) (k : nat),
    Raises P (copy_loop fuel env fsrc fdst k).
Proof.
  induction fuel as [|fuel IH]; intros fsrc k; [apply Raises_pending|].
  simpl. destruct (firstn (bufsize env) fsrc); [apply Raises_ret|].
  apply Raises_bind; [|intros _; apply IH].
  intros w e w'. unfold file_write.
  destruct (bool_decide _); [intros [= <- _]; by apply P_OSError|].
  destruct (fs w !! fdst) as [[d|]|]; [done|..]; intros [= <- _]; by apply P_OSError.
Qed.

Lemma Raises_meanwhile_unlink (happens : bool) (p : string) :
  Raises P (meanwhile_unlink happens p).
Proof.
  intros w e w'. unfold meanwhile_unlink. destruct happens; [|done].
  by destruct (fs w !! p).
Qed.

Lemma Raises_remove_ignoring_OSError (p : string) :
  Raises P (remove_ignoring_OSError p).
Proof.
  apply Raises_try_except; [apply Raises_os_remove|].
  intros e k Hk. destruct (is_OSError e); [|done]. inversion Hk. apply Raises_ret.
Qed.

Hypothesis P_UnboundLocalError : P UnboundLocalError.

Lemma Raises_read_tmp_path : Raises P read_tmp_path.
Proof.
  intros w e w'. unfold read_tmp_path. destruct (tmp_path w); [done|].
  by intros [= <- _].
Qed.

Lemma Raises_stage_attempt (env : stage_env) (original_path temp_dir ext dest : string) :
  Raises P (stage_attempt env original_path temp_dir ext dest).
Proof.
  unfold stage_attempt. apply Raises_bind.
  - apply Raises_bind; [apply Raises_NamedTemporaryFile|]. intros tmp_file.
    apply Raises_bind; [apply Raises_open_rb|]. intros src.
    apply Raises_bind; [apply Raises_copy_loop|]. intros _. apply Raises_modify.
  - intros _. apply Raises_bind; [apply Raises_get|]. intros e.
    apply Raises_bind; [apply Raises_when, Raises_os_remove|]. intros _.
    apply Raises_bind; [apply Raises_read_tmp_path|]. intros tmp.
    apply Raises_bind; [apply Raises_os_rename|]. intros _. apply Raises_ret.
Qed.

Lemma Raises_termux_copy_to_temp_md5 (env : stage_env) (original_path : string) :
  Raises P (Termux.copy_to_temp_md5 env original_path).
Proof.
  unfold Termux.copy_to_temp_md5.
  destruct (Path.splitext (Path.basename original_path)) as [stem ext].
  apply Raises_bind; [apply Raises_modify|]. intros _.
  apply Raises_bind; [apply Raises_get|]. intros temp_dir.
  apply Raises_try_except; [apply Raises_stage_attempt|].
  intros e k Hk. destruct (is_Exception e); [|done]. inversion Hk.
  apply Raises_bind; [apply Raises_print|]. intros _.
  apply Raises_bind; [apply Raises_read_tmp_path|]. intros tmp.
  apply Raises_bind; [apply Raises_get|]. intros c.
  apply Raises_bind; [|intros _; apply Raises_ret].
  apply Raises_when, Raises_bind; [apply Raises_read_tmp_path|]. intros t.
  apply Raises_os_remove.
Qed.

(** A command fails with a missing executable, a non-zero status or the
    interrupt. *)
Hypothesis P_KeyboardInterrupt : P KeyboardInterrupt.
Hypothesis P_CalledProcessError : forall rc, P (CalledProcessError rc).
Hypothesis P_exit_1 : P (SystemExit 1).

Lemma Raises_subprocess_run (cmd : list string) (check : bool) (o : Termux.run_outcome) :
  Raises P (Termux.subprocess_run cmd check o).
Proof.
  unfold Termux.subprocess_run. destruct o as [rc out| |].
  - apply Raises_bind; [apply Raises_modify|]. intros _.
    destruct (check && _); [by apply Raises_raise|apply Raises_ret].
  - by apply Raises_raise, P_OSError.
  - apply Raises_bind; [apply Raises_modify|]. intros _. by apply Raises_raise.
Qed.

Lemma Raises_stop_music (o : Termux.run_outcome) : Raises P (Termux.stop_music o).
Proof.
  unfold Termux.stop_music. apply Raises_try_except.
  - apply Raises_bind; [apply Raises_subprocess_run|]. intros _. apply Raises_ret.
  - intros e k Hk. destruct (is_Exception e); [|done]. inversion Hk. apply Raises_print.
Qed.

Lemma Raises_is_playing (o : Termux.run_outcome) : Raises P (Termux.is_playing o).
Proof.
  unfold Termux.is_playing. apply Raises_try_except.
  - apply Raises_bind; [apply Raises_subprocess_run|]. intros out. apply Raises_ret.
  - intros e k Hk. destruct e; inversion Hk; clear Hk; [|apply Raises_ret].
    apply Raises_bind; [apply Raises_print|]. intros _.
    apply Raises_bind; [apply Raises_print|]. intros _. by apply Raises_raise.
Qed.

Lemma Raises_termux_play_file (env : Termux.play_env) (filepath : string) :
  Raises P (Termux.play_file env filepath).
Proof.
  unfold Termux.play_file. apply Raises_try_except.
  - apply Raises_bind; [apply Raises_meanwhile_unlink|]. intros _.
    apply Raises_bind; [apply Raises_subprocess_run|]. intros _. apply Raises_ret.
  - intros e k Hk. destruct e; inversion Hk; clear Hk.
    apply Raises_bind; [apply Raises_print|]. intros _. apply Raises_ret.
Qed.

Lemma Raises_wait_until_finished (polls : list (Termux.run_outcome * bool)) :
  Raises P (Termux.wait_until_finished polls).
Proof.
  induction polls as [|[o interrupted] rest IH]; [apply Raises_pending|].
  simpl. apply Raises_bind; [apply Raises_is_playing|]. intros [|]; [|apply Raises_ret].
  apply Raises_bind; [|intros _; exact IH].
  unfold Termux.time_sleep. apply Raises_bind; [apply Raises_modify|]. intros _.
  destruct interrupted; [by apply Raises_raise|apply Raises_ret].
Qed.

Lemma Raises_termux_iteration (env : Termux.iter_env) (song : string) :
  Raises P (Termux.iteration env song).
Proof.
  unfold Termux.iteration. apply Raises_bind; [apply Raises_print|]. intros _.
  apply Raises_bind; [apply Raises_termux_copy_to_temp_md5|].
  intros [t|]; [|apply Raises_print].
  unfold Termux.play_and_cleanup.
  apply Raises_try_finally; [|apply Raises_remove_ignoring_OSError].
  apply Raises_bind; [apply Raises_termux_play_file|].
  intros [|]; simpl negb; cbv iota; [|apply Raises_os_remove].
  apply Raises_bind; [apply Raises_wait_until_finished|]. intros _. apply Raises_print.
Qed.

Lemma Raises_termux_for_songs (songs : list string) :
  forall envs, Raises P (Termux.for_songs songs envs).
Proof.
  induction songs as [|song rest IH]; intros envs; [apply Raises_ret|].
  destruct envs as [|env envs]; [apply Raises_pending|].
  simpl. apply Raises_bind; [apply Raises_termux_iteration|]. intros _. apply IH.
Qed.

Lemma Raises_termux_while_True (passes : list Termux.pass_env) :
  forall songs, Raises P (Termux.while_True songs passes).
Proof.
  induction passes as [|p rest IH]; intros songs; [apply Raises_pending|].
  simpl. apply Raises_bind; [apply Raises_termux_for_songs|]. intros _. apply IH.
Qed.

Lemma Raises_termux_startup (argv : list string) (env : Termux.startup_env) :
  Raises P (Termux.startup argv env).
Proof.
  assert (Hexit : forall b text,
             Raises P (when b (bind (print text) (fun _ => sys_exit 1)))).
  { intros b text. apply Raises_when, Raises_bind; [apply Raises_print|].
    intros _. by apply Raises_raise. }
  unfold Termux.startup.
  apply Raises_bind; [apply Hexit|]. intros _.
  apply Raises_bind; [apply Raises_get|]. intros isdir.
  apply Raises_bind; [apply Hexit|]. intros _.
  apply Raises_bind; [apply Raises_modify|]. intros _.
  apply Raises_bind; [apply Hexit|]. intros _.
  apply Raises_bind; [apply Raises_print|]. intros _.
  apply Raises_bind; [apply Raises_print|]. intros _. apply Raises_ret.
Qed.

End Raises.

(** [while True] has no normal end. *)
Lemma termux_while_True_never_returns (passes : list Termux.pass_env) :
  forall (songs : list string) (w : world),
    fst (Termux.while_True songs passes w) <> Ret tt.
Proof.
  induction passes as [|p rest IH]; intros songs w; [done|].
  simpl. unfold bind.
  destruct (Termux.for_songs _ _ w) as [[[]|e|] w1]; [apply IH|done..].
Qed.

(** X17.  The termux script ends with status 0 only when Ctrl+C ended
    the loop: no failed check, no error of staging, of the player or of
    a removal, and no end of a track leads to a successful exit. *)
Theorem termux_exit_0_means_interrupted (argv : list string) (env : Termux.startup_env)
        (passes : list Termux.pass_env) (w : world) :
  fst (Termux.program argv env passes w) = Some 0 ->
  exists songs,
    fst (Termux.startup argv env w) = Ret songs
    /\ fst (Termux.while_True songs passes (snd (Termux.startup argv env w)))
       = Raise KeyboardInterrupt.
Proof.
  assert (HP : forall {A} (m : M A),
             Raises not_exit_0 m -> forall v w', m v <> (Raise (SystemExit 0), w')).
  { intros A m Hm v w' E. by apply (Hm v _ _ E). }
  unfold Termux.program, Termux.main, bind.
  pose proof (HP _ _ (Raises_termux_startup not_exit_0 ltac:(done) argv env) w) as Hstart.
  destruct (Termux.startup argv env w) as [[songs|e|] w0]; simpl fst; simpl snd.
  - intros Hexit. exists songs. split; [done|].
    pose proof (HP _ _ (Raises_termux_while_True not_exit_0
                          ltac:(by intros []) ltac:(done) ltac:(done) ltac:(done) ltac:(done)
                          passes songs) w0) as Hloop.
    pose proof (termux_while_True_never_returns passes songs w0) as Hret.
    unfold Termux.playback, try_except in Hexit.
    destruct (Termux.while_True songs passes w0) as [[[]|e|] w1]; simpl in *; [done| |done].
    destruct e; try done.
    destruct code as [|c|c]; try done. by destruct (Hloop w1).
  - intros Hexit. simpl in Hexit. destruct e; try done.
    destruct code as [|c|c]; try done. by destruct (Hstart w0).
  - done.
Qed.

Lemma termux_exit_0_means_interrupted_witness :
  exists songs,
    fst (Termux.startup ["player"; "/music"] termux_installed (boot library "/tmp"))
    = Ret songs
    /\ fst (Termux.while_True songs termux_interrupted_pass
              (snd (Termux.startup ["player"; "/music"] termux_installed
                                   (boot library "/tmp"))))
       = Raise KeyboardInterrupt.
Proof.
  apply (termux_exit_0_means_interrupted ["player"; "/music"] termux_installed
           termux_interrupted_pass (boot library "/tmp")).
  vm_compute. reflexivity.
Defined.

(* ================================================================== *)
(** ** What the player is started on *)
(* ================================================================== *)

Lemma still_plays_in_print (allowed : string -> Prop) (text : string) (w : world) :
  still_plays_in allowed w (with_event (Print text) w).
Proof. intros H. simpl. apply Forall_app. split; [done|]. by constructor. Qed.

Lemma still_plays_in_atexit (allowed : string -> Prop) (hs : list handler) (w : world) :
  still_plays_in allowed w (with_atexit hs w).
Proof. by intros H. Qed.

(** X18.  The ffplay script starts its player on files of the temp
    directory only: every process it spawns, in any run, is [ffplay]
    with the fixed flags on one file, and the path of that file begins
    with the temp directory, as [os.path.join] writes it. *)
Theorem ffplay_plays_in_tempdir_only (argv : list string) (env : Ffplay.startup_env)
        (passes : list Ffplay.pass_env) (files : gmap string entry) (td : string) :
  Forall (plays_in (in_tempdir td))
         (trace (snd (Ffplay.program argv env passes (boot files td)))).
Proof.
  apply (ffplay_program_related td (in_tempdir td) (still_plays_in (in_tempdir td))
           (still_plays_in_respects _) (still_plays_in_print _) (still_plays_in_atexit _)
           (join_in_tempdir td) argv env passes (boot files td)); [done|].
  constructor.
Qed.

(** X19.  The termux script plays files of the temp directory only:
    every [play] command it sends to the media player, in any run, names
    one file, and the path of that file begins with the temp directory,
    as [os.path.join] writes it. *)
Theorem termux_plays_in_tempdir_only (argv : list string) (env : Termux.startup_env)
        (passes : list Termux.pass_env) (files : gmap string entry) (td : string) :
  Forall (plays_in (in_tempdir td))
         (trace (snd (Termux.program argv env passes (boot files td)))).
Proof.
  apply (termux_program_related td (in_tempdir td) (still_plays_in (in_tempdir td))
           (still_plays_in_respects _) (still_plays_in_print _) (still_plays_in_atexit _)
           (join_in_tempdir td) argv env passes (boot files td)); [done|].
  constructor.
Qed.

(* ================================================================== *)
(** ** The report of a missing ffplay *)
(* ================================================================== *)

(** X20.  Without [ffplay] on the path, [check_ffplay] prints on
    standard error the error line, then either the generic hint or the
    header followed by one install command, never more than one, and
    exits with status 1; on
    Windows there is always a command (the download hint at least), on
    a platform that is neither Linux, macOS nor Windows never. *)
Theorem check_ffplay_missing_report (env : Ffplay.startup_env) (w : world) :
  Ffplay.which env "ffplay" = false ->
  exists hint : list string,
    Ffplay.check_ffplay env w
    = (Raise (SystemExit 1),
       with_eprints ("Error: ffplay executable not found in PATH." :: hint) w)
    /\ (hint = ["Please ensure ffplay executable is in PATH"]
        \/ exists cmd,
            hint = ["Please install ffmpeg (which provides ffplay) using one of these commands:";
                    "  " ++ cmd])
    /\ (Ffplay.system env = "windows" ->
        hint <> ["Please ensure ffplay executable is in PATH"])
    /\ (Ffplay.system env <> "linux" -> Ffplay.system env <> "darwin" ->
        Ffplay.system env <> "windows" ->
        hint = ["Please ensure ffplay executable is in PATH"]).
Proof.
  intros H. unfold Ffplay.check_ffplay. rewrite H. cbv zeta.
  match goal with
  | |- context [match ?l with [] => _ | _ :: _ => _ end] => set (suggestions := l)
  end.
  assert (Hs : (suggestions = [] \/ exists cmd, suggestions = [cmd])
               /\ (Ffplay.system env = "windows" -> suggestions <> [])
               /\ (Ffplay.system env <> "linux" -> Ffplay.system env <> "darwin" ->
                   Ffplay.system env <> "windows" -> suggestions = [])).
  { subst suggestions.
    destruct (String.eqb (Ffplay.system env) "linux") eqn:Hlinux;
      [apply String.eqb_eq in Hlinux|apply String.eqb_neq in Hlinux];
      [|destruct (String.eqb (Ffplay.system env) "darwin") eqn:Hdarwin;
        [apply String.eqb_eq in Hdarwin|apply String.eqb_neq in Hdarwin];
        [|destruct (String.eqb (Ffplay.system env) "windows") eqn:Hwindows;
          [apply String.eqb_eq in Hwindows|apply String.eqb_neq in Hwindows]]].
    all: repeat match goal with
                | |- context [if Ffplay.which ?e ?c then _ else _] =>
                    destruct (Ffplay.which e c)
                end.
    all: split; [first [by left | right; by eexists]|].
    all: split; [intros E; first [done | congruence]|intros; first [done | congruence]]. }
  clearbody suggestions. destruct Hs as (Hshape & Hwin & Hother).
  destruct Hshape as [-> | [cmd ->]].
  - exists ["Please ensure ffplay executable is in PATH"].
    split; [reflexivity|]. split; [by left|]. split; [|done].
    intros E. by destruct (Hwin E).
  - exists ["Please install ffmpeg (which provides ffplay) using one of these commands:";
            "  " ++ cmd].
    split; [reflexivity|]. split; [right; by exists cmd|]. split; [done|].
    intros H1 H2 H3. by specialize (Hother H1 H2 H3).
Qed.

Lemma check_ffplay_missing_report_witness :
  exists hint : list string,
    Ffplay.check_ffplay ffplay_absent (boot library "/tmp")
    = (Raise (SystemExit 1),
       with_eprints ("Error: ffplay executable not found in PATH." :: hint)
                   (boot library "/tmp"))
    /\ (hint = ["Please ensure ffplay executable is in PATH"]
        \/ exists cmd,
            hint = ["Please install ffmpeg (which provides ffplay) using one of these commands:";
                    "  " ++ cmd])
    /\ (Ffplay.system ffplay_absent = "windows" ->
        hint <> ["Please ensure ffplay executable is in PATH"])
    /\ (Ffplay.system ffplay_absent <> "linux" -> Ffplay.system ffplay_absent <> "darwin" ->
        Ffplay.system ffplay_absent <> "windows" ->
        hint = ["Please ensure ffplay executable is in PATH"]).
Proof.
  apply (check_ffplay_missing_report ffplay_absent (boot library "/tmp")).
  reflexivity.
Defined.

(* ================================================================== *)
(** ** The two versions of [copy_to_temp_md5] *)
(* ================================================================== *)

(** X21.  The termux version of [copy_to_temp_md5] differs from the
    ffplay version in two things: it reads [tmp_path] before it is
    bound, and it prints its error line on standard output, where the
    ffplay version prints on standard error.  Whenever the termux
    version does not end with the error of the unbound variable, both
    versions return the same result and leave the same files, history,
    processes and variables, and they have printed the same lines (one
    at most), each on its own stream. *)
Theorem termux_stage_agrees_with_ffplay (env : stage_env) (original_path : string)
        (w : world) :
  fst (Termux.copy_to_temp_md5 env original_path w) <> Raise UnboundLocalError ->
  exists (r : res (option string)) (lines : list string) (v : world),
    Termux.copy_to_temp_md5 env original_path w = (r, with_prints lines v)
    /\ Ffplay.copy_to_temp_md5 env original_path w = (r, with_eprints lines v)
    /\ trace v = trace w
    /\ (length lines <= 1)%nat.
Proof.
  unfold Termux.copy_to_temp_md5, Ffplay.copy_to_temp_md5.
  destruct (Path.splitext (Path.basename original_path)) as [stem ext].
  run. set (dest := Path.join (tempdir w) _).
  destruct (stage_attempt_outcome env original_path (tempdir w) ext dest
              (with_tmp_path None w) eq_refl)
    as (r & w1 & -> & (Htrace & _) & _).
  simpl in Htrace.
  destruct r as [o|e|].
  - intros _. exists (Ret o), [], w1. simpl. auto.
  - destruct (is_Exception e); [|intros _; exists (Raise e), [], w1; simpl; auto].
    run. destruct (tmp_path w1) as [t|] eqn:Htmp; run; rewrite ?Htmp; run;
      [|intros H; by destruct H].
    intros _.
    set (line := "Error creating temporary copy for " ++ _).
    destruct (fs w1 !! t) as [[d|]|] eqn:Ht; run; rewrite ?Htmp; run; rewrite ?Ht; run.
    + exists (Ret None), [line], (with_fs (delete t (fs w1)) w1). simpl. auto.
    + exists (Raise IsADirectoryError), [line], w1. simpl. auto.
    + exists (Ret None), [line], w1. simpl. auto.
  - intros _. exists Pending, [], w1. simpl. auto.
Qed.

Lemma termux_stage_agrees_with_ffplay_witness :
  exists (r : res (option string)) (lines : list string) (v : world),
    Termux.copy_to_temp_md5 stage_fine "/music/songA.mp3" (boot library_dest_is_dir "/tmp")
    = (r, with_prints lines v)
    /\ Ffplay.copy_to_temp_md5 stage_fine "/music/songA.mp3" (boot library_dest_is_dir "/tmp")
       = (r, with_eprints lines v)
    /\ trace v = trace (boot library_dest_is_dir "/tmp")
    /\ (length lines <= 1)%nat.
Proof.
  apply (termux_stage_agrees_with_ffplay stage_fine "/music/songA.mp3"
           (boot library_dest_is_dir "/tmp")).
  vm_compute. discriminate.
Defined.
(* ================================================================== *)
(** ** A call that fails leaves the staged path alone *)
(* ================================================================== *)






(* ================================================================== *)
(** ** Ctrl+C ends the scripts *)
(* ================================================================== *)

Lemma termux_startup_returns (argv : list string) (env : Termux.startup_env)
      (songs : list string) (w w0 : world) :
  Termux.startup argv env w = (Ret songs, w0) ->
  atexit w0 = (atexit w ++ [stop_music_handler])%list.
Proof.
  unfold Termux.startup.
  destruct (length argv =? 2)%nat; run; [|done].
  destruct (fs w !! nth 1 argv "") as [[data|]|]; run; try done.
  destruct (gather_music_files (Termux.walk env)) as [|song rest]; run; [done|].
  by intros [= _ <-].
Qed.

Lemma termux_while_True_handlers (passes : list Termux.pass_env) (songs : list string)
      (w : world) :
  atexit (snd (Termux.while_True songs passes w)) = atexit w.
Proof.
  destruct (Stable_termux_while_True (tempdir w) (fun _ => True) same_handlers
              (same_handlers_respects _) (fun _ _ => eq_refl) (fun _ _ => I)
              passes songs w) as [_ Hsame]; [by split|exact Hsame].
Qed.

Lemma termux_interrupt_exits_0 (argv : list string) (env : Termux.startup_env)
      (passes : list Termux.pass_env) (songs : list string) (w : world) :
  fst (Termux.startup argv env w) = Ret songs ->
  fst (Termux.while_True songs passes (snd (Termux.startup argv env w)))
  = Raise KeyboardInterrupt ->
  Termux.stop_on_interrupt env <> Termux.Interrupted ->
  fst (Termux.program argv env passes w) = Some 0.
Proof.
  intros Hstart Hloop Hstop. unfold Termux.program, Termux.main, bind.
  destruct (Termux.startup argv env w) as [r0 w0]. simpl in Hstart, Hloop. subst r0.
  destruct (Termux.while_True songs passes w0) as [r1 w1] eqn:Hrun.
  simpl in Hloop. subst r1.
  destruct (termux_playback_interrupted env songs passes w0 w1 Hrun Hstop) as (w2 & -> & _).
  reflexivity.
Qed.

(** C6 as stated fails for the termux script: it holds no process and
    has nothing to wait for or to kill.  On Ctrl+C it runs the [stop]
    command, in the interrupt handler and again at exit; here both fail
    with status 1, nothing else is tried, and the script exits with 0. *)
Lemma termux_interrupt_only_sends_stop :
  let run :=
    Termux.program ["player"; "/music"] termux_stop_fails termux_interrupted_pass
                   (boot library "/tmp") in
  fst run = Some 0
  /\ existsb is_kill_event (trace (snd run)) = false
  /\ commands_sent (snd run)
     = [["termux-media-player"; "play"; "/tmp/8fb0aec765227888a14d5426bd526a97.mp3"];
        info_cmd; stop_cmd; stop_cmd].
Proof. repeat split; vm_compute; reflexivity. Qed.

(** C6, amended.  In the ffplay script Ctrl+C during playback sends
    [terminate] to a player that is still running, waits two seconds for
    it and kills it if it has not exited by then; when Ctrl+C arrives
    again during that wait the player is left as it is, neither waited
    for nor killed.  The termux script holds no process: its interrupt
    handler calls [stop_music] once and its exit handler calls it again,
    each time sending the [stop] command (or printing the error when the
    executable is missing), with no wait and no kill.  In both scripts
    the staged file of the track is removed and the process exits with
    status 0. *)
Theorem interrupt_shutdown :
  (forall (env : Ffplay.play_env) (temp_path : string) (w : world),
      Ffplay.spawn_error env = None ->
      Ffplay.wait_result env = None ->
      fs w !! temp_path <> Some Dir ->
      ffplay_process w = None ->
      exists w',
        Ffplay.play_and_cleanup env temp_path w = (Raise KeyboardInterrupt, w')
        /\ trace w'
           = (trace w ++ Spawn (ffplay_cmd temp_path)
                :: match Ffplay.sigint_exit env with
                   | Some _ => []
                   | None =>
                       Terminate (length (procs w)) :: WaitTimeout (length (procs w)) 2
                         :: match Ffplay.exits_in_grace env with
                            | Some false => [Kill (length (procs w))]
                            | _ => []
                            end
                   end)%list
        /\ procs w'
           = (procs w ++ [match Ffplay.sigint_exit env with
                          | Some returncode => Exited returncode
                          | None => match Ffplay.exits_in_grace env with
                                    | Some true => Exited (-15)
                                    | Some false => Exited (-9)
                                    | None => Running
                                    end
                          end])%list
        /\ fs w' !! temp_path = None
        /\ ffplay_process w' = None)
  /\ (forall (argv : list string) (env : Ffplay.startup_env)
             (passes : list Ffplay.pass_env) (songs : list string) (w : world),
         fst (Ffplay.startup argv env w) = Ret songs ->
         fst (Ffplay.while_True songs passes (snd (Ffplay.startup argv env w)))
         = Raise KeyboardInterrupt ->
         fst (Ffplay.program argv env passes w) = Some 0)
  /\ (forall (env : Termux.iter_env) (temp_path : string) (w : world),
         fs w !! temp_path <> Some Dir ->
         fst (Termux.play_and_cleanup env temp_path w) = Pending
         \/ fs (snd (Termux.play_and_cleanup env temp_path w)) !! temp_path = None)
  /\ (forall (argv : list string) (env : Termux.startup_env)
             (passes : list Termux.pass_env) (songs : list string) (w w0 w1 : world),
         atexit w = [] ->
         Termux.startup argv env w = (Ret songs, w0) ->
         Termux.while_True songs passes w0 = (Raise KeyboardInterrupt, w1) ->
         Termux.stop_on_interrupt env <> Termux.Interrupted ->
         exists w2,
           Termux.program argv env passes w = (Some 0, w2)
           /\ fs w2 = fs w1
           /\ trace w2
              = (trace w1 ++ [Print (nl ++ "KeyboardInterrupt received. Stopping playback...");
                              stop_attempt (Termux.stop_on_interrupt env);
                              stop_attempt (Termux.stop_at_exit env)])%list)
  /\ (forall (argv : list string) (env : Termux.startup_env)
             (passes : list Termux.pass_env) (songs : list string) (w : world),
         fst (Termux.startup argv env w) = Ret songs ->
         fst (Termux.while_True songs passes (snd (Termux.startup argv env w)))
         = Raise KeyboardInterrupt ->
         Termux.stop_on_interrupt env <> Termux.Interrupted ->
         fst (Termux.program argv env passes w) = Some 0).
Proof.
  split; [exact ffplay_interrupted|].
  split; [exact ffplay_interrupt_exits_0|].
  split; [exact termux_play_and_cleanup_removes|].
  split; [|exact termux_interrupt_exits_0].
  intros argv env songs_env songs w w0 w1 Hfresh Hstart Hloop Hstop.
  pose proof (termux_startup_returns argv env songs w w0 Hstart) as Hreg.
  pose proof (termux_while_True_handlers songs_env songs w0) as Hkeep.
  rewrite Hloop in Hkeep. simpl in Hkeep. rewrite Hreg, Hfresh in Hkeep. simpl in Hkeep.
  destruct (termux_playback_interrupted env songs songs_env w0 w1 Hloop Hstop)
    as (w2 & Hrun & Hfs & _ & Hexit & Htrace).
  rewrite Hkeep in Hexit.
  destruct (termux_stop_handler_runs env w2) as (w3 & Hstopped & Hfs3 & _ & Htrace3).
  exists w3. unfold Termux.program, Termux.main, bind. rewrite Hstart, Hrun.
  rewrite Hexit. cbn [rev app fold_right exit_status]. unfold bind, ret.
  rewrite Hstopped. cbn [snd]. split; [done|]. split; [by rewrite Hfs3|].
  rewrite Htrace3, Htrace, <- app_assoc. reflexivity.
Qed.

Lemma interrupt_shutdown_witness :
  fst (Ffplay.program ["player"; "/music"] ffplay_installed ffplay_interrupted_pass
                      (boot library "/tmp")) = Some 0
  /\ fst (Termux.program ["player"; "/music"] termux_installed termux_interrupted_pass
                         (boot library "/tmp")) = Some 0
  /\ (exists w',
         Ffplay.play_and_cleanup (Ffplay.mkPlayEnv None None None (Some false) false)
           "/tmp/8fb0aec765227888a14d5426bd526a97.mp3" (boot library_stale "/tmp")
         = (Raise KeyboardInterrupt, w')
         /\ trace w' = [Spawn (ffplay_cmd "/tmp/8fb0aec765227888a14d5426bd526a97.mp3");
                        Terminate 0; WaitTimeout 0 2; Kill 0]
         /\ procs w' = [Exited (-9)]
         /\ fs w' !! "/tmp/8fb0aec765227888a14d5426bd526a97.mp3" = None)
  /\ (exists w',
         Ffplay.play_and_cleanup (Ffplay.mkPlayEnv None None None None false)
           "/tmp/8fb0aec765227888a14d5426bd526a97.mp3" (boot library_stale "/tmp")
         = (Raise KeyboardInterrupt, w')
         /\ trace w' = [Spawn (ffplay_cmd "/tmp/8fb0aec765227888a14d5426bd526a97.mp3");
                        Terminate 0; WaitTimeout 0 2]
         /\ procs w' = [Running]
         /\ fs w' !! "/tmp/8fb0aec765227888a14d5426bd526a97.mp3" = None)
  /\ (exists w2,
         Termux.program ["player"; "/music"] termux_installed termux_interrupted_pass
                        (boot library "/tmp") = (Some 0, w2)
         /\ fs w2 = library
         /\ commands_sent w2
            = [["termux-media-player"; "play"; "/tmp/8fb0aec765227888a14d5426bd526a97.mp3"];
               info_cmd; stop_cmd; stop_cmd]).
Proof.
  destruct interrupt_shutdown as (Hplay & Hffplay & _ & Hstops & Htermux).
  split; [|split; [|split; [|split]]].
  - apply (Hffplay _ _ _ ["/music/songA.mp3"; "/music/songB.flac"]);
      vm_compute; reflexivity.
  - apply (Htermux _ _ _ ["/music/songA.mp3"; "/music/songB.flac"]);
      [vm_compute; reflexivity|vm_compute; reflexivity|discriminate].
  - destruct (Hplay (Ffplay.mkPlayEnv None None None (Some false) false)
                "/tmp/8fb0aec765227888a14d5426bd526a97.mp3" (boot library_stale "/tmp"))
      as (w' & Hrun & Htrace & Hprocs & Hfs & _);
      [reflexivity|reflexivity|vm_compute; discriminate|reflexivity|].
    exists w'. by repeat split.
  - destruct (Hplay (Ffplay.mkPlayEnv None None None None false)
                "/tmp/8fb0aec765227888a14d5426bd526a97.mp3" (boot library_stale "/tmp"))
      as (w' & Hrun & Htrace & Hprocs & Hfs & _);
      [reflexivity|reflexivity|vm_compute; discriminate|reflexivity|].
    exists w'. by repeat split.
  - destruct (Hstops ["player"; "/music"] termux_installed termux_interrupted_pass
                ["/music/songA.mp3"; "/music/songB.flac"] (boot library "/tmp")
                (snd (Termux.startup ["player"; "/music"] termux_installed
                                     (boot library "/tmp")))
                (snd (Termux.while_True ["/music/songA.mp3"; "/music/songB.flac"]
                        termux_interrupted_pass
                        (snd (Termux.startup ["player"; "/music"] termux_installed
                                             (boot library "/tmp"))))))
      as (w2 & Hrun & Hfs & Htrace);
      [reflexivity|vm_compute; reflexivity|vm_compute; reflexivity|discriminate|].
    exists w2. split; [exact Hrun|]. split.
    + rewrite Hfs. vm_compute. reflexivity.
    + unfold commands_sent. rewrite Htrace. vm_compute. reflexivity.
Defined.

